(** * Adventure game: room-graph builder and adventure runner

    A shallow embedding of [trompj.buildrooms.c] and [trompj.adventure.c].

    - [BuildRooms] embeds the graph builder: the 7x7 connection matrix, the
      rejection-sampling loops that add random edges, the role assignment,
      the room-file writer and [main].
    - [Adventure] embeds the runner: the directory selector, the room-file
      parser, the loader of the room array, the game loop, the time
      hand-off between the two threads and [main].

    C [int]s are embedded as [Z], array indices and loop counters as [nat],
    C strings and the bytes of files and of [stdin] as [string] (a buffer
    read by [fgets] is seen by the string functions up to its first NUL
    byte), and the results of [rand()] as a stream [nat -> nat] read
    through a cursor (the number of calls made so far).  Loops without a
    bound in the source ([while (1)], [do ... while], redraw-until-unique)
    take a fuel argument and return [None] when it runs out. *)

From Stdlib Require Import String Ascii DecimalString ZArith List Lia Bool Arith
  Permutation.
Import ListNotations.

(** ** Arrays *)

(** [a[n] = v] on an array held as a list; the length never changes. *)
Fixpoint upd {A : Type} (n : nat) (v : A) (l : list A) : list A :=
  match l, n with
  | [], _ => []
  | _ :: t, O => v :: t
  | x :: t, S m => x :: upd m v t
  end.

(** The sequence of values [rand()] returns during one execution. *)
Definition rand_stream := nat -> nat.

(** Every residue modulo [k] keeps coming back in the stream. *)
Definition recurring (k : nat) (rs : rand_stream) : Prop :=
  forall (p v : nat), (v < k)%nat ->
    exists m, (p <= m)%nat /\ rs m mod k = v.

(** * The graph builder *)

Module BuildRooms.
Local Open Scope Z_scope.

(** [int roomGraph[7][7]] *)
Definition graph := list (list Z).

Definition cell (roomGraph : graph) (x y : nat) : Z :=
  nth y (nth x roomGraph []) 0.

Definition setCell (roomGraph : graph) (x y : nat) (v : Z) : graph :=
  upd x (upd y v (nth x roomGraph [])) roomGraph.

(** Every position of the matrix is set to -1. *)
Definition initializeGraph : graph :=
  map (fun _ : nat => map (fun _ : nat => -1) (seq 0 7)) (seq 0 7).

(** The counting loop shared by [isGraphFull] and [canAddConnectionFrom]:
    the number of positions of row [room] that are not -1. *)
Definition countConnections (roomGraph : graph) (room : nat) : Z :=
  fold_left
    (fun roomCount idx =>
       if negb (cell roomGraph room idx =? -1) then roomCount + 1
       else roomCount)
    (seq 0 7) 0.

Definition isGraphFull (roomGraph : graph) : Z :=
  let roomConnections := map (countConnections roomGraph) (seq 0 7) in
  fold_left
    (fun graphFull idx =>
       if nth idx roomConnections 0 <? 3 then 0 else graphFull)
    (seq 0 7) 1.

Definition canAddConnectionFrom (rooms : graph) (room : nat) : Z :=
  let roomCount := countConnections rooms room in
  if roomCount <? 6 then 1 else 0.

Definition isSameRoom (roomA roomB : nat) : Z :=
  if (roomA =? roomB)%nat then 1 else 0.

(** The inner loop of [connectionAlreadyExists]; finding a match sets the
    flag and breaks out of this loop only. *)
Fixpoint scanRoomB (roomGraph : graph) (roomA roomB idxA : nat)
    (idxBs : list nat) (connExists : Z) : Z :=
  match idxBs with
  | [] => connExists
  | idxB :: rest =>
      if (cell roomGraph roomA idxA =? Z.of_nat roomB)
         && negb (cell roomGraph roomA idxA =? -1)
         && negb (cell roomGraph roomB idxB =? -1)
      then
        if cell roomGraph roomB idxB =? Z.of_nat roomA then 1
        else scanRoomB roomGraph roomA roomB idxA rest connExists
      else scanRoomB roomGraph roomA roomB idxA rest connExists
  end.

Definition connectionAlreadyExists (roomGraph : graph) (roomA roomB : nat)
    : Z :=
  fold_left
    (fun connExists idxA =>
       scanRoomB roomGraph roomA roomB idxA (seq 0 7) connExists)
    (seq 0 7) 0.

Definition connectRoom (roomGraph : graph) (roomA roomB : nat) : graph :=
  setCell roomGraph roomA roomB (Z.of_nat roomB).

(** The [while (1)] loop that draws [roomA]; returns the room and the
    cursor after the draws it used. *)
Fixpoint drawRoomA (fuel : nat) (rs : rand_stream) (roomGraph : graph)
    (pos : nat) : option (nat * nat) :=
  match fuel with
  | O => None
  | S fuel' =>
      let roomA := (rs pos mod 7)%nat in
      if canAddConnectionFrom roomGraph roomA =? 1
      then Some (roomA, S pos)
      else drawRoomA fuel' rs roomGraph (S pos)
  end.

(** The [do ... while] loop that draws [roomB]. *)
Fixpoint drawRoomB (fuel : nat) (rs : rand_stream) (roomGraph : graph)
    (roomA pos : nat) : option (nat * nat) :=
  match fuel with
  | O => None
  | S fuel' =>
      let roomB := (rs pos mod 7)%nat in
      if (canAddConnectionFrom roomGraph roomB =? 0)
         || (isSameRoom roomA roomB =? 1)
         || (connectionAlreadyExists roomGraph roomA roomB =? 1)
      then drawRoomB fuel' rs roomGraph roomA (S pos)
      else Some (roomB, S pos)
  end.

Definition addRandomConnection (fuel : nat) (rs : rand_stream)
    (roomGraph : graph) (pos : nat) : option (graph * nat) :=
  match drawRoomA fuel rs roomGraph pos with
  | None => None
  | Some (roomA, pos1) =>
      match drawRoomB fuel rs roomGraph roomA pos1 with
      | None => None
      | Some (roomB, pos2) =>
          Some (connectRoom (connectRoom roomGraph roomA roomB) roomB roomA,
                pos2)
      end
  end.

(** The generation loop of [main]:
    [while (isGraphFull(roomGraph) == 0) addRandomConnection(roomGraph);] *)
Fixpoint generationLoop (fuel : nat) (rs : rand_stream) (roomGraph : graph)
    (pos : nat) : option (graph * nat) :=
  if isGraphFull roomGraph =? 0 then
    match fuel with
    | O => None
    | S fuel' =>
        match addRandomConnection fuel rs roomGraph pos with
        | None => None
        | Some (roomGraph', pos') => generationLoop fuel' rs roomGraph' pos'
        end
    end
  else Some (roomGraph, pos).

Definition generateGraph (fuel : nat) (rs : rand_stream)
    : option (graph * nat) :=
  generationLoop fuel rs initializeGraph 0.

(** ** Room names, room types and room files *)

Definition newline : string := String "010"%char EmptyString.

(** [char* rooms[10]] of [selectRooms]. *)
Definition rooms : list string :=
  ["Dungeon"; "Barracks"; "Garden"; "Game"; "Medical"; "Corridor";
   "Kitchen"; "Stairs"; "Basement"; "Attic"]%string.

(** The loop of [selectRooms] that redraws until the room number is not
    among the chosen ones. *)
Fixpoint drawRoomName (fuel : nat) (rs : rand_stream) (chosenRooms : list Z)
    (pos : nat) : option (nat * nat) :=
  match fuel with
  | O => None
  | S fuel' =>
      let selectedRoom := (rs pos mod 10)%nat in
      let uniqueRoom :=
        fold_left
          (fun uniqueRoom x =>
             if nth x chosenRooms 0 =? Z.of_nat selectedRoom then 0
             else uniqueRoom)
          (seq 0 7) 1 in
      if uniqueRoom =? 0 then drawRoomName fuel' rs chosenRooms (S pos)
      else Some (selectedRoom, S pos)
  end.

Fixpoint selectRoomsLoop (fuel : nat) (rs : rand_stream) (idxs : list nat)
    (chosenRooms : list Z) (selectedRooms : list string) (pos : nat)
    : option (list string * nat) :=
  match idxs with
  | [] => Some (selectedRooms, pos)
  | i :: idxs' =>
      match drawRoomName fuel rs chosenRooms pos with
      | None => None
      | Some (selectedRoom, pos') =>
          selectRoomsLoop fuel rs idxs'
            (upd i (Z.of_nat selectedRoom) chosenRooms)
            (upd i (nth selectedRoom rooms ""%string) selectedRooms) pos'
      end
  end.

(** [selectRooms], from the seven empty strings [main] passes in. *)
Definition selectRooms (fuel : nat) (rs : rand_stream) (pos : nat)
    : option (list string * nat) :=
  selectRoomsLoop fuel rs (seq 0 7) (repeat (-1) 7) (repeat ""%string 7) pos.

(** The state of [selectRooms] when the loop reaches [i]: the first [i]
    entries of [chosenRooms] are distinct numbers of the pool with their
    names in [selectedRooms], and the others are still -1. *)
Definition namesChosen (i : nat) (chosenRooms : list Z)
    (selectedRooms : list string) : Prop :=
  length chosenRooms = 7%nat /\ length selectedRooms = 7%nat /\
  NoDup (firstn i chosenRooms) /\
  (forall j, (j < i)%nat ->
     0 <= nth j chosenRooms 0 < 10 /\
     nth j selectedRooms ""%string
     = nth (Z.to_nat (nth j chosenRooms 0)) rooms ""%string) /\
  (forall j, (i <= j < 7)%nat -> nth j chosenRooms 0 = -1).

(** The redraw loop of [setupRoomFiles]: every draw, kept or not, is
    stored in [roomTypes[fileNum]] before the loop condition is tested. *)
Fixpoint drawRoomType (fuel : nat) (rs : rand_stream) (roomTypes : list Z)
    (fileNum pos : nat) : option (list Z * nat) :=
  match fuel with
  | O => None
  | S fuel' =>
      let selectedRoom := Z.of_nat (rs pos mod 7) in
      let uniqueRoom :=
        fold_left
          (fun uniqueRoom x =>
             if nth x roomTypes 0 =? selectedRoom then 0 else uniqueRoom)
          (seq 0 7) 1 in
      let roomTypes' := upd fileNum selectedRoom roomTypes in
      if uniqueRoom =? 0 then drawRoomType fuel' rs roomTypes' fileNum (S pos)
      else Some (roomTypes', S pos)
  end.

(** Only 0 is START and only 6 is END. *)
Definition roomTypeName (roomType : Z) : string :=
  if roomType =? 0 then "START_ROOM"%string
  else if roomType =? 6 then "END_ROOM"%string
  else "MID_ROOM"%string.

(** [sprintf(connectionChar, "%d", connCounter)] *)
Definition decimal (n : nat) : string :=
  NilEmpty.string_of_uint (Nat.to_uint n).

Definition nameLine (name : string) : string :=
  ("ROOM NAME: " ++ name ++ newline)%string.

Definition connectionLine (connCounter : nat) (name : string) : string :=
  ("CONNECTION " ++ decimal connCounter ++ ": " ++ name ++ newline)%string.

Definition typeLine (roomType : string) : string :=
  ("ROOM TYPE: " ++ roomType ++ newline)%string.

(** The connection loop of [setupRoomFiles] for one file: the lines
    written and the counter. *)
Definition connectionLines (selectedRooms : list string) (roomGraph : graph)
    (fileNum : nat) : nat * string :=
  fold_left
    (fun '(connCounter, written) connection =>
       if negb (cell roomGraph fileNum connection =? -1) then
         (S connCounter,
          (written ++
           connectionLine (S connCounter)
             (nth (Z.to_nat (cell roomGraph fileNum connection))
                  selectedRooms ""))%string)
       else (connCounter, written))
    (seq 0 7) (0%nat, ""%string).

(** What running [setupRoomFiles] comes to. *)
Inductive outcome (A : Type) : Type :=
| Done (a : A)
| OutOfFuel
| NullFile.
Arguments Done {A} a.
Arguments OutOfFuel {A}.
Arguments NullFile {A}.

(** A room file: its path and its content. *)
Definition roomFile : Type := string * string.

(** [pathName] of [setupRoomFiles]. *)
Definition roomFilePath (dirName : string) (selectedRooms : list string)
    (fileNum : nat) : string :=
  (dirName ++ "/" ++ nth fileNum selectedRooms "" ++ "_room")%string.

(** What [setupRoomFiles] writes to the file of room [fileNum] when the
    type drawn for it is [roomType]: the name line, the connection lines,
    the type line. *)
Definition roomFileContent (selectedRooms : list string) (roomGraph : graph)
    (fileNum : nat) (roomType : Z) : string :=
  (nameLine (nth fileNum selectedRooms "")
   ++ snd (connectionLines selectedRooms roomGraph fileNum)
   ++ typeLine (roomTypeName roomType))%string.

(** The loop of [setupRoomFiles] over [fileNum].  [opens fileNum] tells
    whether [fopen] succeeds; when it does not, the [fprintf] after the
    [else] branch is handed the null pointer. *)
Fixpoint setupRoomFilesLoop (fuel : nat) (rs : rand_stream)
    (opens : nat -> bool) (dirName : string) (selectedRooms : list string)
    (roomGraph : graph) (fileNums : list nat) (roomTypes : list Z)
    (pos : nat) (files : list roomFile)
    : outcome (list Z * list roomFile * nat) :=
  match fileNums with
  | [] => Done (roomTypes, files, pos)
  | fileNum :: rest =>
      let pathName := roomFilePath dirName selectedRooms fileNum in
      if opens fileNum then
        match drawRoomType fuel rs roomTypes fileNum pos with
        | None => OutOfFuel
        | Some (roomTypes', pos') =>
            let content :=
              roomFileContent selectedRooms roomGraph fileNum
                (nth fileNum roomTypes' 0) in
            setupRoomFilesLoop fuel rs opens dirName selectedRooms roomGraph
              rest roomTypes' pos' (files ++ [(pathName, content)])
        end
      else NullFile
  end.

Definition setupRoomFiles (fuel : nat) (rs : rand_stream)
    (opens : nat -> bool) (dirName : string) (selectedRooms : list string)
    (roomGraph : graph) (pos : nat)
    : outcome (list Z * list roomFile * nat) :=
  setupRoomFilesLoop fuel rs opens dirName selectedRooms roomGraph
    (seq 0 7) (repeat (-1) 7) pos [].

(** The state of [roomTypes] when the loop reaches file [k]: the first [k]
    entries are distinct values of 0..6 and the others are still -1. *)
Definition typesDone (k : nat) (roomTypes : list Z) : Prop :=
  length roomTypes = 7%nat /\
  NoDup (firstn k roomTypes) /\
  (forall i, (i < k)%nat -> 0 <= nth i roomTypes 0 < 7) /\
  (forall i, (k <= i < 7)%nat -> nth i roomTypes 0 = -1).

(** The same inside the redraw loop for file [k], where entry [k] may hold
    a rejected draw. *)
Definition typesDrawing (k : nat) (roomTypes : list Z) : Prop :=
  length roomTypes = 7%nat /\
  NoDup (firstn k roomTypes) /\
  (forall i, (i < k)%nat -> 0 <= nth i roomTypes 0 < 7) /\
  (forall i, (k < i < 7)%nat -> nth i roomTypes 0 = -1) /\
  (nth k roomTypes 0 = -1 \/ In (nth k roomTypes 0) (firstn k roomTypes)).

(** A room record as the two programs exchange it. *)
Record roomRecord : Type := {
  recName : string;
  recConnections : list string;
  recType : string
}.

(** ** What the claims say about the matrix *)

(** The test of the counting loops: the cell is not -1. *)
Definition isSet (g : graph) (x y : nat) : bool := negb (cell g x y =? -1).

(** Room [a] records room [b] as a neighbour. *)
Definition connected (roomGraph : graph) (a b : nat) : Prop :=
  cell roomGraph a b <> -1.

(** The connections of [room] in the order [setupRoomFiles] writes them:
    the entries of its row that are not -1. *)
Definition connectionsOf (roomGraph : graph) (room : nat) : list Z :=
  flat_map
    (fun connection =>
       if negb (cell roomGraph room connection =? -1)
       then [cell roomGraph room connection] else [])
    (seq 0 7).

(** The lines of the file format for a record: the name line, the
    connection lines numbered from [connCounter + 1] in list order, the
    type line. *)
Fixpoint numberedLines (connCounter : nat) (names : list string)
    : list string :=
  match names with
  | [] => []
  | name :: rest =>
      connectionLine (S connCounter) name :: numberedLines (S connCounter) rest
  end.

Definition recordLines (r : roomRecord) : list string :=
  nameLine (recName r) :: numberedLines 0 (recConnections r)
  ++ [typeLine (recType r)].

Definition flatten (lines : list string) : string :=
  fold_right append ""%string lines.

(** The text of the file. *)
Definition serializeRoom (r : roomRecord) : string :=
  flatten (recordLines r).

(** The record [setupRoomFiles] writes for room [fileNum]. *)
Definition recordOf (selectedRooms : list string) (roomGraph : graph)
    (fileNum : nat) (roomType : Z) : roomRecord :=
  {| recName := nth fileNum selectedRooms ""%string;
     recConnections :=
       map (fun connection => nth (Z.to_nat connection) selectedRooms ""%string)
         (connectionsOf roomGraph fileNum);
     recType := roomTypeName roomType |}.

Definition wellShaped (roomGraph : graph) : Prop :=
  length roomGraph = 7%nat /\
  forall x, (x < 7)%nat -> length (nth x roomGraph []) = 7%nat.

(** The invariant of the generation loop: a cell holds -1 or its own
    column number, the diagonal is unset, and the matrix is symmetric. *)
Record graphInvariant (roomGraph : graph) : Prop := {
  inv_shape : wellShaped roomGraph;
  inv_cells : forall x y, (x < 7)%nat -> (y < 7)%nat ->
      cell roomGraph x y = -1 \/ cell roomGraph x y = Z.of_nat y;
  inv_diag : forall x, (x < 7)%nat -> cell roomGraph x x = -1;
  inv_sym : forall x y, (x < 7)%nat -> (y < 7)%nat ->
      cell roomGraph x y = -1 -> cell roomGraph y x = -1
}.

(** An edge the drawing loops accept: not a self-edge, not a duplicate,
    both endpoints below six connections. *)
Definition acceptable (roomGraph : graph) (a b : nat) : Prop :=
  (a < 7)%nat /\ (b < 7)%nat /\ a <> b /\ cell roomGraph a b = -1 /\
  countConnections roomGraph a < 6 /\ countConnections roomGraph b < 6.

(** The matrices the generation loop can hold at the top of an iteration. *)
Inductive reachable : graph -> Prop :=
| reach_init : reachable initializeGraph
| reach_step (g g' : graph) (fuel : nat) (rs : rand_stream) (pos pos' : nat) :
    reachable g -> isGraphFull g = 0 ->
    addRandomConnection fuel rs g pos = Some (g', pos') ->
    reachable g'.

(** The total of all seven connection counts (twice the number of edges). *)
Definition totalConnections (roomGraph : graph) : Z :=
  fold_left Z.add (map (countConnections roomGraph) (seq 0 7)) 0.

(** ** The whole run *)

(** [main]: the matrix is generated from the values [rand()] returns
    before [selectRooms] calls [srand] (the stream [rs0]), the names and
    the types from the values it returns afterwards (the stream [rs1]).
    [pid] is what [getpid()] returns, taken to fit [pid[10]] (at most
    nine digits); a failure of [mkdir] is reported and the run goes on, so
    it shows in [opens] only.  The result is the directory name and the
    files written. *)
Definition main (fuel : nat) (rs0 rs1 : rand_stream) (pid : nat)
    (opens : nat -> bool) : outcome (string * list roomFile) :=
  match generateGraph fuel rs0 with
  | None => OutOfFuel
  | Some (roomGraph, _) =>
      let dirName := ("trompj.rooms." ++ decimal pid)%string in
      match selectRooms fuel rs1 0 with
      | None => OutOfFuel
      | Some (selectedRooms, pos) =>
          match setupRoomFiles fuel rs1 opens dirName selectedRooms
                  roomGraph pos with
          | Done (_, files, _) => Done (dirName, files)
          | OutOfFuel => OutOfFuel
          | NullFile => NullFile
          end
      end
  end.

(** ** What the other properties say *)

(** A string with its terminator fits [char buffer[capacity]]. *)
Definition fits (capacity : nat) (s : string) : bool :=
  (String.length s <? capacity)%nat.

(** What [setupRoomFiles] can index with for file [fileNum]: seven names,
    a file number below 7 and, in its row of the matrix, -1 or a room
    number. *)
Definition indexable (selectedRooms : list string) (roomGraph : graph)
    (fileNum : nat) : Prop :=
  length selectedRooms = 7%nat /\ (fileNum < 7)%nat /\
  forall connection, (connection < 7)%nat ->
    cell roomGraph fileNum connection = -1 \/
    0 <= cell roomGraph fileNum connection < 7.

(** Room [b] is at most two connections away from room [a]. *)
Definition withinTwo (roomGraph : graph) (a b : nat) : Prop :=
  connected roomGraph a b \/
  exists c, (c < 7)%nat /\ connected roomGraph a c /\ connected roomGraph c b.

End BuildRooms.

(** * The adventure runner *)

Module Adventure.
Local Open Scope string_scope.

Definition newline : string := BuildRooms.newline.

(** ** Undefined behaviour

    A write past a fixed-size buffer or array, a read through a null
    pointer and a read that runs past a buffer with no terminator end the
    run with a fault that says where. *)

Inductive fault : Type :=
| BufferOverflow (buffer : string)
| IndexOutOfBounds (array : string) (index : Z)
| NullPointer (pointer : string)
| NotTerminated (buffer : string)
| Uninitialized (pointer : string)
| OutOfFuel.

Inductive result (A : Type) : Type :=
| Ok (a : A)
| Fault (f : fault).
Arguments Ok {A} a.
Arguments Fault {A} f.

Definition bind {A B : Type} (r : result A) (k : A -> result B) : result B :=
  match r with
  | Ok a => k a
  | Fault f => Fault f
  end.

Notation "x <- r ;; k" := (bind r (fun x => k))
  (at level 61, r at next level, right associativity).
Notation "' p <- r ;; k" := (bind r (fun p => k))
  (at level 61, p pattern, r at next level, right associativity).

(** ** C strings

    [fgets] stores the bytes it reads, NUL bytes among them; the string
    functions see a buffer up to its first NUL only.  The names [readdir]
    returns and the strings the program makes itself hold no NUL. *)

(** The C string at the start of a zeroed buffer into which [bytes] were
    read: the bytes before the first NUL. *)
Fixpoint cstring (bytes : string) : string :=
  match bytes with
  | EmptyString => EmptyString
  | String c rest =>
      if Ascii.eqb c "000" then EmptyString else String c (cstring rest)
  end.

(** [strlen] of that buffer. *)
Definition strlen (bytes : string) : nat := String.length (cstring bytes).

(** [strstr(haystack, needle) != NULL] *)
Fixpoint strstr (haystack needle : string) : bool :=
  if prefix needle haystack then true
  else match haystack with
       | EmptyString => false
       | String _ rest => strstr rest needle
       end.

(** [strcmp(a, b) == 0] *)
Definition strcmp0 (a b : string) : bool := String.eqb a b.

(** What a [char*] of [struct room] points to: a zeroed buffer from
    [malloc] that holds the C string [s], or one that was filled with
    [bytes] up to its last byte and so has no terminator. *)
Inductive chars : Type :=
| Text (s : string)
| Unterminated (bytes : string).

(** A pointer to the C string [s]. *)
Definition text (s : string) : option chars := Some (Text s).

(** [strcmp(a, b) == 0] for a buffer [a] and a C string [b].  The
    comparison stops at the first byte that differs; it runs past a buffer
    with no terminator when [b] goes on with the same bytes. *)
Definition strcmpBuffer (buffer : string) (a : chars) (b : string)
    : result bool :=
  match a with
  | Text s => Ok (strcmp0 s b)
  | Unterminated bytes =>
      if prefix bytes b then Fault (NotTerminated buffer) else Ok false
  end.

(** [strcmp(p, b) == 0] where [p] may be the null pointer. *)
Definition strcmp0_ptr (pointer : string) (p : option chars) (b : string)
    : result bool :=
  match p with
  | Some a => strcmpBuffer pointer a b
  | None => Fault (NullPointer pointer)
  end.

(** The characters [fgets] stores when it may store [n] more: it stops
    after a newline, at the end of the stream, or when [n] are stored. *)
Fixpoint readChars (n : nat) (stream : string) : string * string :=
  match n with
  | O => ("", stream)
  | S n' =>
      match stream with
      | EmptyString => ("", "")
      | String c rest =>
          if Ascii.eqb c "010" then (String c "", rest)
          else let (line, rest') := readChars n' rest in
               (String c line, rest')
      end
  end.

(** [fgets(buffer, size, stream)]: [None] at the end of the stream. *)
Definition fgets (size : nat) (stream : string) : option (string * string) :=
  match stream with
  | EmptyString => None
  | _ => Some (readChars (size - 1) stream)
  end.

(** ** Room files *)

(** [struct room]; a null [char*] is [None]. *)
Record room : Type := {
  roomName : option chars;
  roomType : option chars;
  roomConnections : list (option chars)
}.

Definition initializeData : room :=
  {| roomName := None; roomType := None; roomConnections := repeat None 6 |}.

Fixpoint skipNewlines (s : string) : string :=
  match s with
  | EmptyString => EmptyString
  | String c rest =>
      if Ascii.eqb c "010" then skipNewlines rest
      else String c (skipNewlines rest)
  end.

(** The copy loops of [readFile]: the characters of [lineRead] from index
    [start] up to [strlen(lineRead)], newlines left out. *)
Definition payload (start : nat) (lineRead : string) : string :=
  skipNewlines (substring start (strlen lineRead - start) (cstring lineRead)).

(** The copy into a zeroed [malloc(capacity)]: with fewer characters than
    [capacity] the buffer holds them as a C string, with exactly
    [capacity] every write is in bounds and no terminator is left, with
    more the loop writes past the buffer. *)
Definition copyPayload (buffer : string) (capacity start : nat)
    (lineRead : string) : result chars :=
  let copied := payload start lineRead in
  if (String.length copied <? capacity)%nat then Ok (Text copied)
  else if (String.length copied =? capacity)%nat then Ok (Unterminated copied)
  else Fault (BufferOverflow buffer).

(** Which branch of [readFile] takes the line. *)
Inductive lineKind : Type := NameLine | TypeLine | ConnectionLine | OtherLine.

Definition classify (lineRead : string) : lineKind :=
  let line := cstring lineRead in
  if strstr line "ROOM NAME:" then NameLine
  else if strstr line "ROOM TYPE:" then TypeLine
  else if strstr line "CONNECTION" then ConnectionLine
  else OtherLine.

(** The body of the [while (fgets(...) != NULL)] loop of [readFile] on the
    room read so far and [connNumber]; [roomConnections[connNumber]] is
    written with no bound check. *)
Definition readLine (st : room * nat) (lineRead : string)
    : result (room * nat) :=
  let (roomObj, connNumber) := st in
  match classify lineRead with
  | NameLine =>
      name <- copyPayload "name" 11 11 lineRead ;;
      Ok ({| roomName := Some name;
             roomType := roomType roomObj;
             roomConnections := roomConnections roomObj |}, connNumber)
  | TypeLine =>
      type <- copyPayload "type" 11 11 lineRead ;;
      Ok ({| roomName := roomName roomObj;
             roomType := Some type;
             roomConnections := roomConnections roomObj |}, connNumber)
  | ConnectionLine =>
      roomConn <- copyPayload "roomConn" 10 14 lineRead ;;
      if (connNumber <? 6)%nat then
        Ok ({| roomName := roomName roomObj;
               roomType := roomType roomObj;
               roomConnections :=
                 upd connNumber (Some roomConn) (roomConnections roomObj) |},
            S connNumber)
      else Fault (IndexOutOfBounds "roomConnections" (Z.of_nat connNumber))
  | OtherLine => Ok st
  end.

(** The lines [fgets(lineRead, 255, fPointer)] returns until the end of the
    file; each call takes at least one character. *)
Fixpoint fileLines (fuel : nat) (content : string) : list string :=
  match fuel with
  | O => []
  | S fuel' =>
      match fgets 255 content with
      | None => []
      | Some (lineRead, rest) => lineRead :: fileLines fuel' rest
      end
  end.

Fixpoint readLines (st : room * nat) (lines : list string)
    : result (room * nat) :=
  match lines with
  | [] => Ok st
  | lineRead :: rest => st' <- readLine st lineRead ;; readLines st' rest
  end.

(** The lines of a whole file. *)
Definition linesOf (content : string) : list string :=
  fileLines (String.length content) content.

(** A line [fgets] returns whole, whatever follows it in the file. *)
Definition wholeLine (l : string) : Prop :=
  forall rest, fgets 255 (l ++ rest) = Some (l, rest).

(** [readFile] on the content of the file. *)
Definition readFile (content : string) : result room :=
  st <- readLines (initializeData, 0%nat) (linesOf content) ;;
  Ok (fst st).

Definition isConnectionLine (lineRead : string) : bool :=
  match classify lineRead with
  | ConnectionLine => true
  | _ => false
  end.

(** The number of lines of [lines] the connection branch takes. *)
Definition connectionLineCount (lines : list string) : nat :=
  length (filter isConnectionLine lines).

(** The copy loop of the line stays within the buffer [readFile]
    allocates for it. *)
Definition lineFits (lineRead : string) : bool :=
  match classify lineRead with
  | NameLine | TypeLine => (String.length (payload 11 lineRead) <=? 11)%nat
  | ConnectionLine => (String.length (payload 14 lineRead) <=? 10)%nat
  | OtherLine => true
  end.

(** The names among the connections of a room up to the first null
    pointer, as the loops of [runGameDriver] walk them; a buffer with no
    terminator holds no name. *)
Fixpoint connectionNames (conns : list (option chars)) : list string :=
  match conns with
  | Some (Text name) :: rest => name :: connectionNames rest
  | Some (Unterminated _) :: rest => connectionNames rest
  | None :: _ | [] => []
  end.

(** The in-memory room of a record. *)
Definition roomOfRecord (r : BuildRooms.roomRecord) : room :=
  {| roomName := text (BuildRooms.recName r);
     roomType := text (BuildRooms.recType r);
     roomConnections :=
       map text (BuildRooms.recConnections r)
       ++ repeat None (6 - length (BuildRooms.recConnections r)) |}.

(** ** The directory selector *)

(** A directory entry with what [stat] reports for it: [st_mtime] is a
    [time_t]; [stat] is taken to succeed. *)
Record dirEntry : Type := {
  d_name : string;
  st_mtime : Z
}.

(** The conversion [(int)] of a wider integer: the value modulo 2^32, read
    as a signed 32-bit number. *)
Definition toInt (z : Z) : Z :=
  ((z + 2147483648) mod 4294967296 - 2147483648)%Z.

Definition dirPrefix : string := "trompj.rooms.".

(** The body of the [readdir] loop on [(newestModified, dirName)]: the
    name of an entry that beats the running maximum is copied into
    [dirName[128]] with no check. *)
Definition examineEntry (st : Z * string) (subDir : dirEntry)
    : result (Z * string) :=
  let (newestModified, dirName) := st in
  if strstr (d_name subDir) dirPrefix then
    if (toInt (st_mtime subDir) >? newestModified)%Z then
      if (128 <=? String.length (d_name subDir))%nat
      then Fault (BufferOverflow "dirName")
      else Ok (toInt (st_mtime subDir), d_name subDir)
    else Ok (newestModified, dirName)
  else Ok (newestModified, dirName).

(** The [readdir] loop from the state [st]. *)
Definition examineEntries (subDirs : list dirEntry) (st : Z * string)
    : result (Z * string) :=
  fold_left (fun acc subDir => st <- acc ;; examineEntry st subDir)
    subDirs (Ok st).

(** [mostRecentRooms]: [entries] is what [readdir] returns in turn with
    what [stat] reports, or [None] when the directory cannot be opened.
    The result is the content of [dirName]. *)
Definition mostRecentRooms (entries : option (list dirEntry))
    : result string :=
  match entries with
  | Some subDirs =>
      st <- examineEntries subDirs ((-1)%Z, "") ;; Ok (snd st)
  | None => Ok ""
  end.

(** The entries the selector considers. *)
Definition candidates (subDirs : list dirEntry) : list dirEntry :=
  filter (fun subDir => strstr (d_name subDir) dirPrefix) subDirs.

(** ** The game loop *)

(** The state of [runGameDriver]: [currentRoom] is the index of the room
    [currentRoom] points to in [roomArr]; [timeCalls] counts the calls of
    [time()]. *)
Record game : Type := {
  currentRoom : nat;
  stepCount : nat;
  userInputRoom : string;
  visitedRooms : list string;
  stdin : string;
  stdout : list string;
  timeCalls : nat
}.

Inductive status : Type := Playing | Won.

Definition roomAt (roomArr : list room) (roomNum : nat) : room :=
  nth roomNum roomArr initializeData.

(** The string [printf("%s", p)] prints. *)
Definition deref (pointer : string) (p : option chars) : result string :=
  match p with
  | Some (Text s) => Ok s
  | Some (Unterminated _) => Fault (NotTerminated pointer)
  | None => Fault (NullPointer pointer)
  end.

(** The search for the start room: the last room of type START_ROOM. *)
Definition findStart (roomArr : list room) : result (option nat) :=
  fold_left
    (fun found roomNum =>
       currentRoom <- found ;;
       isStart <- strcmp0_ptr "roomType" (roomType (roomAt roomArr roomNum))
                    "START_ROOM" ;;
       Ok (if isStart then Some roomNum else currentRoom))
    (seq 0 7) (Ok None).

(** The loop that prints the possible connections, up to the first null
    pointer or the end of the array. *)
Fixpoint showConnections (conns : list (option chars))
    : result (list string) :=
  match conns with
  | Some conn :: rest =>
      name <- deref "roomConnections" (Some conn) ;;
      more <- showConnections rest ;;
      Ok ((" " ++ name)%string
          :: match rest with
             | Some _ :: _ => ","
             | _ => "."
             end
          :: more)
  | _ => Ok []
  end.

Definition locationLine (name : string) : string :=
  "CURRENT LOCATION: " ++ name ++ newline.

(** What is printed before the prompt, unless the last input was "time". *)
Definition showRoom (r : room) : result (list string) :=
  name <- deref "roomName" (roomName r) ;;
  connections <- showConnections (firstn 6 (roomConnections r)) ;;
  Ok ([locationLine name; "POSSIBLE CONNECTIONS:"]
      ++ connections ++ [newline])%list.

(** [fgets(buffer, sizeof(buffer), stdin)] into the zeroed [buffer[256]],
    [strcpy(userInputRoom, buffer)] into [char userInputRoom[10]], then
    [userInputRoom[strlen(userInputRoom) - 1] = 0]: the C string in
    [buffer] without its last character, and the rest of [stdin]. *)
Definition readInput (input : string) : result (string * string) :=
  let (buffer, rest) :=
    match fgets 256 input with
    | Some (buffer, rest) => (buffer, rest)
    | None => ("", input)
    end in
  if (10 <=? strlen buffer)%nat
  then Fault (BufferOverflow "userInputRoom")
  else if (strlen buffer =? 0)%nat
  then Fault (IndexOutOfBounds "userInputRoom" (-1))
  else Ok (substring 0 (strlen buffer - 1) (cstring buffer), rest).

(** The inner loop over [roomArr]: every room with the name typed becomes
    the current room, counts a step and is appended to the path. *)
Definition enterRoom (roomArr : list room) (input : string)
    (st : nat * bool * nat * list string)
    : result (nat * bool * nat * list string) :=
  fold_left
    (fun acc roomNum =>
       '(currentRoom, roomFound, stepCount, visitedRooms) <- acc ;;
       same <- strcmp0_ptr "roomName" (roomName (roomAt roomArr roomNum))
                 input ;;
       if same
       then Ok (roomNum, true, S stepCount, (visitedRooms ++ [input])%list)
       else Ok (currentRoom, roomFound, stepCount, visitedRooms))
    (seq 0 7) (Ok st).

(** The loop over the connections of the current room: it stops at the
    first null pointer and after the first connection that matches. *)
Fixpoint matchConnection (roomArr : list room) (conns : list (option chars))
    (input : string) (st : nat * bool * nat * list string)
    : result (nat * bool * nat * list string) :=
  match conns with
  | Some conn :: rest =>
      same <- strcmpBuffer "roomConnections" conn input ;;
      if same then enterRoom roomArr input st
      else matchConnection roomArr rest input st
  | _ => Ok st
  end.

Definition apology : string :=
  "HUH? I DON’T UNDERSTAND THAT ROOM. TRY AGAIN." ++ newline ++ newline.

Definition congratulations : string :=
  "YOU HAVE FOUND THE END ROOM. CONGRATULATIONS!" ++ newline.

Definition stepsLine (stepCount : nat) : string :=
  "YOU TOOK " ++ BuildRooms.decimal stepCount
  ++ " STEPS. YOUR PATH TO VICTORY WAS:" ++ newline.

Definition pathLine (name : string) : string := name ++ newline.

(** The win message: the step count, then [visitedRooms[0 .. stepCount-1]]
    one per line. *)
Definition victory (stepCount : nat) (visitedRooms : list string)
    : list string :=
  ([congratulations; stepsLine stepCount]
   ++ map pathLine (firstn stepCount visitedRooms))%list.

(** What [timeProcessing] prints when the worker has written [timeString]
    to the time file: the first line of the file and a newline. *)
Definition readTimeFile (timeFile : string) : list string :=
  [(match fgets 80 timeFile with
    | Some (lineRead, _) => cstring lineRead
    | None => ""
    end ++ newline)%string].

(** One iteration of the [while] loop of [runGameDriver]; [times k] is the
    string [strftime] formats at the [k]-th call of [time()]. *)
Definition gameStep (times : nat -> string) (roomArr : list room) (st : game)
    : result (game * status) :=
  let here := roomAt roomArr (currentRoom st) in
  shown <- (if strcmp0 (userInputRoom st) "time" then Ok []
            else showRoom here) ;;
  '(input, rest) <- readInput (stdin st) ;;
  '(currentRoom', roomFound, stepCount', visitedRooms') <-
    matchConnection roomArr (firstn 6 (roomConnections here)) input
      (currentRoom st, false, stepCount st, visitedRooms st) ;;
  let printed := (stdout st ++ shown ++ ["WHERE TO? >"; newline])%list in
  let st' out calls :=
    {| currentRoom := currentRoom'; stepCount := stepCount';
       userInputRoom := input; visitedRooms := visitedRooms';
       stdin := rest; stdout := (printed ++ out)%list;
       timeCalls := calls |} in
  if negb roomFound && strcmp0 input "time" then
    Ok (st' (readTimeFile (times (timeCalls st))) (S (timeCalls st)), Playing)
  else if negb roomFound then
    Ok (st' [apology] (timeCalls st), Playing)
  else
    atEnd <- strcmp0_ptr "roomType" (roomType (roomAt roomArr currentRoom'))
               "END_ROOM" ;;
    if atEnd
    then Ok (st' (victory stepCount' visitedRooms') (timeCalls st), Won)
    else Ok (st' [] (timeCalls st), Playing).

Fixpoint gameLoop (fuel : nat) (times : nat -> string) (roomArr : list room)
    (st : game) : result game :=
  match fuel with
  | O => Fault OutOfFuel
  | S fuel' =>
      atEnd <- strcmp0_ptr "roomType"
                 (roomType (roomAt roomArr (currentRoom st))) "END_ROOM" ;;
      if atEnd then Ok st
      else
        '(st', outcome) <- gameStep times roomArr st ;;
        match outcome with
        | Won => Ok st'
        | Playing => gameLoop fuel' times roomArr st'
        end
  end.

(** [runGameDriver] on the rooms loaded and the bytes waiting on [stdin];
    every iteration takes at least one of them. *)
Definition runGameDriver (times : nat -> string) (roomArr : list room)
    (input : string) : result game :=
  start <- findStart roomArr ;;
  match start with
  | None => Fault (Uninitialized "currentRoom")
  | Some roomNum =>
      gameLoop (S (String.length input)) times roomArr
        {| currentRoom := roomNum; stepCount := 0; userInputRoom := "";
           visitedRooms := []; stdin := input; stdout := [];
           timeCalls := 0 |}
  end.

(** ** What the claims say about a session *)

Fixpoint hasNewline (s : string) : bool :=
  match s with
  | EmptyString => false
  | String c rest => Ascii.eqb c "010" || hasNewline rest
  end.

(** [s] holds no NUL byte. *)
Definition noNul (s : string) : Prop := cstring s = s.

(** A name that can be typed at the prompt: one line of text, and with its
    newline and terminator within the ten bytes of [userInputRoom]. *)
Definition typedName (name : string) : Prop :=
  (String.length name <= 8)%nat /\ hasNewline name = false /\ noNul name.

(** The input that types the names one per line. *)
Fixpoint typedLines (names : list string) (rest : string) : string :=
  match names with
  | [] => rest
  | name :: names' => name ++ newline ++ typedLines names' rest
  end.

(** A pointer that is null or points to a C string. *)
Definition terminated (p : option chars) : Prop :=
  match p with
  | Some (Unterminated _) => False
  | _ => True
  end.

(** All seven rooms were read from their files: each has its name and its
    type, and its strings have their terminators. *)
Definition roomsLoaded (roomArr : list room) : Prop :=
  forall roomNum, (roomNum < 7)%nat ->
    (exists name, roomName (roomAt roomArr roomNum) = text name) /\
    (exists type, roomType (roomAt roomArr roomNum) = text type) /\
    Forall terminated (roomConnections (roomAt roomArr roomNum)).

(** [roomNum] is the one room called [name]. *)
Definition roomCalled (roomArr : list room) (name : string) (roomNum : nat)
    : Prop :=
  (roomNum < 7)%nat /\
  forall other, (other < 7)%nat ->
    (roomName (roomAt roomArr other) = text name <-> other = roomNum).

(** [name] is among the connections of room [roomNum]. *)
Definition connectsTo (roomArr : list room) (roomNum : nat) (name : string)
    : Prop :=
  In name
    (connectionNames (firstn 6 (roomConnections (roomAt roomArr roomNum)))).

Definition isEndRoom (roomArr : list room) (roomNum : nat) : Prop :=
  roomType (roomAt roomArr roomNum) = text "END_ROOM".

(** A sequence of valid connection names that leads from room [from] to
    the end room [dest], which it reaches with its last name only. *)
Inductive leadsTo (roomArr : list room) : nat -> list string -> nat -> Prop :=
| leads_last (from dest : nat) (name : string) :
    typedName name -> connectsTo roomArr from name ->
    roomCalled roomArr name dest -> isEndRoom roomArr dest ->
    leadsTo roomArr from [name] dest
| leads_move (from next dest : nat) (name : string) (names : list string) :
    typedName name -> connectsTo roomArr from name ->
    roomCalled roomArr name next -> ~ isEndRoom roomArr next ->
    leadsTo roomArr next names dest ->
    leadsTo roomArr from (name :: names) dest.

(** The same for rooms that carry different names of the pool, where every
    name can be typed and names one room: each name is a connection of the
    room reached so far and the name of the room it leads to, and only the
    last of these rooms is the end room. *)
Inductive validPath (roomArr : list room) : nat -> list string -> nat -> Prop :=
| path_last (from dest : nat) (name : string) :
    connectsTo roomArr from name -> (dest < 7)%nat ->
    roomName (roomAt roomArr dest) = text name -> isEndRoom roomArr dest ->
    validPath roomArr from [name] dest
| path_move (from next dest : nat) (name : string) (names : list string) :
    connectsTo roomArr from name -> (next < 7)%nat ->
    roomName (roomAt roomArr next) = text name ->
    ~ isEndRoom roomArr next ->
    validPath roomArr next names dest ->
    validPath roomArr from (name :: names) dest.

(** ** The time hand-off between the two threads

    The calls of [timeProcessing] and [writeTimeFileThread] on the mutex,
    the thread and the time file, one transition each; the scheduler picks
    any thread that can move.  [pthread_mutex_lock] can move only when the
    mutex is free and [pthread_join] only when the thread it waits for has
    returned.  The calls are taken to succeed (each failure ends the
    process with [exit(1)]). *)

(** Where the main thread stands. *)
Inductive mainPoint : Type :=
| AtPrompt    (* in the loop of [runGameDriver], the mutex held *)
| Unlocking   (* [timeProcessing]: before [pthread_mutex_unlock] *)
| Creating    (* before [pthread_create] *)
| Joining     (* in [pthread_join] *)
| Relocking   (* before [pthread_mutex_lock] *)
| Reading.    (* before [readTimeFile] *)

(** Where a worker stands in [writeTimeFileThread]. *)
Inductive workerPoint : Type :=
| WorkerLocking     (* before [pthread_mutex_lock] *)
| WorkerOpening     (* before [fopen(fileName, "w")] *)
| WorkerWriting     (* before [time], [strftime], [fprintf], [fflush] *)
| WorkerClosing     (* before [fclose] *)
| WorkerUnlocking   (* before [pthread_mutex_unlock] *)
| WorkerReturned.   (* the thread function has returned *)

Inductive holder : Type := MainThread | WorkerThread.

(** The threads, the mutex, the time file and what was printed.
    [workers] holds the threads created and not yet joined, the newest
    last; [requests] and [spawned] count the time requests taken and the
    calls of [pthread_create]. *)
Record handoff : Type := {
  mainAt : mainPoint;
  workers : list workerPoint;
  mutex : option holder;
  timeFile : string;
  clock : nat;
  printed : list string;
  requests : nat;
  spawned : nat
}.

Definition handoffStart (timeFile : string) : handoff :=
  {| mainAt := AtPrompt; workers := []; mutex := Some MainThread;
     timeFile := timeFile; clock := 0; printed := [];
     requests := 0; spawned := 0 |}.

Definition alive (w : workerPoint) : bool :=
  match w with
  | WorkerReturned => false
  | _ => true
  end.

(** The worker threads that are running. *)
Definition aliveWorkers (s : handoff) : nat :=
  length (filter alive (workers s)).

Inductive handoffStep (times : nat -> string) : handoff -> handoff -> Prop :=
| step_other_command (s : handoff) :
    mainAt s = AtPrompt ->
    handoffStep times s s
| step_time_request (s : handoff) :
    mainAt s = AtPrompt ->
    handoffStep times s
      {| mainAt := Unlocking; workers := workers s; mutex := mutex s;
         timeFile := timeFile s; clock := clock s; printed := printed s;
         requests := S (requests s); spawned := spawned s |}
| step_main_unlock (s : handoff) :
    mainAt s = Unlocking -> mutex s = Some MainThread ->
    handoffStep times s
      {| mainAt := Creating; workers := workers s; mutex := None;
         timeFile := timeFile s; clock := clock s; printed := printed s;
         requests := requests s; spawned := spawned s |}
| step_main_create (s : handoff) :
    mainAt s = Creating ->
    handoffStep times s
      {| mainAt := Joining; workers := (workers s ++ [WorkerLocking])%list;
         mutex := mutex s; timeFile := timeFile s; clock := clock s;
         printed := printed s; requests := requests s;
         spawned := S (spawned s) |}
| step_main_join (s : handoff) (others : list workerPoint) :
    mainAt s = Joining -> workers s = (others ++ [WorkerReturned])%list ->
    handoffStep times s
      {| mainAt := Relocking; workers := others; mutex := mutex s;
         timeFile := timeFile s; clock := clock s; printed := printed s;
         requests := requests s; spawned := spawned s |}
| step_main_lock (s : handoff) :
    mainAt s = Relocking -> mutex s = None ->
    handoffStep times s
      {| mainAt := Reading; workers := workers s; mutex := Some MainThread;
         timeFile := timeFile s; clock := clock s; printed := printed s;
         requests := requests s; spawned := spawned s |}
| step_main_read (s : handoff) :
    mainAt s = Reading ->
    handoffStep times s
      {| mainAt := AtPrompt; workers := workers s; mutex := mutex s;
         timeFile := timeFile s; clock := clock s;
         printed := (printed s ++ readTimeFile (timeFile s))%list;
         requests := requests s; spawned := spawned s |}
| step_worker_lock (s : handoff) (before after : list workerPoint) :
    workers s = (before ++ WorkerLocking :: after)%list -> mutex s = None ->
    handoffStep times s
      {| mainAt := mainAt s; workers := (before ++ WorkerOpening :: after)%list;
         mutex := Some WorkerThread; timeFile := timeFile s;
         clock := clock s; printed := printed s; requests := requests s;
         spawned := spawned s |}
| step_worker_open (s : handoff) (before after : list workerPoint) :
    workers s = (before ++ WorkerOpening :: after)%list ->
    handoffStep times s
      {| mainAt := mainAt s; workers := (before ++ WorkerWriting :: after)%list;
         mutex := mutex s; timeFile := ""; clock := clock s;
         printed := printed s; requests := requests s;
         spawned := spawned s |}
| step_worker_write (s : handoff) (before after : list workerPoint) :
    workers s = (before ++ WorkerWriting :: after)%list ->
    handoffStep times s
      {| mainAt := mainAt s; workers := (before ++ WorkerClosing :: after)%list;
         mutex := mutex s; timeFile := times (clock s);
         clock := S (clock s); printed := printed s;
         requests := requests s; spawned := spawned s |}
| step_worker_close (s : handoff) (before after : list workerPoint) :
    workers s = (before ++ WorkerClosing :: after)%list ->
    handoffStep times s
      {| mainAt := mainAt s; workers := (before ++ WorkerUnlocking :: after)%list;
         mutex := mutex s; timeFile := timeFile s; clock := clock s;
         printed := printed s; requests := requests s;
         spawned := spawned s |}
| step_worker_unlock (s : handoff) (before after : list workerPoint) :
    workers s = (before ++ WorkerUnlocking :: after)%list ->
    mutex s = Some WorkerThread ->
    handoffStep times s
      {| mainAt := mainAt s; workers := (before ++ WorkerReturned :: after)%list;
         mutex := None; timeFile := timeFile s; clock := clock s;
         printed := printed s; requests := requests s;
         spawned := spawned s |}.

(** The states an execution can be in. *)
Inductive handoffReachable (times : nat -> string) (timeFile : string)
    : handoff -> Prop :=
| reach_start : handoffReachable times timeFile (handoffStart timeFile)
| reach_next (s s' : handoff) :
    handoffReachable times timeFile s -> handoffStep times s s' ->
    handoffReachable times timeFile s'.

(** The time file holds the line of the last completed write. *)
Definition fileWritten (times : nat -> string) (s : handoff) : Prop :=
  exists k, clock s = S k /\ timeFile s = times k.

(** What holds of every reachable state, by where the main thread is. *)
Definition handoffInvariant (times : nat -> string) (s : handoff) : Prop :=
  match mainAt s with
  | AtPrompt =>
      workers s = [] /\ mutex s = Some MainThread /\
      spawned s = requests s
  | Unlocking =>
      workers s = [] /\ mutex s = Some MainThread /\
      S (spawned s) = requests s
  | Creating =>
      workers s = [] /\ mutex s = None /\ S (spawned s) = requests s
  | Joining =>
      spawned s = requests s /\
      exists w, workers s = [w] /\
        match w with
        | WorkerLocking => mutex s = None
        | WorkerOpening | WorkerWriting => mutex s = Some WorkerThread
        | WorkerClosing | WorkerUnlocking =>
            mutex s = Some WorkerThread /\ fileWritten times s
        | WorkerReturned => mutex s = None /\ fileWritten times s
        end
  | Relocking =>
      workers s = [] /\ mutex s = None /\ spawned s = requests s /\
      fileWritten times s
  | Reading =>
      workers s = [] /\ mutex s = Some MainThread /\
      spawned s = requests s /\ fileWritten times s
  end.

(** ** Loading the rooms and the whole run *)

(** A file of the rooms directory as [readdir] and [fopen] see it: its
    name, and its content when it can be opened for reading. *)
Record dirFile : Type := {
  fileName : string;
  fileContent : option string
}.

(** [pathName] of [setRoomArray]. *)
Definition pathOf (dirName : string) (fileInDir : dirFile) : string :=
  dirName ++ "/" ++ fileName fileInDir.

(** The body of the [readdir] loop of [setRoomArray] on
    [(roomArr, arrIdx)]: the path is built in [pathName[256]] with no
    check, [fclose] is handed the null pointer when [fopen] failed, and
    [roomArr[arrIdx]] is written with no bound check. *)
Definition loadEntry (dirName : string) (st : list room * nat)
    (fileInDir : dirFile) : result (list room * nat) :=
  let (roomArr, arrIdx) := st in
  if strstr (fileName fileInDir) "_room" then
    if (256 <=? String.length (pathOf dirName fileInDir))%nat
    then Fault (BufferOverflow "pathName")
    else
      match fileContent fileInDir with
      | None => Fault (NullPointer "fPointer")
      | Some content =>
          roomObj <- readFile content ;;
          if (arrIdx <? length roomArr)%nat
          then Ok (upd arrIdx roomObj roomArr, S arrIdx)
          else Fault (IndexOutOfBounds "roomArr" (Z.of_nat arrIdx))
      end
  else Ok st.

(** [setRoomArray]: [directory] is what [readdir] returns in turn for
    [dirName], or [None] when [opendir] fails. *)
Definition setRoomArray (dirName : string)
    (directory : option (list dirFile)) (roomArr : list room)
    : result (list room) :=
  match directory with
  | Some files =>
      st <- fold_left
              (fun acc fileInDir =>
                 st <- acc ;; loadEntry dirName st fileInDir)
              files (Ok (roomArr, 0%nat)) ;;
      Ok (fst st)
  | None => Ok roomArr
  end.

(** [main]: [entries] is the current directory as [mostRecentRooms] sees
    it and [directory name] the directory called [name] as [setRoomArray]
    sees it.  The calls of [free] that follow [runGameDriver] release what
    [readFile] allocated and print nothing. *)
Definition main (entries : option (list dirEntry))
    (directory : string -> option (list dirFile)) (times : nat -> string)
    (input : string) : result game :=
  dirName <- mostRecentRooms entries ;;
  roomArr <- setRoomArray dirName (directory dirName)
               (repeat initializeData 7) ;;
  runGameDriver times roomArr input.

(** ** What the other properties say *)

(** The entries [setRoomArray] takes for room files. *)
Definition roomEntries (files : list dirFile) : list dirFile :=
  filter (fun fileInDir => strstr (fileName fileInDir) "_room") files.

(** The directory holds the room files [written] (path and content), each
    readable, and no other file with [_room] in its name. *)
Definition holdsRoomFiles (dirName : string) (files : list dirFile)
    (written : list BuildRooms.roomFile) : Prop :=
  Permutation
    (map (fun fileInDir => (pathOf dirName fileInDir, fileContent fileInDir))
         (roomEntries files))
    (map (fun f : BuildRooms.roomFile => (fst f, Some (snd f))) written).

(** The name of room [roomNum]. *)
Definition nameOf (roomArr : list room) (roomNum : nat) : string :=
  match roomName (roomAt roomArr roomNum) with
  | Some (Text name) => name
  | _ => ""
  end.

(** The connections of room [roomNum] as the game loop walks them. *)
Definition connectionsAt (roomArr : list room) (roomNum : nat) : list string :=
  connectionNames (firstn 6 (roomConnections (roomAt roomArr roomNum))).

(** The room [setRoomArray] stores for an entry it can read. *)
Definition roomRead (content : option string) : room :=
  match content with
  | Some bytes =>
      match readFile bytes with
      | Ok roomObj => roomObj
      | Fault _ => initializeData
      end
  | None => initializeData
  end.

(** The room in the file the graph builder writes for [fileNum]. *)
Definition builtRoom (selectedRooms : list string)
    (roomGraph : BuildRooms.graph) (roomTypes : list Z) (fileNum : nat)
    : room :=
  roomOfRecord
    (BuildRooms.recordOf selectedRooms roomGraph fileNum
       (nth fileNum roomTypes 0%Z)).

(** The seven rooms of a game the graph builder made, as the runner holds
    them: all loaded, with different names of the pool; one START_ROOM,
    one END_ROOM and five MID_ROOMs; each with 3 to 6 different
    connections, all of them names of other rooms; connections go both
    ways, and every room is at most two connections from every other. *)
Definition wellBuilt (roomArr : list room) : Prop :=
  roomsLoaded roomArr /\
  (forall i, (i < 7)%nat ->
     In (nameOf roomArr i) BuildRooms.rooms /\
     roomCalled roomArr (nameOf roomArr i) i) /\
  (exists start finish,
     (start < 7)%nat /\ (finish < 7)%nat /\ start <> finish /\
     forall i, (i < 7)%nat ->
       roomType (roomAt roomArr i)
       = text (if (i =? start)%nat then "START_ROOM"
               else if (i =? finish)%nat then "END_ROOM"
               else "MID_ROOM")) /\
  (forall i, (i < 7)%nat ->
     (3 <= length (connectionsAt roomArr i) <= 6)%nat /\
     NoDup (connectionsAt roomArr i) /\
     forall name, connectsTo roomArr i name ->
       exists j, (j < 7)%nat /\ j <> i /\ name = nameOf roomArr j) /\
  (forall i j, (i < 7)%nat -> (j < 7)%nat ->
     connectsTo roomArr i (nameOf roomArr j) ->
     connectsTo roomArr j (nameOf roomArr i)) /\
  (forall i j, (i < 7)%nat -> (j < 7)%nat -> i <> j ->
     connectsTo roomArr i (nameOf roomArr j) \/
     exists k, (k < 7)%nat /\ connectsTo roomArr i (nameOf roomArr k) /\
               connectsTo roomArr k (nameOf roomArr j)).

(** What the time requests have printed when [n] of them are done. *)
Definition timeLines (times : nat -> string) (n : nat) : list string :=
  flat_map (fun k => readTimeFile (times k)) (seq 0 n).

(** ** A sample run directory

    Seven rooms as [readFile] loads them from the files of one run of the
    graph builder. *)

Definition sampleRooms : list room :=
  [ {| roomName := text "Dungeon"; roomType := text "START_ROOM";
       roomConnections :=
         [text "Barracks"; text "Garden"; text "Kitchen"; None; None; None] |};
    {| roomName := text "Barracks"; roomType := text "MID_ROOM";
       roomConnections :=
         [text "Dungeon"; text "Garden"; text "Kitchen"; None; None; None] |};
    {| roomName := text "Garden"; roomType := text "END_ROOM";
       roomConnections :=
         [text "Dungeon"; text "Barracks"; text "Game"; text "Medical";
          None; None] |};
    {| roomName := text "Game"; roomType := text "MID_ROOM";
       roomConnections :=
         [text "Garden"; text "Medical"; text "Corridor"; None; None; None] |};
    {| roomName := text "Medical"; roomType := text "MID_ROOM";
       roomConnections :=
         [text "Garden"; text "Game"; text "Corridor"; None; None; None] |};
    {| roomName := text "Corridor"; roomType := text "MID_ROOM";
       roomConnections :=
         [text "Game"; text "Medical"; text "Kitchen"; None; None; None] |};
    {| roomName := text "Kitchen"; roomType := text "MID_ROOM";
       roomConnections :=
         [text "Dungeon"; text "Barracks"; text "Corridor"; None; None;
          None] |} ].

Definition sampleTimes : nat -> string :=
  fun _ => " 3:14pm, Friday, October 30, 2026" ++ newline.

(** Names separated by a comma and a space. *)
Fixpoint commaList (names : list string) : string :=
  match names with
  | [] => ""
  | [name] => name
  | name :: rest => name ++ ", " ++ commaList rest
  end.

(** What the clock and the output are at each point of the main thread:
    [clock] counts the calls of [time()], one per request that has been
    written, and [printed] holds the lines of the requests that have been
    read. *)
Definition handoffOutput (times : nat -> string) (s : handoff) : Prop :=
  match mainAt s with
  | AtPrompt =>
      clock s = requests s /\ printed s = timeLines times (requests s)
  | Unlocking | Creating =>
      S (clock s) = requests s /\ printed s = timeLines times (clock s)
  | Joining =>
      match workers s with
      | [WorkerLocking] | [WorkerOpening] | [WorkerWriting] =>
          S (clock s) = requests s /\ printed s = timeLines times (clock s)
      | _ =>
          clock s = requests s /\
          printed s = timeLines times (clock s - 1)
      end
  | Relocking | Reading =>
      clock s = requests s /\ printed s = timeLines times (clock s - 1)
  end.

(** ** A sample builder run and its directory *)

(** A run of the graph builder as process 4242, with the values
    0, 1, 2, ... for [rand()] before and after [srand]. *)
Definition sampleBuild
    : BuildRooms.outcome (string * list BuildRooms.roomFile) :=
  BuildRooms.main 30 (fun n => n) (fun n => n) 4242 (fun _ => true).

(** The directory that run leaves, as [readdir] lists it: [.], [..] and
    the room files under the names they were created with. *)
Definition sampleDirectory : list dirFile :=
  match sampleBuild with
  | BuildRooms.Done (dirName, written) =>
      {| fileName := "."; fileContent := None |}
      :: {| fileName := ".."; fileContent := None |}
      :: map (fun f : BuildRooms.roomFile =>
                {| fileName :=
                     substring (S (String.length dirName))
                       (String.length (fst f) - S (String.length dirName))
                       (fst f);
                   fileContent := Some (snd f) |})
             written
  | _ => []
  end.

(** The current directory with that rooms directory and an older one. *)
Definition sampleEntries : list dirEntry :=
  [ {| d_name := "."; st_mtime := 1793372000 |};
    {| d_name := "trompj.rooms.977"; st_mtime := 1793370000 |};
    {| d_name := "trompj.rooms.4242"; st_mtime := 1793372000 |};
    {| d_name := "trompj.adventure.c"; st_mtime := 1793379000 |} ].

Definition sampleFiles (name : string) : option (list dirFile) :=
  if String.eqb name "trompj.rooms.4242" then Some sampleDirectory else None.

End Adventure.

(** * Facts about strings *)

Section StringFacts.
Local Open Scope string_scope.

Lemma append_assoc (a b c : string) : (a ++ b) ++ c = a ++ b ++ c.
Proof. induction a as [|x a IH]; cbn; [reflexivity | rewrite IH; reflexivity]. Qed.

Lemma append_nil_r (a : string) : a ++ "" = a.
Proof. induction a as [|x a IH]; cbn; [reflexivity | rewrite IH; reflexivity]. Qed.

Lemma length_append (a b : string) :
  String.length (a ++ b) = (String.length a + String.length b)%nat.
Proof. induction a as [|x a IH]; cbn; [reflexivity | rewrite IH; reflexivity]. Qed.

Lemma substring_prefix (a b : string) :
  substring 0 (String.length a) (a ++ b) = a.
Proof.
  induction a as [|x a IH]; cbn.
  - destruct b; reflexivity.
  - rewrite IH. reflexivity.
Qed.

Lemma readChars_line (body rest : string) (n : nat) :
  Adventure.hasNewline body = false -> (String.length body < n)%nat ->
  Adventure.readChars n (body ++ Adventure.newline ++ rest)
  = (body ++ Adventure.newline, rest).
Proof.
  revert n. induction body as [|c body IH]; intros n Hnl Hlen.
  - destruct n as [|n]; [cbn in Hlen; lia|]. reflexivity.
  - destruct n as [|n]; [cbn in Hlen; lia|].
    cbn [Adventure.hasNewline] in Hnl. apply orb_false_elim in Hnl as [Hc Hnl].
    cbn [append Adventure.readChars]. rewrite Hc.
    rewrite IH by (auto; cbn in Hlen; lia). reflexivity.
Qed.

(** ** C strings *)

Lemma cstring_append (a b : string) :
  Adventure.noNul a -> Adventure.cstring (a ++ b) = a ++ Adventure.cstring b.
Proof.
  unfold Adventure.noNul. induction a as [|c a IH]; cbn [append Adventure.cstring];
    [reflexivity|].
  destruct (Ascii.eqb c "000"); [discriminate|].
  intros H. injection H as H. rewrite IH by exact H. reflexivity.
Qed.

Lemma cstring_noNul (a : string) : Adventure.noNul (Adventure.cstring a).
Proof.
  unfold Adventure.noNul. induction a as [|c a IH]; cbn [Adventure.cstring];
    [reflexivity|].
  destruct (Ascii.eqb c "000") eqn:E; [reflexivity|].
  cbn [Adventure.cstring]. rewrite E, IH. reflexivity.
Qed.

Lemma cstring_line (a : string) :
  Adventure.noNul a ->
  Adventure.cstring (a ++ Adventure.newline) = a ++ Adventure.newline.
Proof. intros H. rewrite cstring_append by exact H. reflexivity. Qed.

Lemma cstring_length (a : string) :
  (String.length (Adventure.cstring a) <= String.length a)%nat.
Proof.
  induction a as [|c a IH]; cbn [Adventure.cstring String.length]; [lia|].
  destruct (Ascii.eqb c "000"); cbn [String.length]; lia.
Qed.

End StringFacts.

(** * Facts about arrays *)

Lemma upd_length {A : Type} (n : nat) (v : A) (l : list A) :
  length (upd n v l) = length l.
Proof.
  revert n; induction l as [|x t IH]; intros [|m]; simpl; auto.
Qed.

Lemma nth_upd_same {A : Type} (n : nat) (v d : A) (l : list A) :
  (n < length l)%nat -> nth n (upd n v l) d = v.
Proof.
  revert n; induction l as [|x t IH]; intros [|m] H; simpl in *;
    try lia; auto.
  apply IH; lia.
Qed.

Lemma nth_upd_other {A : Type} (n m : nat) (v d : A) (l : list A) :
  n <> m -> nth m (upd n v l) d = nth m l d.
Proof.
  revert n m; induction l as [|x t IH]; intros [|n] [|m] H; simpl;
    try congruence; auto.
Qed.

Lemma recurring_id (k : nat) : recurring k (fun n => n).
Proof.
  intros p v Hv. exists (v + p * k)%nat. split; [nia|].
  rewrite Nat.Div0.mod_add. apply Nat.mod_small; exact Hv.
Qed.

(** A counting loop is the length of a filter. *)
Lemma count_loop_filter (f : nat -> bool) (l : list nat) (c : Z) :
  fold_left (fun n i => if f i then (n + 1)%Z else n) l c
  = (c + Z.of_nat (length (filter f l)))%Z.
Proof.
  revert c; induction l as [|i l IH]; intros c; simpl.
  - lia.
  - rewrite IH. destruct (f i); simpl; lia.
Qed.

Lemma filter_length_pointwise (f f' : nat -> bool) (l : list nat) :
  (forall i, In i l -> f' i = f i) ->
  length (filter f' l) = length (filter f l).
Proof.
  intros H. f_equal. apply filter_ext_in. exact H.
Qed.

(** Changing the test at one index changes the count by that index alone. *)
Lemma filter_length_change (f f' : nat -> bool) (l : list nat) (y : nat) :
  NoDup l -> In y l -> (forall i, i <> y -> f' i = f i) ->
  (Z.of_nat (length (filter f' l)) + Z.b2z (f y)
   = Z.of_nat (length (filter f l)) + Z.b2z (f' y))%Z.
Proof.
  intros Hnd Hin Hext. induction l as [|i l IH]; [destruct Hin|].
  inversion Hnd as [|? ? Hni Hnd']; subst.
  destruct Hin as [->|Hin].
  - assert (Hl : filter f' l = filter f l).
    { apply filter_ext_in. intros j Hj. apply Hext. intros ->. contradiction. }
    simpl. rewrite Hl. destruct (f y), (f' y); simpl length; simpl Z.b2z; lia.
  - specialize (IH Hnd' Hin). simpl.
    rewrite (Hext i) by (intros ->; contradiction).
    destruct (f i); simpl length; lia.
Qed.

(** Two distinct indices that fail the test leave at most [length - 2]. *)
Lemma filter_length_two_out (f : nat -> bool) (l : list nat) (a b : nat) :
  NoDup l -> In a l -> In b l -> a <> b -> f a = false -> f b = false ->
  (length (filter f l) + 2 <= length l)%nat.
Proof.
  intros Hnd Ha Hb Hab Hfa Hfb.
  pose proof (filter_length f l) as Hlen.
  assert (Hincl : incl [a; b] (filter (fun x => negb (f x)) l)).
  { intros x [<-|[<-|[]]]; apply filter_In; split; auto;
      [rewrite Hfa | rewrite Hfb]; reflexivity. }
  apply NoDup_incl_length in Hincl.
  - simpl in Hincl. lia.
  - constructor; [simpl; intuition congruence|].
    constructor; [simpl; tauto | constructor].
Qed.

(** When fewer than [length - 1] indices pass, some index other than [a]
    fails the test. *)
Lemma filter_length_other_out (f : nat -> bool) (l : list nat) (a : nat) :
  NoDup l -> (length (filter f l) + 2 <= length l)%nat ->
  exists b, In b l /\ b <> a /\ f b = false.
Proof.
  intros Hnd Hlen. pose proof (filter_length f l) as Hsum.
  assert (Hndo : NoDup (filter (fun x => negb (f x)) l))
    by (apply NoDup_filter; exact Hnd).
  assert (Hin : forall x, In x (filter (fun x => negb (f x)) l) ->
                          In x l /\ f x = false).
  { intros x Hx. apply filter_In in Hx as [? Hx]. split; auto.
    destruct (f x); [discriminate | reflexivity]. }
  destruct (filter (fun x => negb (f x)) l) as [|x [|y out]];
    simpl in Hsum; try lia.
  inversion Hndo as [|? ? Hxy _]; subst.
  destruct (Nat.eq_dec x a) as [->|Hx].
  - exists y. destruct (Hin y) as [? ?]; [simpl; auto|].
    repeat split; auto. intros ->. apply Hxy. left; reflexivity.
  - exists x. destruct (Hin x) as [? ?]; [simpl; auto|]. auto.
Qed.

(** * The generated graph *)

Module GraphProofs.
Import BuildRooms.
Local Open Scope Z_scope.
Local Arguments Nat.modulo : simpl never.
Local Arguments cell : simpl never.
Local Arguments countConnections : simpl never.
Local Arguments canAddConnectionFrom : simpl never.
Local Arguments connectionAlreadyExists : simpl never.
Local Arguments isGraphFull : simpl never.

Lemma countConnections_filter (g : graph) (x : nat) :
  countConnections g x = Z.of_nat (length (filter (isSet g x) (seq 0 7))).
Proof.
  unfold countConnections.
  rewrite (count_loop_filter (isSet g x)). lia.
Qed.

Lemma in_rooms (x : nat) : In x (seq 0 7) <-> (x < 7)%nat.
Proof. rewrite in_seq. lia. Qed.

Lemma rooms_cases (P : nat -> Prop) :
  P 0%nat -> P 1%nat -> P 2%nat -> P 3%nat -> P 4%nat -> P 5%nat ->
  P 6%nat -> forall x, (x < 7)%nat -> P x.
Proof.
  intros H0 H1 H2 H3 H4 H5 H6 x Hx.
  do 7 (destruct x as [|x]; [assumption|]). lia.
Qed.

(** ** Reading a cell after a write *)

Lemma cell_setCell (g : graph) (x y x' y' : nat) (v : Z) :
  wellShaped g -> (x < 7)%nat -> (y < 7)%nat ->
  cell (setCell g x y v) x' y'
  = if ((x' =? x) && (y' =? y))%nat then v else cell g x' y'.
Proof.
  intros [Hlen Hrows] Hx Hy. unfold cell, setCell.
  destruct (Nat.eqb_spec x' x) as [->|Hxx]; simpl.
  - rewrite nth_upd_same by lia.
    destruct (Nat.eqb_spec y' y) as [->|Hyy].
    + apply nth_upd_same. rewrite Hrows; lia.
    + apply nth_upd_other. congruence.
  - rewrite nth_upd_other by congruence. reflexivity.
Qed.

Lemma wellShaped_setCell (g : graph) (x y : nat) (v : Z) :
  wellShaped g -> wellShaped (setCell g x y v).
Proof.
  intros [Hlen Hrows]. unfold setCell. split.
  - rewrite upd_length. exact Hlen.
  - intros x' Hx'. destruct (Nat.eq_dec x x') as [<-|Hne].
    + rewrite nth_upd_same by lia. rewrite upd_length. auto.
    + rewrite nth_upd_other by exact Hne. auto.
Qed.

(** The matrix after [connectRoom(a, b); connectRoom(b, a)]. *)
Lemma cell_connect (g : graph) (a b x y : nat) :
  wellShaped g -> (a < 7)%nat -> (b < 7)%nat ->
  cell (connectRoom (connectRoom g a b) b a) x y
  = if ((x =? b) && (y =? a))%nat then Z.of_nat a
    else if ((x =? a) && (y =? b))%nat then Z.of_nat b
    else cell g x y.
Proof.
  intros Hg Ha Hb. unfold connectRoom.
  rewrite cell_setCell by (auto using wellShaped_setCell).
  rewrite cell_setCell by auto. reflexivity.
Qed.

Lemma wellShaped_connect (g : graph) (a b : nat) :
  wellShaped g -> wellShaped (connectRoom (connectRoom g a b) b a).
Proof. intros H. unfold connectRoom. auto using wellShaped_setCell. Qed.

(** ** The invariant *)

Lemma initializeGraph_cell (x y : nat) :
  (x < 7)%nat -> (y < 7)%nat -> cell initializeGraph x y = -1.
Proof.
  intros Hx Hy. revert y Hy. pattern x. apply rooms_cases; auto; clear.
  all: intros y Hy; pattern y; apply rooms_cases; auto; reflexivity.
Qed.

Lemma initializeGraph_invariant : graphInvariant initializeGraph.
Proof.
  constructor.
  - split; [reflexivity|]. intros x Hx. pattern x.
    apply rooms_cases; auto; reflexivity.
  - intros x y Hx Hy. left. apply initializeGraph_cell; auto.
  - intros x Hx. apply initializeGraph_cell; auto.
  - intros x y Hx Hy _. apply initializeGraph_cell; auto.
Qed.

Lemma connect_invariant (g : graph) (a b : nat) :
  graphInvariant g -> (a < 7)%nat -> (b < 7)%nat -> a <> b ->
  graphInvariant (connectRoom (connectRoom g a b) b a).
Proof.
  intros [Hs Hc Hd Hsym] Ha Hb Hab. constructor.
  - apply wellShaped_connect; exact Hs.
  - intros x y Hx Hy. rewrite cell_connect by auto.
    destruct (Nat.eqb_spec x b), (Nat.eqb_spec y a),
      (Nat.eqb_spec x a), (Nat.eqb_spec y b); simpl; subst; auto.
  - intros x Hx. rewrite cell_connect by auto.
    destruct (Nat.eqb_spec x b), (Nat.eqb_spec x a); simpl; subst;
      try congruence; auto.
  - intros x y Hx Hy. rewrite !cell_connect by auto.
    destruct (Nat.eqb_spec x b), (Nat.eqb_spec y a),
      (Nat.eqb_spec x a), (Nat.eqb_spec y b); simpl; subst;
      try congruence; try lia; auto.
Qed.

(** ** What the drawing loops return *)

Lemma mod7_room (r : nat) : (r mod 7 < 7)%nat.
Proof. apply Nat.mod_upper_bound. discriminate. Qed.

Lemma drawRoomA_some (fuel : nat) (rs : rand_stream) (g : graph)
    (pos roomA pos' : nat) :
  drawRoomA fuel rs g pos = Some (roomA, pos') ->
  (roomA < 7)%nat /\ canAddConnectionFrom g roomA = 1 /\ (pos < pos')%nat.
Proof.
  revert pos; induction fuel as [|fuel IH]; intros pos H;
    cbn [drawRoomA] in H.
  - discriminate.
  - destruct (Z.eqb_spec (canAddConnectionFrom g (rs pos mod 7)) 1) as [E|E].
    + inversion H; subst. repeat split; auto using mod7_room.
    + apply IH in H. destruct H as (?&?&?); repeat split; try assumption; lia.
Qed.

Lemma drawRoomB_some (fuel : nat) (rs : rand_stream) (g : graph)
    (roomA pos roomB pos' : nat) :
  drawRoomB fuel rs g roomA pos = Some (roomB, pos') ->
  (roomB < 7)%nat /\ canAddConnectionFrom g roomB <> 0 /\ roomA <> roomB /\
  connectionAlreadyExists g roomA roomB <> 1 /\ (pos < pos')%nat.
Proof.
  revert pos; induction fuel as [|fuel IH]; intros pos H;
    cbn [drawRoomB] in H.
  - discriminate.
  - destruct (Z.eqb_spec (canAddConnectionFrom g (rs pos mod 7)) 0) as [E0|E0];
      cbn [orb] in H; [apply IH in H; destruct H as (?&?&?&?&?); repeat split; try assumption; lia|].
    unfold isSameRoom in H.
    destruct (Nat.eqb_spec roomA (rs pos mod 7)) as [E1|E1];
      cbn [orb Z.eqb Pos.eqb] in H; [apply IH in H; destruct H as (?&?&?&?&?); repeat split; try assumption; lia|].
    destruct (Z.eqb_spec (connectionAlreadyExists g roomA (rs pos mod 7)) 1)
      as [E2|E2]; [apply IH in H; destruct H as (?&?&?&?&?); repeat split; try assumption; lia|].
    inversion H; subst. repeat split; auto using mod7_room.
Qed.

Lemma addRandomConnection_invariant (fuel : nat) (rs : rand_stream)
    (g g' : graph) (pos pos' : nat) :
  graphInvariant g -> addRandomConnection fuel rs g pos = Some (g', pos') ->
  graphInvariant g'.
Proof.
  intros Hg H. unfold addRandomConnection in H.
  destruct (drawRoomA fuel rs g pos) as [[a p1]|] eqn:EA; [|discriminate].
  destruct (drawRoomB fuel rs g a p1) as [[b p2]|] eqn:EB; [|discriminate].
  inversion H; subst.
  apply drawRoomA_some in EA. apply drawRoomB_some in EB.
  apply connect_invariant; intuition.
Qed.

Lemma reachable_invariant (g : graph) : reachable g -> graphInvariant g.
Proof.
  induction 1; eauto using initializeGraph_invariant,
    addRandomConnection_invariant.
Qed.

Lemma generationLoop_invariant (fuel : nat) (rs : rand_stream)
    (g g' : graph) (pos pos' : nat) :
  graphInvariant g -> generationLoop fuel rs g pos = Some (g', pos') ->
  graphInvariant g' /\ isGraphFull g' <> 0.
Proof.
  revert g pos. induction fuel as [|fuel IH]; intros g pos Hg H;
    cbn [generationLoop] in H.
  - destruct (Z.eqb_spec (isGraphFull g) 0); [discriminate|].
    inversion H; subst; auto.
  - destruct (Z.eqb_spec (isGraphFull g) 0).
    + destruct (addRandomConnection (S fuel) rs g pos) as [[g1 p1]|] eqn:E;
        [|discriminate].
      eapply IH; [|exact H]. eapply addRandomConnection_invariant; eauto.
    + inversion H; subst; auto.
Qed.

(** ** Degrees *)

Lemma isGraphFull_degrees (g : graph) :
  isGraphFull g <> 0 -> forall x, (x < 7)%nat -> 3 <= countConnections g x.
Proof.
  unfold isGraphFull. cbn [seq map fold_left nth].
  intros H. apply rooms_cases.
  all: repeat match type of H with
         | context [if ?c <? 3 then _ else _] =>
             destruct (Z.ltb_spec c 3); try congruence
         end; lia.
Qed.

Lemma degrees_isGraphFull (g : graph) :
  (forall x, (x < 7)%nat -> 3 <= countConnections g x) -> isGraphFull g = 1.
Proof.
  intros H. unfold isGraphFull. cbn [seq map fold_left nth].
  repeat match goal with
         | |- context [if ?c <? 3 then _ else _] =>
             destruct (Z.ltb_spec c 3)
         end; try reflexivity.
  all: exfalso;
    repeat match goal with
           | Hc : countConnections _ ?x < 3 |- _ =>
               specialize (H x ltac:(lia)); lia
           end.
Qed.

Lemma countConnections_le6 (g : graph) (x : nat) :
  graphInvariant g -> (x < 7)%nat -> countConnections g x <= 6.
Proof.
  intros Hg Hx. rewrite countConnections_filter.
  pose proof (filter_length (isSet g x) (seq 0 7)) as Hsum.
  rewrite length_seq in Hsum.
  assert (Hin : In x (filter (fun y => negb (isSet g x y)) (seq 0 7))).
  { apply filter_In. split; [apply in_rooms; exact Hx|].
    unfold isSet. rewrite (inv_diag g Hg x Hx). reflexivity. }
  destruct (filter (fun y => negb (isSet g x y)) (seq 0 7));
    [destruct Hin|]. cbn [length] in Hsum. lia.
Qed.

Lemma connectionsOf_NoDup (g : graph) (x : nat) :
  graphInvariant g -> (x < 7)%nat -> NoDup (connectionsOf g x).
Proof.
  intros Hg Hx. unfold connectionsOf. cbn [seq flat_map].
  repeat match goal with
         | |- context [negb (cell g x ?y =? -1)] =>
             let E := fresh "E" in
             destruct (inv_cells g Hg x y Hx ltac:(lia)) as [E|E];
             rewrite E; cbn [Z.of_nat Pos.of_succ_nat Pos.succ Z.eqb negb Pos.eqb]
         end.
  all: cbn [app]; repeat constructor; simpl; intuition discriminate.
Qed.

(** ** [connectionAlreadyExists] on a matrix that satisfies the invariant *)

Lemma scanRoomB_skip (g : graph) (a b idxA : nat) (l : list nat) (c : Z) :
  (cell g a idxA =? Z.of_nat b) && negb (cell g a idxA =? -1) = false ->
  scanRoomB g a b idxA l c = c.
Proof.
  intros H. induction l as [|idxB l IH]; cbn [scanRoomB]; [reflexivity|].
  rewrite H. cbn [andb]. exact IH.
Qed.

Lemma scanRoomB_keeps (g : graph) (a b idxA : nat) (l : list nat) :
  scanRoomB g a b idxA l 1 = 1.
Proof.
  induction l as [|idxB l IH]; cbn [scanRoomB]; [reflexivity|].
  rewrite IH. repeat match goal with |- context [if ?c then _ else _] =>
    destruct c end; reflexivity.
Qed.

Lemma scanRoomB_hit (g : graph) (a b : nat) (l : list nat) (c : Z) :
  cell g a b = Z.of_nat b -> cell g b a = Z.of_nat a -> In a l ->
  scanRoomB g a b b l c = 1.
Proof.
  intros Hab Hba Hin. induction l as [|idxB l IH]; [destruct Hin|].
  cbn [scanRoomB]. rewrite Hab, Z.eqb_refl.
  replace (Z.of_nat b =? -1) with false by (symmetry; apply Z.eqb_neq; lia).
  cbn [andb negb].
  destruct Hin as [->|Hin].
  - rewrite Hba, Z.eqb_refl.
    replace (Z.of_nat a =? -1) with false by (symmetry; apply Z.eqb_neq; lia).
    reflexivity.
  - rewrite (IH Hin).
    repeat match goal with |- context [if ?c then _ else _] =>
      destruct c end; reflexivity.
Qed.

Lemma scan_all_skip (g : graph) (a b : nat) (l l' : list nat) (c : Z) :
  (forall idxA, In idxA l ->
     (cell g a idxA =? Z.of_nat b) && negb (cell g a idxA =? -1) = false) ->
  fold_left (fun connExists idxA => scanRoomB g a b idxA l' connExists) l c
  = c.
Proof.
  revert c. induction l as [|idxA l IH]; intros c Hskip;
    cbn [fold_left]; [reflexivity|].
  rewrite scanRoomB_skip by (apply Hskip; left; reflexivity).
  apply IH. intros i Hi. apply Hskip. right; exact Hi.
Qed.

Lemma connectionAlreadyExists_unset (g : graph) (a b : nat) :
  graphInvariant g -> (a < 7)%nat -> (b < 7)%nat -> cell g a b = -1 ->
  connectionAlreadyExists g a b = 0.
Proof.
  intros Hg Ha Hb Hab. unfold connectionAlreadyExists.
  assert (Hskip : forall idxA, In idxA (seq 0 7) ->
            (cell g a idxA =? Z.of_nat b) && negb (cell g a idxA =? -1)
            = false).
  { intros idxA Hin. apply in_rooms in Hin.
    destruct (inv_cells g Hg a idxA Ha Hin) as [E|E]; rewrite E.
    - apply andb_false_r.
    - destruct (Z.eqb_spec (Z.of_nat idxA) (Z.of_nat b)) as [E'|E'];
        [|reflexivity].
      apply Nat2Z.inj in E'. subst idxA. lia. }
  apply scan_all_skip. exact Hskip.
Qed.

Lemma scan_keeps (g : graph) (a b : nat) (l l' : list nat) :
  fold_left (fun connExists idxA => scanRoomB g a b idxA l' connExists) l 1
  = 1.
Proof.
  induction l as [|i l IH]; cbn [fold_left]; [reflexivity|].
  rewrite scanRoomB_keeps. exact IH.
Qed.

Lemma scan_hit (g : graph) (a b : nat) (l l' : list nat) (c : Z) :
  cell g a b = Z.of_nat b -> cell g b a = Z.of_nat a ->
  In a l' -> In b l ->
  fold_left (fun connExists idxA => scanRoomB g a b idxA l' connExists) l c
  = 1.
Proof.
  intros Hab Hba Ha. revert c.
  induction l as [|i l IH]; intros c Hb; [destruct Hb|].
  cbn [fold_left]. destruct (Nat.eq_dec i b) as [->|Hne].
  - rewrite scanRoomB_hit by assumption. apply scan_keeps.
  - apply IH. destruct Hb; [contradiction | assumption].
Qed.

Lemma connectionAlreadyExists_set (g : graph) (a b : nat) :
  graphInvariant g -> (a < 7)%nat -> (b < 7)%nat -> cell g a b <> -1 ->
  connectionAlreadyExists g a b = 1.
Proof.
  intros Hg Ha Hb Hab. unfold connectionAlreadyExists.
  assert (Eab : cell g a b = Z.of_nat b)
    by (destruct (inv_cells g Hg a b Ha Hb); congruence).
  assert (Eba : cell g b a = Z.of_nat a).
  { destruct (inv_cells g Hg b a Hb Ha) as [E|E]; [|exact E].
    apply (inv_sym g Hg) in E; auto. congruence. }
  apply scan_hit; auto; apply in_rooms; assumption.
Qed.

(** ** Drawing an acceptable edge *)

Lemma canAdd_below6 (g : graph) (x : nat) :
  canAddConnectionFrom g x = 1 <-> countConnections g x < 6.
Proof.
  unfold canAddConnectionFrom.
  destruct (Z.ltb_spec (countConnections g x) 6); split; intros; try lia;
    try reflexivity; discriminate.
Qed.

Lemma canAdd_flag (g : graph) (x : nat) :
  canAddConnectionFrom g x <> 0 <-> canAddConnectionFrom g x = 1.
Proof.
  unfold canAddConnectionFrom.
  destruct (countConnections g x <? 6); split; intros; congruence.
Qed.

Lemma isSet_unset (g : graph) (x y : nat) :
  isSet g x y = false <-> cell g x y = -1.
Proof.
  unfold isSet. destruct (Z.eqb_spec (cell g x y) (-1)); split; intros;
    try reflexivity; try assumption; try discriminate; contradiction.
Qed.

(** A room below six connections always has a partner the second drawing
    loop accepts. *)
Lemma acceptable_partner (g : graph) (a : nat) :
  graphInvariant g -> (a < 7)%nat -> countConnections g a < 6 ->
  exists b, acceptable g a b.
Proof.
  intros Hg Ha Hdeg.
  destruct (filter_length_other_out (isSet g a) (seq 0 7) a)
    as (b & Hin & Hne & Hb).
  - apply seq_NoDup.
  - rewrite countConnections_filter in Hdeg. rewrite length_seq. lia.
  - apply in_rooms in Hin. apply isSet_unset in Hb.
    exists b. repeat split; auto.
    rewrite countConnections_filter.
    pose proof (filter_length_two_out (isSet g b) (seq 0 7) a b
                  (seq_NoDup 7 0)) as Hout.
    rewrite length_seq in Hout.
    enough (length (filter (isSet g b) (seq 0 7)) + 2 <= 7)%nat by lia.
    apply Hout; try (apply in_rooms; assumption); auto.
    + apply isSet_unset. apply (inv_sym g Hg); auto.
    + apply isSet_unset. apply (inv_diag g Hg); auto.
Qed.

Lemma drawRoomB_accepts (g : graph) (a b : nat) :
  graphInvariant g -> acceptable g a b ->
  (canAddConnectionFrom g b =? 0) || (isSameRoom a b =? 1)
  || (connectionAlreadyExists g a b =? 1) = false.
Proof.
  intros Hg (Ha & Hb & Hab & Hcell & Hda & Hdb).
  apply canAdd_below6 in Hdb. rewrite Hdb.
  rewrite connectionAlreadyExists_unset by auto.
  unfold isSameRoom. destruct (Nat.eqb_spec a b); [contradiction|].
  reflexivity.
Qed.

Lemma drawRoomB_accepted (fuel : nat) (rs : rand_stream) (g : graph)
    (a pos b pos' : nat) :
  graphInvariant g -> (a < 7)%nat -> canAddConnectionFrom g a = 1 ->
  drawRoomB fuel rs g a pos = Some (b, pos') -> acceptable g a b.
Proof.
  intros Hg Ha Hca H. apply drawRoomB_some in H as (Hb & Hcb & Hab & Hex & _).
  repeat split; auto.
  - destruct (Z.eq_dec (cell g a b) (-1)) as [E|E]; [exact E|].
    exfalso. apply Hex. apply connectionAlreadyExists_set; auto.
  - apply canAdd_below6; exact Hca.
  - apply canAdd_below6. apply canAdd_flag. exact Hcb.
Qed.

(** ** Connection counts after an accepted edge *)

Lemma countConnections_connect (g : graph) (a b x : nat) :
  graphInvariant g -> acceptable g a b -> (x < 7)%nat ->
  countConnections (connectRoom (connectRoom g a b) b a) x
  = countConnections g x + (if (x =? a)%nat then 1 else 0)
    + (if (x =? b)%nat then 1 else 0).
Proof.
  intros Hg (Ha & Hb & Hab & Hcell & _ & _) Hx.
  pose proof (inv_shape g Hg) as Hs.
  assert (Hcell' : cell g b a = -1) by (apply (inv_sym g Hg); auto).
  rewrite !countConnections_filter.
  set (g' := connectRoom (connectRoom g a b) b a).
  assert (Hread : forall y, isSet g' x y
            = if ((x =? b) && (y =? a))%nat then true
              else if ((x =? a) && (y =? b))%nat then true
              else isSet g x y).
  { intros y. unfold isSet, g'. rewrite cell_connect by auto.
    destruct ((x =? b) && (y =? a))%nat;
      [destruct (Z.eqb_spec (Z.of_nat a) (-1)); [lia|reflexivity]|].
    destruct ((x =? a) && (y =? b))%nat;
      [destruct (Z.eqb_spec (Z.of_nat b) (-1)); [lia|reflexivity]|].
    reflexivity. }
  destruct (Nat.eqb_spec x a) as [Hxa|Hxa]; destruct (Nat.eqb_spec x b)
    as [Hxb|Hxb]; try congruence.
  - subst x.
    pose proof (filter_length_change (isSet g a) (isSet g' a) (seq 0 7) b
                  (seq_NoDup 7 0)) as Hch.
    rewrite (proj2 (isSet_unset g a b) Hcell) in Hch.
    rewrite (Hread b), Nat.eqb_refl in Hch.
    replace (a =? b)%nat with false in * by (symmetry; apply Nat.eqb_neq; auto).
    cbn [andb Z.b2z] in Hch.
    enough (Z.of_nat (length (filter (isSet g' a) (seq 0 7))) + 0
            = Z.of_nat (length (filter (isSet g a) (seq 0 7))) + 1) by lia.
    apply Hch; [apply in_rooms; exact Hb |].
    intros i Hi. rewrite Hread.
    replace (i =? b)%nat with false by (symmetry; apply Nat.eqb_neq; auto).
    rewrite andb_false_r. reflexivity.
  - subst x.
    pose proof (filter_length_change (isSet g b) (isSet g' b) (seq 0 7) a
                  (seq_NoDup 7 0)) as Hch.
    rewrite (proj2 (isSet_unset g b a) Hcell') in Hch.
    rewrite (Hread a), !Nat.eqb_refl in Hch.
    cbn [andb Z.b2z] in Hch.
    enough (Z.of_nat (length (filter (isSet g' b) (seq 0 7))) + 0
            = Z.of_nat (length (filter (isSet g b) (seq 0 7))) + 1) by lia.
    apply Hch; [apply in_rooms; exact Ha |].
    intros i Hi. rewrite Hread.
    replace (i =? a)%nat with false by (symmetry; apply Nat.eqb_neq; auto).
    replace (b =? a)%nat with false by (symmetry; apply Nat.eqb_neq; auto).
    rewrite andb_false_r. reflexivity.
  - rewrite (filter_length_pointwise (isSet g x) (isSet g' x)); [lia|].
    intros i _. rewrite Hread.
    replace (x =? a)%nat with false by (symmetry; apply Nat.eqb_neq; auto).
    replace (x =? b)%nat with false by (symmetry; apply Nat.eqb_neq; auto).
    reflexivity.
Qed.

Lemma totalConnections_le42 (g : graph) :
  graphInvariant g -> totalConnections g <= 42.
Proof.
  intros Hg. unfold totalConnections. cbn [seq map fold_left].
  pose proof (countConnections_le6 g 0 Hg ltac:(lia)).
  pose proof (countConnections_le6 g 1 Hg ltac:(lia)).
  pose proof (countConnections_le6 g 2 Hg ltac:(lia)).
  pose proof (countConnections_le6 g 3 Hg ltac:(lia)).
  pose proof (countConnections_le6 g 4 Hg ltac:(lia)).
  pose proof (countConnections_le6 g 5 Hg ltac:(lia)).
  pose proof (countConnections_le6 g 6 Hg ltac:(lia)).
  lia.
Qed.

Lemma totalConnections_connect (g : graph) (a b : nat) :
  graphInvariant g -> acceptable g a b ->
  totalConnections (connectRoom (connectRoom g a b) b a)
  = totalConnections g + 2.
Proof.
  intros Hg Hacc. unfold totalConnections. cbn [seq map fold_left].
  rewrite !(countConnections_connect g a b) by (auto; lia).
  destruct Hacc as (Ha & Hb & Hab & _). revert b Hb Hab. pattern a.
  apply rooms_cases; auto; clear a Ha; intros b Hb; pattern b;
    apply rooms_cases; auto; clear b Hb; intros Hab;
    solve [congruence | cbn [Nat.eqb]; lia].
Qed.

(** ** Fuel *)

Lemma drawRoomA_more (fuel k : nat) (rs : rand_stream) (g : graph)
    (pos : nat) (r : nat * nat) :
  drawRoomA fuel rs g pos = Some r -> drawRoomA (fuel + k) rs g pos = Some r.
Proof.
  revert pos. induction fuel as [|fuel IH]; intros pos H; [discriminate|].
  cbn [drawRoomA Nat.add] in *.
  destruct (canAddConnectionFrom g (rs pos mod 7) =? 1); auto.
Qed.

Lemma drawRoomB_more (fuel k : nat) (rs : rand_stream) (g : graph)
    (a pos : nat) (r : nat * nat) :
  drawRoomB fuel rs g a pos = Some r ->
  drawRoomB (fuel + k) rs g a pos = Some r.
Proof.
  revert pos. induction fuel as [|fuel IH]; intros pos H; [discriminate|].
  cbn [drawRoomB Nat.add] in *.
  destruct ((canAddConnectionFrom g (rs pos mod 7) =? 0)
            || (isSameRoom a (rs pos mod 7) =? 1)
            || (connectionAlreadyExists g a (rs pos mod 7) =? 1)); auto.
Qed.

Lemma addRandomConnection_more (fuel k : nat) (rs : rand_stream) (g : graph)
    (pos : nat) (r : graph * nat) :
  addRandomConnection fuel rs g pos = Some r ->
  addRandomConnection (fuel + k) rs g pos = Some r.
Proof.
  unfold addRandomConnection. intros H.
  destruct (drawRoomA fuel rs g pos) as [[a p1]|] eqn:EA; [|discriminate].
  rewrite (drawRoomA_more _ k _ _ _ _ EA).
  destruct (drawRoomB fuel rs g a p1) as [[b p2]|] eqn:EB; [|discriminate].
  rewrite (drawRoomB_more _ k _ _ _ _ _ EB). exact H.
Qed.

Lemma generationLoop_more (fuel k : nat) (rs : rand_stream) (g : graph)
    (pos : nat) (r : graph * nat) :
  generationLoop fuel rs g pos = Some r ->
  generationLoop (fuel + k) rs g pos = Some r.
Proof.
  revert g pos. induction fuel as [|fuel IH]; intros g pos H.
  - cbn [generationLoop] in H.
    destruct k; cbn [generationLoop Nat.add];
      destruct (isGraphFull g =? 0); congruence.
  - cbn [generationLoop Nat.add] in *.
    destruct (isGraphFull g =? 0); [|exact H].
    destruct (addRandomConnection (S fuel) rs g pos) as [[g1 p1]|] eqn:E;
      [|discriminate].
    change (S (fuel + k)) with (S fuel + k)%nat.
    rewrite (addRandomConnection_more _ k _ _ _ _ E). auto.
Qed.

(** A draw the loop accepts lies [n] calls ahead: [S n] rounds suffice. *)
Lemma drawRoomA_finds (rs : rand_stream) (g : graph) (n pos : nat) :
  canAddConnectionFrom g (rs (pos + n)%nat mod 7) = 1 ->
  exists a pos', drawRoomA (S n) rs g pos = Some (a, pos').
Proof.
  revert pos. induction n as [|n IH]; intros pos H; cbn [drawRoomA].
  - rewrite Nat.add_0_r in H. rewrite H. cbn. eauto.
  - destruct (canAddConnectionFrom g (rs pos mod 7) =? 1); [eauto|].
    apply (IH (S pos)). rewrite <- H. do 3 f_equal. lia.
Qed.

Lemma drawRoomB_finds (rs : rand_stream) (g : graph) (a n pos : nat) :
  graphInvariant g -> acceptable g a (rs (pos + n)%nat mod 7) ->
  exists b pos', drawRoomB (S n) rs g a pos = Some (b, pos').
Proof.
  intros Hg. revert pos. induction n as [|n IH]; intros pos H;
    cbn [drawRoomB].
  - rewrite Nat.add_0_r in H. rewrite (drawRoomB_accepts g a _ Hg H). eauto.
  - destruct ((canAddConnectionFrom g (rs pos mod 7) =? 0)
              || (isSameRoom a (rs pos mod 7) =? 1)
              || (connectionAlreadyExists g a (rs pos mod 7) =? 1)); [|eauto].
    apply (IH (S pos)). replace (S pos + n)%nat with (pos + S n)%nat by lia.
    exact H.
Qed.

Lemma notFull_low_room (g : graph) :
  isGraphFull g = 0 -> exists x, (x < 7)%nat /\ countConnections g x < 3.
Proof.
  unfold isGraphFull. cbn [seq map fold_left nth]. intros H.
  repeat match type of H with
         | context [if ?c <? 3 then _ else _] =>
             destruct (Z.ltb_spec c 3);
             [match goal with
              | Hc : countConnections _ ?x < 3 |- _ =>
                  exists x; split; [lia | exact Hc]
              end|]
         end.
  discriminate.
Qed.

Lemma addRandomConnection_edge (fuel : nat) (rs : rand_stream)
    (g g' : graph) (pos pos' : nat) :
  graphInvariant g -> addRandomConnection fuel rs g pos = Some (g', pos') ->
  exists a b, acceptable g a b /\
              g' = connectRoom (connectRoom g a b) b a.
Proof.
  intros Hg H. unfold addRandomConnection in H.
  destruct (drawRoomA fuel rs g pos) as [[a p1]|] eqn:EA; [|discriminate].
  destruct (drawRoomB fuel rs g a p1) as [[b p2]|] eqn:EB; [|discriminate].
  inversion H; subst. exists a, b. split; [|reflexivity].
  apply drawRoomA_some in EA as (Ha & Hca & _).
  eapply drawRoomB_accepted; eauto.
Qed.

(** With every residue recurring in the stream, the loop finishes from any
    matrix that satisfies the invariant. *)
Lemma generationLoop_finishes (rs : rand_stream) :
  recurring 7 rs ->
  forall (n : nat) (g : graph) (pos : nat),
    graphInvariant g -> 42 - totalConnections g <= Z.of_nat n ->
    exists fuel g' pos', generationLoop fuel rs g pos = Some (g', pos').
Proof.
  intros Hfair. induction n as [n IH] using lt_wf_ind. intros g pos Hg Hn.
  destruct (Z.eqb_spec (isGraphFull g) 0) as [Hfull|Hfull].
  2:{ exists 0%nat, g, pos. cbn [generationLoop].
      destruct (Z.eqb_spec (isGraphFull g) 0); congruence. }
  destruct (notFull_low_room g Hfull) as (x & Hx & Hlow).
  destruct (Hfair pos x Hx) as (m & Hm & Hrs).
  destruct (drawRoomA_finds rs g (m - pos) pos) as (a & p1 & EA).
  { replace (pos + (m - pos))%nat with m by lia. rewrite Hrs.
    apply canAdd_below6. lia. }
  pose proof (drawRoomA_some _ _ _ _ _ _ EA) as (Ha & Hca & _).
  destruct (acceptable_partner g a Hg Ha) as (b0 & Hb0);
    [apply canAdd_below6; exact Hca|].
  destruct (Hfair p1 b0) as (m' & Hm' & Hrs'); [apply Hb0|].
  destruct (drawRoomB_finds rs g a (m' - p1) p1 Hg) as (b & p2 & EB).
  { replace (p1 + (m' - p1))%nat with m' by lia. rewrite Hrs'. exact Hb0. }
  pose proof (drawRoomB_accepted _ _ _ _ _ _ _ Hg Ha Hca EB) as Hacc.
  set (g' := connectRoom (connectRoom g a b) b a).
  assert (Hg' : graphInvariant g')
    by (apply connect_invariant; auto; apply Hacc).
  pose proof (totalConnections_connect g a b Hg Hacc) as Htot.
  pose proof (totalConnections_le42 g' Hg') as Hle. fold g' in Htot.
  destruct (IH (n - 2)%nat ltac:(lia) g' p2 Hg' ltac:(lia))
    as (f3 & gf & pf & E3).
  set (f1 := S (m - pos)) in *. set (f2 := S (m' - p1)) in *.
  exists (S (f1 + f2 + f3)), gf, pf. cbn [generationLoop].
  rewrite Hfull. cbn [Z.eqb]. unfold addRandomConnection.
  replace (S (f1 + f2 + f3)) with (f1 + (S (f2 + f3)))%nat at 1 by lia.
  rewrite (drawRoomA_more _ _ _ _ _ _ EA).
  replace (S (f1 + f2 + f3)) with (f2 + (S (f1 + f3)))%nat at 1 by lia.
  rewrite (drawRoomB_more _ _ _ _ _ _ _ EB). fold g'.
  replace (f1 + f2 + f3)%nat with (f3 + (f1 + f2))%nat by lia.
  apply generationLoop_more. exact E3.
Qed.

(** ** The generated graph is well formed *)



(** ** Termination of the generation loop *)

(** C2: the generation loop terminates.  The values of [rand()] are those
    of a random number generator: every residue modulo 7 keeps recurring
    among them; then the loop ends, from the empty matrix and from every
    matrix it can reach.  Whatever the draws are, in a matrix the loop can
    reach that is not yet full some room can still take a connection, and
    every room the first drawing loop can pick has an acceptable partner
    (not itself, not already connected, below six connections), so both
    drawing loops always have an acceptable outcome to draw; each accepted
    edge raises the connection count of two distinct rooms by one and
    leaves every count at most 6. *)
Theorem generation_terminates_when_draws_recur :
  (forall rs, recurring 7 rs ->
     (exists fuel g pos, generateGraph fuel rs = Some (g, pos)) /\
     (forall g pos, reachable g ->
        exists fuel g' pos', generationLoop fuel rs g pos = Some (g', pos'))) /\
  (forall g, reachable g -> isGraphFull g = 0 ->
     (exists a, (a < 7)%nat /\ canAddConnectionFrom g a = 1) /\
     (forall a, (a < 7)%nat -> canAddConnectionFrom g a = 1 ->
                exists b, acceptable g a b)) /\
  (forall g g' fuel rs' pos pos',
     reachable g -> addRandomConnection fuel rs' g pos = Some (g', pos') ->
     exists a b, a <> b /\ acceptable g a b /\
       forall x, (x < 7)%nat ->
         countConnections g' x
         = countConnections g x + (if (x =? a)%nat then 1 else 0)
           + (if (x =? b)%nat then 1 else 0) /\
         countConnections g' x <= 6).
Proof.
  split; [|split].
  - intros rs Hfair. split.
    + unfold generateGraph.
      apply (generationLoop_finishes rs Hfair 42 initializeGraph 0);
        [exact initializeGraph_invariant|].
      vm_compute. discriminate.
    + intros g pos Hr. apply reachable_invariant in Hr.
      apply (generationLoop_finishes rs Hfair
               (Z.to_nat (42 - totalConnections g)) g pos Hr).
      lia.
  - intros g Hr Hfull. apply reachable_invariant in Hr. split.
    + destruct (notFull_low_room g Hfull) as (x & Hx & Hlow).
      exists x. split; [exact Hx|]. apply canAdd_below6. lia.
    + intros a Ha Hca. apply acceptable_partner; auto.
      apply canAdd_below6; exact Hca.
  - intros g g' fuel rs' pos pos' Hr Hstep.
    apply reachable_invariant in Hr.
    destruct (addRandomConnection_edge _ _ _ _ _ _ Hr Hstep)
      as (a & b & Hacc & ->).
    exists a, b. split; [apply Hacc|]. split; [exact Hacc|].
    intros x Hx. split.
    + apply countConnections_connect; assumption.
    + apply countConnections_le6; [|exact Hx].
      apply connect_invariant; auto; apply Hacc.
Qed.

Lemma generation_terminates_witness :
  (exists fuel g pos, generateGraph fuel (fun n => n) = Some (g, pos)) /\
  (forall g pos, reachable g ->
     exists fuel g' pos',
       generationLoop fuel (fun n => n) g pos = Some (g', pos')).
Proof.
  apply (proj1 generation_terminates_when_draws_recur (fun n => n)).
  apply recurring_id.
Defined.

End GraphProofs.

(** * Room types *)

Module RoleProofs.
Import BuildRooms.
Local Open Scope Z_scope.
Local Arguments Nat.modulo : simpl never.

(** A flag loop that clears the flag on a match ends at 0 exactly when some
    index matches. *)
Lemma flag_loop (P : nat -> bool) (l : list nat) (u : Z) :
  fold_left (fun uniqueRoom x => if P x then 0 else uniqueRoom) l u
  = if existsb P l then 0 else u.
Proof.
  revert u. induction l as [|x l IH]; intros u; cbn [fold_left existsb];
    [reflexivity|].
  rewrite IH. destruct (P x); cbn [orb]; [|reflexivity].
  destruct (existsb P l); reflexivity.
Qed.

Lemma firstn_upd_ge {A : Type} (k n : nat) (v : A) (l : list A) :
  (k <= n)%nat -> firstn k (upd n v l) = firstn k l.
Proof.
  revert k n. induction l as [|x l IH]; intros [|k] [|n] H; cbn;
    try reflexivity; try lia.
  f_equal. apply IH. lia.
Qed.

Lemma firstn_S_upd {A : Type} (k : nat) (v : A) (l : list A) :
  (k < length l)%nat -> firstn (S k) (upd k v l) = firstn k l ++ [v].
Proof.
  revert k. induction l as [|x l IH]; intros [|k] H; cbn in *;
    try reflexivity; try lia.
  f_equal. apply IH. lia.
Qed.

Lemma In_firstn_nth {A : Type} (k : nat) (l : list A) (v d : A) :
  In v (firstn k l) <->
  exists i, (i < k)%nat /\ (i < length l)%nat /\ nth i l d = v.
Proof.
  revert k. induction l as [|x l IH]; intros k.
  - rewrite firstn_nil. split; [intros []|].
    intros (i & _ & Hi & _). cbn in Hi. lia.
  - destruct k as [|k]; cbn [firstn In].
    + split; [intros []|]. intros (i & Hi & _). lia.
    + rewrite IH. split.
      * intros [<-|(i & Hi & Hl & Hn)].
        -- exists 0%nat. cbn. repeat split; lia.
        -- exists (S i). cbn. repeat split; [lia | lia | exact Hn].
      * intros ([|i] & Hi & Hl & Hn); cbn in *; [left; exact Hn|].
        right. exists i. repeat split; [lia | lia | exact Hn].
Qed.

Lemma typesDone_drawing (k : nat) (rt : list Z) :
  typesDone k rt -> (k < 7)%nat -> typesDrawing k rt.
Proof.
  intros (Hlen & Hnd & Hrange & Hrest) Hk.
  split; [exact Hlen|]. split; [exact Hnd|]. split; [exact Hrange|]. split.
  - intros i Hi. apply Hrest. lia.
  - left. apply Hrest. lia.
Qed.

(** ** The names [selectRooms] picks *)

Lemma drawRoomName_some (fuel : nat) (rs : rand_stream) (chosen : list Z)
    (pos s pos' : nat) :
  drawRoomName fuel rs chosen pos = Some (s, pos') ->
  (s < 10)%nat /\
  forall x, (x < 7)%nat -> nth x chosen 0 <> Z.of_nat s.
Proof.
  revert pos. induction fuel as [|fuel IH]; intros pos H;
    cbn [drawRoomName] in H; [discriminate|].
  rewrite (flag_loop (fun x => nth x chosen 0 =? _)) in H.
  destruct (existsb _ (seq 0 7)) eqn:Eex; cbn [Z.eqb Pos.eqb] in H;
    [apply IH in H; exact H|].
  inversion H; subst. split; [apply Nat.mod_upper_bound; discriminate|].
  intros x Hx E.
  assert (Hex : existsb (fun x => nth x chosen 0 =? Z.of_nat (rs pos mod 10))
                  (seq 0 7) = true).
  { apply existsb_exists. exists x. split; [apply in_seq; lia|].
    apply Z.eqb_eq; exact E. }
  congruence.
Qed.

Lemma selectRoomsLoop_names (fuel : nat) (rs : rand_stream) (n : nat) :
  forall (i : nat) (chosen : list Z) (names : list string) (pos : nat)
         (names' : list string) (pos' : nat),
    (i + n = 7)%nat -> namesChosen i chosen names ->
    selectRoomsLoop fuel rs (seq i n) chosen names pos = Some (names', pos') ->
    exists chosen', namesChosen 7 chosen' names'.
Proof.
  induction n as [|n IH]; intros i chosen names pos names' pos' Hi Hinv H.
  - cbn in H. inversion H; subst. replace i with 7%nat in * by lia. eauto.
  - cbn [seq selectRoomsLoop] in H.
    destruct (drawRoomName fuel rs chosen pos) as [[s pos1]|] eqn:Ed;
      [|discriminate].
    apply drawRoomName_some in Ed as [Hs Hnew].
    destruct Hinv as (Hlc & Hln & Hnd & Hfirst & Hrest).
    eapply (IH (S i)); [lia | | exact H].
    split; [rewrite upd_length; exact Hlc|].
    split; [rewrite upd_length; exact Hln|]. split; [|split].
    + rewrite firstn_S_upd by lia. apply NoDup_app; auto.
      * constructor; [intros [] | constructor].
      * intros v Hv [<-|[]].
        apply (In_firstn_nth i chosen _ 0) in Hv as (x & Hx & _ & Hn).
        apply (Hnew x); [lia | exact Hn].
    + intros j Hj. destruct (Nat.eq_dec j i) as [->|Hne].
      * rewrite !nth_upd_same by lia. rewrite Nat2Z.id. split; [lia|].
        reflexivity.
      * rewrite !nth_upd_other by lia. apply Hfirst. lia.
    + intros j Hj. rewrite nth_upd_other by lia. apply Hrest. lia.
Qed.

(** [selectRooms] fills [selectedRooms] with seven different names of the
    pool. *)
Lemma selectRooms_distinct (fuel : nat) (rs : rand_stream) (pos : nat)
    (names : list string) (pos' : nat) :
  selectRooms fuel rs pos = Some (names, pos') ->
  length names = 7%nat /\ NoDup names /\
  Forall (fun name => In name rooms) names.
Proof.
  intros H. unfold selectRooms in H.
  apply (selectRoomsLoop_names fuel rs 7 0) in H as [chosen Hinv];
    [|reflexivity|].
  2:{ split; [reflexivity|]. split; [reflexivity|]. split; [constructor|].
      split; [intros j Hj; lia|].
      intros j [_ Hj]. revert j Hj.
      do 7 (intros [|j]; [reflexivity|]; revert j). lia. }
  destruct Hinv as (Hlc & Hln & Hnd & Hfirst & _).
  rewrite <- Hlc, firstn_all in Hnd.
  assert (Hnames : names
                   = map (fun c => nth (Z.to_nat c) rooms ""%string) chosen).
  { apply (nth_ext _ _ ""%string
             (nth (Z.to_nat 0) rooms ""%string)).
    - rewrite length_map. lia.
    - intros j Hj.
      rewrite (map_nth (fun c => nth (Z.to_nat c) rooms ""%string) chosen 0).
      apply Hfirst. lia. }
  split; [exact Hln|]. subst names. split.
  - apply NoDup_map_NoDup_ForallPairs; [|exact Hnd].
    intros a b Ha Hb E.
    apply (In_nth _ _ 0) in Ha as (ja & Hja & <-).
    apply (In_nth _ _ 0) in Hb as (jb & Hjb & <-).
    destruct (Hfirst ja ltac:(lia)) as [Hra _].
    destruct (Hfirst jb ltac:(lia)) as [Hrb _].
    assert (Hidx : Z.to_nat (nth ja chosen 0) = Z.to_nat (nth jb chosen 0)).
    { apply (proj1 (NoDup_nth rooms ""%string)); cbn [length rooms];
        try lia; [|exact E].
      repeat constructor; cbn; intuition discriminate. }
    lia.
  - apply Forall_forall. intros name Hname.
    apply in_map_iff in Hname as (c & <- & Hc).
    apply (In_nth _ _ 0) in Hc as (j & Hj & <-).
    destruct (Hfirst j ltac:(lia)) as [Hr _].
    apply nth_In. cbn [length rooms]. lia.
Qed.

(** The redraw loop leaves a fresh value of 0..6 in entry [k]. *)
Lemma drawRoomType_fresh (fuel : nat) (rs : rand_stream) (k : nat) :
  (k < 7)%nat ->
  forall (rt rt' : list Z) (pos pos' : nat),
    typesDrawing k rt ->
    drawRoomType fuel rs rt k pos = Some (rt', pos') ->
    typesDone (S k) rt' /\ firstn k rt' = firstn k rt.
Proof.
  intros Hk. induction fuel as [|fuel IH]; intros rt rt' pos pos' Hinv H;
    cbn [drawRoomType] in H; [discriminate|].
  destruct Hinv as (Hlen & Hnd & Hrange & Hrest & Hslot).
  set (s := Z.of_nat (rs pos mod 7)) in *.
  assert (Hs : 0 <= s < 7).
  { subst s. pose proof (Nat.mod_upper_bound (rs pos) 7). lia. }
  rewrite (flag_loop (fun x => nth x rt 0 =? s)) in H.
  destruct (existsb (fun x => nth x rt 0 =? s) (seq 0 7)) eqn:Eex;
    cbn [Z.eqb Pos.eqb] in H.
  - (* rejected: the draw is already among the first [k] entries *)
    apply existsb_exists in Eex as (x & Hx & Hxs).
    apply in_seq in Hx. apply Z.eqb_eq in Hxs.
    assert (Hin : In s (firstn k rt)).
    { destruct (Nat.lt_trichotomy x k) as [Hlt|[->|Hgt]].
      - apply (In_firstn_nth k rt s 0). exists x. repeat split; auto; lia.
      - rewrite Hxs in Hslot. destruct Hslot; [lia | assumption].
      - rewrite Hrest in Hxs by lia. lia. }
    apply IH in H.
    + destruct H as [Hd Hf]. split; [exact Hd|].
      rewrite Hf. apply firstn_upd_ge. lia.
    + split; [|split; [|split; [|split]]].
      * rewrite upd_length; exact Hlen.
      * rewrite firstn_upd_ge by lia; exact Hnd.
      * intros i Hi. rewrite nth_upd_other by lia. apply Hrange; assumption.
      * intros i Hi. rewrite nth_upd_other by lia. apply Hrest; lia.
      * right. rewrite nth_upd_same by lia. rewrite firstn_upd_ge by lia.
        exact Hin.
  - (* accepted *)
    inversion H; subst rt' pos'. clear H.
    assert (Hnew : ~ In s (firstn k rt)).
    { intros Hin. apply (In_firstn_nth k rt s 0) in Hin
        as (i & Hi & _ & Hn).
      assert (Hex : existsb (fun x => nth x rt 0 =? s) (seq 0 7) = true).
      { apply existsb_exists. exists i. split; [apply in_seq; lia|].
        apply Z.eqb_eq; exact Hn. }
      congruence. }
    split; [|apply firstn_upd_ge; lia].
    split; [|split; [|split]].
    + rewrite upd_length; exact Hlen.
    + rewrite firstn_S_upd by lia. apply NoDup_app; auto.
      * constructor; [intros [] | constructor].
      * intros v Hv [<-|[]]. contradiction.
    + intros i Hi. destruct (Nat.eq_dec i k) as [->|Hne].
      * rewrite nth_upd_same by lia. exact Hs.
      * rewrite nth_upd_other by lia. apply Hrange; lia.
    + intros i Hi. rewrite nth_upd_other by lia. apply Hrest; lia.
Qed.

Lemma firstn_eq_nth {A : Type} (k i : nat) (l l' : list A) (d : A) :
  firstn k l = firstn k l' -> (i < k)%nat -> nth i l d = nth i l' d.
Proof.
  revert i l l'. induction k as [|k IH]; intros i l l' H Hi; [lia|].
  destruct l as [|x l], l' as [|x' l']; cbn in H; try discriminate;
    [reflexivity|].
  inversion H; subst. destruct i as [|i]; cbn; [reflexivity|].
  apply IH; [assumption | lia].
Qed.

Lemma setupRoomFilesLoop_types (fuel : nat) (rs : rand_stream)
    (opens : nat -> bool) (dirName : string) (selectedRooms : list string)
    (g : graph) (n : nat) :
  forall (k : nat) (rt : list Z) (pos : nat) (files : list roomFile)
         (rt' : list Z) (files' : list roomFile) (pos' : nat),
    (k + n = 7)%nat -> typesDone k rt ->
    files = map (fun i => (roomFilePath dirName selectedRooms i,
                           roomFileContent selectedRooms g i (nth i rt 0)))
                (seq 0 k) ->
    setupRoomFilesLoop fuel rs opens dirName selectedRooms g (seq k n) rt pos
      files = Done (rt', files', pos') ->
    typesDone 7 rt' /\
    files' = map (fun i => (roomFilePath dirName selectedRooms i,
                            roomFileContent selectedRooms g i (nth i rt' 0)))
                 (seq 0 7).
Proof.
  induction n as [|n IH]; intros k rt pos files rt' files' pos' Hk Hrt Hf H.
  - cbn in H. inversion H; subst rt' files' pos'.
    replace k with 7%nat in * by lia. auto.
  - cbn [seq setupRoomFilesLoop] in H.
    destruct (opens k); [|discriminate].
    destruct (drawRoomType fuel rs rt k pos) as [[rt1 pos1]|] eqn:Ed;
      [|discriminate].
    destruct (drawRoomType_fresh fuel rs k ltac:(lia) rt rt1 pos pos1)
      as [Hrt1 Hfirst]; [apply typesDone_drawing; [exact Hrt | lia] | exact Ed|].
    refine (IH (S k) rt1 pos1 _ rt' files' pos' _ Hrt1 _ H); [lia|].
    rewrite seq_S, map_app. cbn [map Nat.add]. f_equal.
    rewrite Hf. apply map_ext_in. intros i Hi. apply in_seq in Hi.
    do 2 f_equal. symmetry. apply (firstn_eq_nth k); [exact Hfirst | lia].
Qed.

Lemma typesDone_permutation (rt : list Z) :
  typesDone 7 rt -> Permutation rt [0; 1; 2; 3; 4; 5; 6].
Proof.
  intros (Hlen & Hnd & Hrange & _).
  rewrite <- Hlen, firstn_all in Hnd.
  apply NoDup_Permutation_bis; [exact Hnd | cbn; lia |].
  intros v Hv. apply (In_nth _ _ 0) in Hv as (i & Hi & <-).
  specialize (Hrange i ltac:(lia)).
  assert (Hcases : nth i rt 0 = 0 \/ nth i rt 0 = 1 \/ nth i rt 0 = 2 \/
                   nth i rt 0 = 3 \/ nth i rt 0 = 4 \/ nth i rt 0 = 5 \/
                   nth i rt 0 = 6) by lia.
  cbn. intuition.
Qed.

(** A completed run has drawn a permutation of 0..6 and has written file
    [i] with the type of entry [i]. *)
Lemma setupRoomFiles_types (fuel : nat) (rs : rand_stream)
    (opens : nat -> bool) (dirName : string) (selectedRooms : list string)
    (roomGraph : graph) (pos : nat) (roomTypes : list Z)
    (files : list roomFile) (pos' : nat) :
  setupRoomFiles fuel rs opens dirName selectedRooms roomGraph pos
  = Done (roomTypes, files, pos') ->
  Permutation roomTypes [0; 1; 2; 3; 4; 5; 6] /\
  files = map (fun i => (roomFilePath dirName selectedRooms i,
                         roomFileContent selectedRooms roomGraph i
                           (nth i roomTypes 0)))
              (seq 0 7).
Proof.
  intros H. unfold setupRoomFiles in H.
  apply (setupRoomFilesLoop_types fuel rs opens dirName selectedRooms
           roomGraph 7 0 (repeat (-1) 7) pos []) in H; try reflexivity.
  - destruct H as [Hrt Hfiles].
    split; [exact (typesDone_permutation roomTypes Hrt) | exact Hfiles].
  - split; [reflexivity|]. split; [constructor|]. split.
    + intros i Hi. lia.
    + intros i [_ Hi]. revert i Hi.
      do 7 (intros [|i]; [reflexivity|]; revert i). lia.
Qed.

(** ** The redraw loop ends when the draws recur *)

Lemma drawRoomType_more (fuel k : nat) (rs : rand_stream) (fileNum : nat) :
  forall (rt : list Z) (pos : nat) (r : list Z * nat),
    drawRoomType fuel rs rt fileNum pos = Some r ->
    drawRoomType (fuel + k) rs rt fileNum pos = Some r.
Proof.
  induction fuel as [|fuel IH]; intros rt pos r H; [discriminate|].
  cbn [drawRoomType Nat.add] in *.
  destruct (_ =? 0); auto.
Qed.

(** A value of 0..6 that none of the first [k] entries holds. *)
Lemma fresh_type (k : nat) (rt : list Z) :
  typesDrawing k rt -> (k < 7)%nat ->
  exists v, (v < 7)%nat /\ ~ In (Z.of_nat v) (firstn k rt).
Proof.
  intros (Hlen & _) Hk.
  assert (Hshort : (length (firstn k rt) < 7)%nat)
    by (rewrite length_firstn; lia).
  set (l := firstn k rt) in *.
  destruct (in_dec Z.eq_dec 0 l) as [H0|H0]; [|exists 0%nat; split; [lia | exact H0]].
  destruct (in_dec Z.eq_dec 1 l) as [H1|H1]; [|exists 1%nat; split; [lia | exact H1]].
  destruct (in_dec Z.eq_dec 2 l) as [H2|H2]; [|exists 2%nat; split; [lia | exact H2]].
  destruct (in_dec Z.eq_dec 3 l) as [H3|H3]; [|exists 3%nat; split; [lia | exact H3]].
  destruct (in_dec Z.eq_dec 4 l) as [H4|H4]; [|exists 4%nat; split; [lia | exact H4]].
  destruct (in_dec Z.eq_dec 5 l) as [H5|H5]; [|exists 5%nat; split; [lia | exact H5]].
  destruct (in_dec Z.eq_dec 6 l) as [H6|H6]; [|exists 6%nat; split; [lia | exact H6]].
  exfalso.
  assert (Hincl : incl [0; 1; 2; 3; 4; 5; 6] l).
  { intros v Hv. cbn in Hv.
    repeat (destruct Hv as [<-|Hv]; [assumption|]). destruct Hv. }
  apply NoDup_incl_length in Hincl; [cbn in Hincl; lia|].
  repeat constructor; cbn; intuition discriminate.
Qed.

(** A value none of the first [k] entries holds is accepted. *)
Lemma fresh_type_unique (k : nat) (rt : list Z) (s : Z) :
  typesDrawing k rt -> 0 <= s -> ~ In s (firstn k rt) ->
  existsb (fun x => nth x rt 0 =? s) (seq 0 7) = false.
Proof.
  intros (Hlen & _ & _ & Hrest & Hslot) Hs Hnew.
  destruct (existsb (fun x => nth x rt 0 =? s) (seq 0 7)) eqn:E;
    [|reflexivity].
  exfalso. apply existsb_exists in E as (x & Hx & Hxs).
  apply in_seq in Hx. apply Z.eqb_eq in Hxs.
  destruct (Nat.lt_trichotomy x k) as [Hlt|[->|Hgt]].
  - apply Hnew. apply (In_firstn_nth k rt s 0). exists x.
    repeat split; auto; lia.
  - rewrite Hxs in Hslot. destruct Hslot; [lia | contradiction].
  - rewrite Hrest in Hxs by lia. lia.
Qed.

Lemma drawRoomType_finds (rs : rand_stream) (k v : nat) :
  (k < 7)%nat ->
  forall (n : nat) (rt : list Z) (pos : nat),
    typesDrawing k rt -> ~ In (Z.of_nat v) (firstn k rt) ->
    (rs (pos + n) mod 7)%nat = v ->
    exists r, drawRoomType (S n) rs rt k pos = Some r.
Proof.
  intros Hk. induction n as [|n IH]; intros rt pos Hinv Hnew Hrs;
    cbn [drawRoomType]; rewrite (flag_loop (fun x => nth x rt 0 =? _)).
  - rewrite Nat.add_0_r in Hrs. rewrite Hrs.
    rewrite (fresh_type_unique k rt) by (auto; lia). cbn. eauto.
  - destruct (existsb _ (seq 0 7)) eqn:Eex; cbn [Z.eqb Pos.eqb]; [|eauto].
    apply IH.
    + (* the rejected draw leaves the state of the loop as it was *)
      destruct Hinv as (Hlen & Hnd & Hrange & Hrest & Hslot).
      apply existsb_exists in Eex as (x & Hx & Hxs).
      apply in_seq in Hx. apply Z.eqb_eq in Hxs.
      split; [rewrite upd_length; exact Hlen|].
      split; [rewrite firstn_upd_ge by lia; exact Hnd|].
      split; [intros i Hi; rewrite nth_upd_other by lia; auto|].
      split; [intros i Hi; rewrite nth_upd_other by lia; apply Hrest; lia|].
      right. rewrite nth_upd_same by lia. rewrite firstn_upd_ge by lia.
      destruct (Nat.lt_trichotomy x k) as [Hlt|[->|Hgt]].
      * apply (In_firstn_nth k rt _ 0). exists x. repeat split; auto; lia.
      * rewrite Hxs in Hslot. destruct Hslot as [Hs|Hs]; [lia | exact Hs].
      * rewrite Hrest in Hxs by lia. lia.
    + rewrite firstn_upd_ge by lia. exact Hnew.
    + rewrite <- Hrs. f_equal. f_equal. lia.
Qed.

Lemma setupRoomFilesLoop_finishes (rs : rand_stream) (opens : nat -> bool)
    (dirName : string) (selectedRooms : list string) (g : graph) :
  recurring 7 rs -> (forall i, (i < 7)%nat -> opens i = true) ->
  forall (n k : nat) (rt : list Z) (pos : nat) (files : list roomFile),
    (k + n = 7)%nat -> typesDone k rt ->
    exists fuel r,
      forall more,
        setupRoomFilesLoop (fuel + more) rs opens dirName selectedRooms g
          (seq k n) rt pos files = Done r.
Proof.
  intros Hfair Hopens. induction n as [|n IH];
    intros k rt pos files Hk Hrt.
  - exists 0%nat. eexists. intros more. reflexivity.
  - assert (Hdraw : typesDrawing k rt)
      by (apply typesDone_drawing; [exact Hrt | lia]).
    destruct (fresh_type k rt Hdraw ltac:(lia)) as (v & Hv & Hnew).
    destruct (Hfair pos v Hv) as (m & Hm & Hrs).
    destruct (drawRoomType_finds rs k v ltac:(lia) (m - pos) rt pos Hdraw Hnew)
      as ([rt1 pos1] & Hfound).
    { replace (pos + (m - pos))%nat with m by lia. exact Hrs. }
    destruct (drawRoomType_fresh _ rs k ltac:(lia) rt rt1 pos pos1 Hdraw
                Hfound) as [Hrt1 _].
    destruct (IH (S k) rt1 pos1
                (files ++ [(roomFilePath dirName selectedRooms k,
                            roomFileContent selectedRooms g k
                              (nth k rt1 0))])
                ltac:(lia) Hrt1) as (fuel2 & r & Hloop).
    exists (S (m - pos) + fuel2)%nat, r. intros more.
    cbn [seq setupRoomFilesLoop]. rewrite Hopens by lia.
    rewrite <- Nat.add_assoc.
    rewrite (drawRoomType_more _ (fuel2 + more) _ _ _ _ _ Hfound).
    replace (S (m - pos) + (fuel2 + more))%nat
      with (fuel2 + (S (m - pos) + more))%nat by lia.
    apply Hloop.
Qed.

(** When every residue modulo 7 keeps recurring among the draws and every
    file opens, [setupRoomFiles] completes. *)
Lemma setupRoomFiles_finishes (rs : rand_stream) (opens : nat -> bool)
    (dirName : string) (selectedRooms : list string) (g : graph)
    (pos : nat) :
  recurring 7 rs -> (forall i, (i < 7)%nat -> opens i = true) ->
  exists fuel r,
    setupRoomFiles fuel rs opens dirName selectedRooms g pos = Done r.
Proof.
  intros Hfair Hopens. unfold setupRoomFiles.
  destruct (setupRoomFilesLoop_finishes rs opens dirName selectedRooms g
              Hfair Hopens 7 0 (repeat (-1) 7) pos [] eq_refl)
    as (fuel & r & Hloop).
  - split; [reflexivity|]. split; [constructor|]. split.
    + intros i Hi. lia.
    + intros i [_ Hi]. revert i Hi.
      do 7 (intros [|i]; [reflexivity|]; revert i). lia.
  - exists fuel, r. rewrite <- (Nat.add_0_r fuel). apply Hloop.
Qed.

(** C4: in every run of [setupRoomFiles] in which all seven room files
    open, the seven entries of [roomTypes] are the values 0..6 in some
    order and file [i] ends with the type of entry [i], so exactly one room
    is written as START_ROOM (the entry 0), exactly one as END_ROOM (the
    entry 6) and the other five as MID_ROOM.  Such a run completes whenever
    every residue modulo 7 keeps recurring among the draws. *)
Theorem one_start_one_end_five_mid (rs : rand_stream) (opens : nat -> bool)
    (dirName : string) (selectedRooms : list string) (roomGraph : graph)
    (pos : nat) :
  (forall (fuel : nat) (roomTypes : list Z) (files : list roomFile)
          (pos' : nat),
     setupRoomFiles fuel rs opens dirName selectedRooms roomGraph pos
     = Done (roomTypes, files, pos') ->
     Permutation roomTypes [0; 1; 2; 3; 4; 5; 6] /\
     files = map (fun i => (roomFilePath dirName selectedRooms i,
                            roomFileContent selectedRooms roomGraph i
                              (nth i roomTypes 0)))
                 (seq 0 7) /\
     count_occ string_dec (map roomTypeName roomTypes) "START_ROOM"%string
     = 1%nat /\
     count_occ string_dec (map roomTypeName roomTypes) "END_ROOM"%string
     = 1%nat /\
     count_occ string_dec (map roomTypeName roomTypes) "MID_ROOM"%string
     = 5%nat) /\
  (recurring 7 rs -> (forall i, (i < 7)%nat -> opens i = true) ->
   exists fuel roomTypes files pos',
     setupRoomFiles fuel rs opens dirName selectedRooms roomGraph pos
     = Done (roomTypes, files, pos')).
Proof.
  split.
  - intros fuel roomTypes files pos' H.
    apply setupRoomFiles_types in H. destruct H as [Hperm Hfiles].
    split; [exact Hperm|]. split; [exact Hfiles|].
    pose proof (Permutation_map roomTypeName Hperm) as Hnames.
    rewrite (Permutation_count_occ string_dec) in Hnames.
    rewrite !Hnames. repeat split; reflexivity.
  - intros Hfair Hopens.
    destruct (setupRoomFiles_finishes rs opens dirName selectedRooms
                roomGraph pos Hfair Hopens) as (fuel & [[roomTypes files] pos'] & H).
    exists fuel, roomTypes, files, pos'. exact H.
Qed.

Lemma one_start_one_end_five_mid_witness :
  let rs := fun n => nth n [2; 2; 5; 0; 5; 16; 1; 1; 3; 11; 6; 4]%nat 0%nat in
  let names := ["Dungeon"; "Barracks"; "Garden"; "Game"; "Medical";
                "Corridor"; "Kitchen"]%string in
  exists roomTypes files pos',
    setupRoomFiles 4 rs (fun _ => true) "trompj.rooms.4242" names
      initializeGraph 0
    = Done (roomTypes, files, pos') /\
    (Permutation roomTypes [0; 1; 2; 3; 4; 5; 6] /\
     files = map (fun i => (roomFilePath "trompj.rooms.4242" names i,
                            roomFileContent names initializeGraph i
                              (nth i roomTypes 0)))
                 (seq 0 7) /\
     count_occ string_dec (map roomTypeName roomTypes) "START_ROOM"%string
     = 1%nat /\
     count_occ string_dec (map roomTypeName roomTypes) "END_ROOM"%string
     = 1%nat /\
     count_occ string_dec (map roomTypeName roomTypes) "MID_ROOM"%string
     = 5%nat).
Proof.
  cbv zeta. eexists. eexists. eexists. split.
  - vm_compute. reflexivity.
  - apply (proj1 (one_start_one_end_five_mid
                    (fun n => nth n [2; 2; 5; 0; 5; 16; 1; 1; 3; 11; 6; 4]%nat
                                0%nat)
                    (fun _ => true) "trompj.rooms.4242"
                    ["Dungeon"; "Barracks"; "Garden"; "Game"; "Medical";
                     "Corridor"; "Kitchen"]%string
                    initializeGraph 0) 4%nat _ _ 11%nat).
    vm_compute. reflexivity.
Defined.

End RoleProofs.

(** * Room files: writing and reading back *)

Module RoomFileProofs.
Import BuildRooms.
Import Adventure.
Local Open Scope string_scope.

Lemma flatten_app (l1 l2 : list string) :
  flatten (l1 ++ l2) = flatten l1 ++ flatten l2.
Proof.
  induction l1 as [|x l1 IH]; cbn; [reflexivity|].
  fold (flatten (l1 ++ l2)). fold (flatten l1).
  rewrite IH, append_assoc. reflexivity.
Qed.

Local Open Scope list_scope.

(** ** The writer of [setupRoomFiles] follows the record format *)

Lemma connectionLines_fold (selectedRooms : list string) (g : graph)
    (fileNum : nat) (l : list nat) (k : nat) (written : string) :
  fold_left
    (fun '(connCounter, written) connection =>
       if negb (cell g fileNum connection =? -1)%Z then
         (S connCounter,
          (written ++
           connectionLine (S connCounter)
             (nth (Z.to_nat (cell g fileNum connection)) selectedRooms ""))
          %string)
       else (connCounter, written))
    l (k, written)
  = let names :=
      map (fun connection => nth (Z.to_nat connection) selectedRooms "")
        (flat_map
           (fun connection =>
              if negb (cell g fileNum connection =? -1)%Z
              then [cell g fileNum connection] else [])
           l) in
    ((k + length names)%nat,
     (written ++ flatten (numberedLines k names))%string).
Proof.
  revert k written. induction l as [|c l IH]; intros k written;
    cbn [fold_left flat_map map].
  - cbn. rewrite append_nil_r, Nat.add_0_r. reflexivity.
  - destruct (negb (cell g fileNum c =? -1)%Z); rewrite IH; cbn zeta.
    + cbn [app map length numberedLines flatten fold_right].
      fold (flatten (numberedLines (S k)
        (map (fun connection => nth (Z.to_nat connection) selectedRooms "")
           (flat_map (fun connection =>
              if negb (cell g fileNum connection =? -1)%Z
              then [cell g fileNum connection] else []) l)))).
      rewrite append_assoc. f_equal. lia.
    + cbn [app]. reflexivity.
Qed.

(** What [setupRoomFiles] writes for a room is the file format applied to
    the record of that room. *)
Lemma roomFileContent_serializeRoom (selectedRooms : list string)
    (g : graph) (fileNum : nat) (roomType : Z) :
  roomFileContent selectedRooms g fileNum roomType
  = serializeRoom (recordOf selectedRooms g fileNum roomType).
Proof.
  unfold roomFileContent, serializeRoom, recordLines, recordOf,
    connectionLines, connectionsOf.
  cbn [recName recConnections recType].
  rewrite connectionLines_fold. cbn zeta. cbn [snd flatten fold_right].
  fold (flatten (numberedLines 0
    (map (fun connection => nth (Z.to_nat connection) selectedRooms "")
       (flat_map (fun connection =>
          if negb (cell g fileNum connection =? -1)%Z
          then [cell g fileNum connection] else []) (seq 0 7)))
    ++ [typeLine (roomTypeName roomType)])).
  rewrite flatten_app. cbn [flatten fold_right append].
  rewrite append_nil_r. reflexivity.
Qed.

(** ** Lines [fgets] returns whole *)

Lemma wholeLine_nonempty (l : string) :
  wholeLine l -> (1 <= String.length l)%nat.
Proof.
  intros H. destruct l; [|cbn; lia].
  specialize (H ""). discriminate.
Qed.

Lemma flatten_length (lines : list string) :
  Forall wholeLine lines ->
  (length lines <= String.length (flatten lines))%nat.
Proof.
  induction 1 as [|l lines Hl _ IH]; cbn [flatten fold_right length];
    [lia|].
  fold (flatten lines). rewrite length_append.
  apply wholeLine_nonempty in Hl. lia.
Qed.

Lemma fileLines_flatten (lines : list string) (fuel : nat) :
  Forall wholeLine lines -> (length lines <= fuel)%nat ->
  fileLines fuel (flatten lines) = lines.
Proof.
  intros H. revert fuel.
  induction H as [|l lines Hl _ IH]; intros fuel Hfuel.
  - destruct fuel; reflexivity.
  - destruct fuel as [|fuel]; [cbn in Hfuel; lia|].
    cbn [flatten fold_right fileLines]. fold (flatten lines).
    rewrite Hl. f_equal. apply IH. cbn in Hfuel. lia.
Qed.

Ltac in_list := cbn [In]; repeat (first [left; reflexivity | right]).

Ltac each_room H :=
  repeat (destruct H as [<-|H]; [vm_compute; reflexivity|]); destruct H.

Lemma nameLine_whole (name : string) :
  In name rooms -> wholeLine (nameLine name).
Proof. intros H rest. each_room H. Qed.

Lemma typeLine_whole (type : string) :
  In type ["START_ROOM"; "MID_ROOM"; "END_ROOM"] ->
  wholeLine (typeLine type).
Proof. intros H rest. each_room H. Qed.

Lemma connectionLine_whole (k : nat) (name : string) :
  (1 <= k <= 6)%nat -> In name rooms -> wholeLine (connectionLine k name).
Proof.
  intros Hk H rest.
  assert (Hc : (k = 1 \/ k = 2 \/ k = 3 \/ k = 4 \/ k = 5 \/ k = 6)%nat)
    by lia.
  destruct Hc as [->|[->|[->|[->|[->| ->]]]]]; each_room H.
Qed.

(** ** What [readFile] does with each line of the format *)

Lemma readLine_name (name : string) (r : room) (c : nat) :
  In name rooms ->
  readLine (r, c) (nameLine name)
  = Ok ({| roomName := text name; roomType := roomType r;
           roomConnections := roomConnections r |}, c).
Proof. intros H. each_room H. Qed.

Lemma readLine_type (type : string) (r : room) (c : nat) :
  In type ["START_ROOM"; "MID_ROOM"; "END_ROOM"] ->
  readLine (r, c) (typeLine type)
  = Ok ({| roomName := roomName r; roomType := text type;
           roomConnections := roomConnections r |}, c).
Proof. intros H. each_room H. Qed.

Lemma readLine_connection (k : nat) (name : string) (r : room) (c : nat) :
  (1 <= k <= 6)%nat -> In name rooms -> (c < 6)%nat ->
  readLine (r, c) (connectionLine k name)
  = Ok ({| roomName := roomName r; roomType := roomType r;
           roomConnections := upd c (text name) (roomConnections r) |}, S c).
Proof.
  intros Hk H Hc. apply Nat.ltb_lt in Hc.
  assert (Hread : readLine (r, c) (connectionLine k name)
    = if (c <? 6)%nat then
        Ok ({| roomName := roomName r; roomType := roomType r;
               roomConnections := upd c (text name) (roomConnections r) |},
            S c)
      else Fault (IndexOutOfBounds "roomConnections" (Z.of_nat c))).
  { assert (Hcases : (k = 1 \/ k = 2 \/ k = 3 \/ k = 4 \/ k = 5 \/ k = 6)%nat)
      by lia.
    clear Hc.
    destruct Hcases as [->|[->|[->|[->|[->| ->]]]]]; each_room H. }
  rewrite Hread, Hc. reflexivity.
Qed.

Lemma upd_middle {A : Type} (l1 l2 : list A) (x v : A) :
  upd (length l1) v (l1 ++ x :: l2) = l1 ++ v :: l2.
Proof. induction l1 as [|y l1 IH]; cbn; [reflexivity | rewrite IH; reflexivity]. Qed.

Lemma connectionNames_some (names : list string) (n : nat) :
  connectionNames (map text names ++ repeat None n) = names.
Proof.
  induction names as [|x names IH]; cbn.
  - destruct n; reflexivity.
  - rewrite IH. reflexivity.
Qed.

(** The connection lines of a record fill the array from where the
    earlier ones stopped. *)
Lemma readLines_connections (names pre : list string) (r : room)
    (tail : list string) :
  Forall (fun name => In name rooms) names ->
  (length pre + length names <= 6)%nat ->
  roomConnections r = map text pre ++ repeat None (6 - length pre) ->
  readLines (r, length pre) (numberedLines (length pre) names ++ tail)
  = readLines
      ({| roomName := roomName r; roomType := roomType r;
          roomConnections :=
            map text (pre ++ names)
            ++ repeat None (6 - length (pre ++ names)) |},
       (length pre + length names)%nat) tail.
Proof.
  intros Hnames. revert pre r.
  induction Hnames as [|name names Hname _ IH]; intros pre r Hlen Hconns.
  - cbn [numberedLines app length]. rewrite app_nil_r, Nat.add_0_r.
    rewrite <- Hconns. destruct r; reflexivity.
  - cbn [numberedLines app readLines length] in *.
    rewrite readLine_connection by (auto; lia). cbn [bind].
    replace (S (length pre)) with (length (pre ++ [name]))
      by (rewrite length_app; cbn [length]; lia).
    rewrite IH.
    + cbn [roomName roomType]. rewrite <- app_assoc. cbn [app].
      f_equal. f_equal. rewrite length_app. cbn [length]. lia.
    + rewrite length_app. cbn [length]. lia.
    + cbn [roomConnections]. rewrite Hconns.
      replace (6 - length pre)%nat with (S (6 - length (pre ++ [name])))
        by (rewrite length_app; cbn [length]; lia).
      cbn [repeat]. rewrite <- (length_map text pre) at 1.
      rewrite upd_middle, map_app, <- app_assoc. reflexivity.
Qed.

Lemma numberedLines_whole (k : nat) (names : list string) :
  Forall (fun name => In name rooms) names ->
  (k + length names <= 6)%nat ->
  Forall wholeLine (numberedLines k names).
Proof.
  intros H. revert k.
  induction H as [|c cs Hc _ IH]; intros k Hk; cbn [numberedLines length] in *;
    constructor.
  - apply connectionLine_whole; [lia | exact Hc].
  - apply IH. lia.
Qed.

(** [readFile] gives back the record a file of the format was written
    from. *)
Lemma readFile_serializeRoom (r : roomRecord) :
  In (recName r) rooms ->
  Forall (fun name => In name rooms) (recConnections r) ->
  (length (recConnections r) <= 6)%nat ->
  In (recType r) ["START_ROOM"; "MID_ROOM"; "END_ROOM"] ->
  readFile (serializeRoom r) = Ok (roomOfRecord r).
Proof.
  intros Hname Hconns Hlen Htype.
  assert (Hwhole : Forall wholeLine (recordLines r)).
  { unfold recordLines. constructor; [apply nameLine_whole; exact Hname|].
    apply Forall_app. split.
    - apply numberedLines_whole; [exact Hconns | exact Hlen].
    - constructor; [apply typeLine_whole; exact Htype | constructor]. }
  unfold readFile, linesOf, serializeRoom.
  rewrite fileLines_flatten by (auto using flatten_length).
  unfold recordLines. cbn [readLines].
  rewrite readLine_name by exact Hname. cbn [bind].
  rewrite (readLines_connections (recConnections r) [] _ _ Hconns Hlen)
    by reflexivity.
  cbn [readLines app length roomName roomType Nat.add].
  rewrite readLine_type by exact Htype. cbn [bind fst]. reflexivity.
Qed.

(** Every record of at most six connections is the record of a room
    [setupRoomFiles] can be handed: the room is file 0, its connections
    are the rooms 1, 2, ... in the row of the matrix. *)
Lemma record_is_written (r : roomRecord) :
  (length (recConnections r) <= 6)%nat ->
  In (recType r) ["START_ROOM"; "MID_ROOM"; "END_ROOM"] ->
  exists selectedRooms g fileNum typeDrawn,
    indexable selectedRooms g fileNum /\
    recordOf selectedRooms g fileNum typeDrawn = r.
Proof.
  intros Hlen Htype. destruct r as [name conns type].
  cbn [recConnections recType] in *.
  set (k := length conns).
  exists (name :: conns ++ repeat ""%string (6 - k)).
  exists ((-1 :: map Z.of_nat (seq 1 k) ++ repeat (-1) (6 - k))%Z
          :: repeat (repeat (-1)%Z 7) 6).
  exists 0%nat.
  exists (if String.eqb type "START_ROOM" then 0
          else if String.eqb type "END_ROOM" then 6 else 1)%Z.
  assert (Hcases : (k = 0 \/ k = 1 \/ k = 2 \/ k = 3 \/ k = 4 \/ k = 5
                    \/ k = 6)%nat) by (unfold k; lia).
  split.
  - split; [|split; [lia|]].
    + cbn [length]. rewrite length_app, repeat_length. fold k. lia.
    + intros connection Hc.
      destruct Hcases as [->|[->|[->|[->|[->|[->| ->]]]]]];
        do 7 (destruct connection as [|connection]; [cbn; lia|]); lia.
  - assert (Ht : roomTypeName
                   (if String.eqb type "START_ROOM" then 0
                    else if String.eqb type "END_ROOM" then 6 else 1)%Z
                 = type).
    { cbn in Htype. destruct Htype as [<-|[<-|[<-|[]]]]; reflexivity. }
    unfold recordOf. rewrite Ht. f_equal. unfold k in *.
    destruct conns as [|c1 [|c2 [|c3 [|c4 [|c5 [|c6 [|c7 conns]]]]]]];
      try reflexivity.
    cbn [length] in Hlen. lia.
Qed.

(** C3: a room record with a name of the ten-name pool, at most six
    connection names of the pool and one of the three types.  It is the
    record of a room [setupRoomFiles] can be handed, and whenever it is,
    the text [setupRoomFiles] writes for that room is the name line, the
    numbered connection lines in list order and the type line, and
    [readFile] reads that text back as the same name, the same connection
    names in the same order and the same type. *)
Theorem room_file_roundtrip (r : roomRecord) :
  In (recName r) rooms ->
  Forall (fun name => In name rooms) (recConnections r) ->
  (length (recConnections r) <= 6)%nat ->
  In (recType r) ["START_ROOM"; "MID_ROOM"; "END_ROOM"] ->
  (exists selectedRooms g fileNum typeDrawn,
     indexable selectedRooms g fileNum /\
     recordOf selectedRooms g fileNum typeDrawn = r) /\
  forall selectedRooms g fileNum typeDrawn,
    indexable selectedRooms g fileNum ->
    recordOf selectedRooms g fileNum typeDrawn = r ->
    roomFileContent selectedRooms g fileNum typeDrawn
    = flatten
        (("ROOM NAME: " ++ recName r ++ newline)%string
         :: numberedLines 0 (recConnections r)
         ++ [("ROOM TYPE: " ++ recType r ++ newline)%string]) /\
    exists parsed,
      readFile (roomFileContent selectedRooms g fileNum typeDrawn)
      = Ok parsed /\
      roomName parsed = Some (Text (recName r)) /\
      roomConnections parsed
      = map (fun name => Some (Text name)) (recConnections r)
        ++ repeat None (6 - length (recConnections r)) /\
      connectionNames (roomConnections parsed) = recConnections r /\
      roomType parsed = Some (Text (recType r)).
Proof.
  intros Hname Hconns Hlen Htype. split.
  - apply record_is_written; assumption.
  - intros selectedRooms g fileNum typeDrawn _ E.
    rewrite roomFileContent_serializeRoom, E. split; [reflexivity|].
    exists (roomOfRecord r).
    split; [apply readFile_serializeRoom; assumption|].
    split; [reflexivity|]. split; [reflexivity|].
    split; [apply connectionNames_some | reflexivity].
Qed.

Lemma room_file_roundtrip_witness :
  let r := {| recName := "Barracks";
              recConnections := ["Game"; "Corridor"; "Dungeon"; "Attic"];
              recType := "END_ROOM" |} in
  let selectedRooms :=
    ["Game"; "Kitchen"; "Barracks"; "Corridor"; "Dungeon"; "Attic";
     "Medical"]%string in
  let g := [ [-1; -1; 2; -1; -1; -1; -1]; [-1; -1; -1; -1; -1; -1; -1];
             [0; -1; -1; 3; 4; 5; -1]; [-1; -1; 2; -1; -1; -1; -1];
             [-1; -1; 2; -1; -1; -1; -1]; [-1; -1; 2; -1; -1; -1; -1];
             [-1; -1; -1; -1; -1; -1; -1] ]%Z in
  roomFileContent selectedRooms g 2 6
  = flatten
      (("ROOM NAME: " ++ recName r ++ newline)%string
       :: numberedLines 0 (recConnections r)
       ++ [("ROOM TYPE: " ++ recType r ++ newline)%string]) /\
  exists parsed,
    readFile (roomFileContent selectedRooms g 2 6) = Ok parsed /\
    roomName parsed = Some (Text (recName r)) /\
    roomConnections parsed
    = map (fun name => Some (Text name)) (recConnections r)
      ++ repeat None (6 - length (recConnections r)) /\
    connectionNames (roomConnections parsed) = recConnections r /\
    roomType parsed = Some (Text (recType r)).
Proof.
  cbv zeta.
  apply (proj2 (room_file_roundtrip
                  {| recName := "Barracks";
                     recConnections := ["Game"; "Corridor"; "Dungeon"; "Attic"];
                     recType := "END_ROOM" |}
                  ltac:(in_list)
                  ltac:(repeat (constructor; [in_list|]); constructor)
                  ltac:(cbn; lia) ltac:(in_list))).
  - split; [reflexivity|]. split; [lia|]. intros connection Hc.
    do 7 (destruct connection as [|connection]; [cbn; lia|]). lia.
  - reflexivity.
Defined.

(** ** The files of a generated graph read back *)

Lemma flat_map_filter_length {A B : Type} (f : A -> bool) (h : A -> B)
    (l : list A) :
  length (flat_map (fun c => if f c then [h c] else []) l)
  = length (filter f l).
Proof.
  induction l as [|c l IH]; cbn; [reflexivity|].
  destruct (f c); cbn; rewrite IH; reflexivity.
Qed.

Lemma roomTypeName_cases (roomType : Z) :
  In (roomTypeName roomType) ["START_ROOM"; "MID_ROOM"; "END_ROOM"].
Proof.
  unfold roomTypeName. destruct (roomType =? 0)%Z; [in_list|].
  destruct (roomType =? 6)%Z; in_list.
Qed.

(** Every file [setupRoomFiles] writes for a graph that satisfies the
    invariant of the generation loop, with seven names of the pool, is read
    back by [readFile] as the room it was written from. *)
Lemma generated_file_reads_back (selectedRooms : list string) (g : graph)
    (fileNum : nat) (roomType : Z) :
  graphInvariant g -> length selectedRooms = 7%nat ->
  Forall (fun name => In name rooms) selectedRooms ->
  (fileNum < 7)%nat ->
  readFile (roomFileContent selectedRooms g fileNum roomType)
  = Ok (roomOfRecord (recordOf selectedRooms g fileNum roomType)).
Proof.
  intros Hg Hlen Hpool Hfile. rewrite roomFileContent_serializeRoom.
  rewrite Forall_forall in Hpool.
  apply readFile_serializeRoom; cbn [recordOf recName recConnections recType].
  - apply Hpool. apply nth_In. lia.
  - apply Forall_forall. intros name Hname.
    apply in_map_iff in Hname as (v & <- & Hv).
    unfold connectionsOf in Hv. apply in_flat_map in Hv as (c & Hc & Hv).
    apply in_seq in Hc.
    destruct (inv_cells g Hg fileNum c Hfile ltac:(lia)) as [E|E];
      rewrite E in Hv.
    + destruct Hv.
    + destruct (negb (Z.of_nat c =? -1)%Z); [|destruct Hv].
      destruct Hv as [<-|[]]. rewrite Nat2Z.id.
      apply Hpool. apply nth_In. lia.
  - rewrite length_map. unfold connectionsOf.
    rewrite (flat_map_filter_length (isSet g fileNum)
               (fun connection => cell g fileNum connection)).
    pose proof (GraphProofs.countConnections_le6 g fileNum Hg Hfile) as Hle.
    rewrite GraphProofs.countConnections_filter in Hle. lia.
  - apply roomTypeName_cases.
Qed.

(** ** The index of the connection array *)

Lemma copyPayload_fault (buffer : string) (capacity start : nat) (l : string)
    (f : fault) :
  copyPayload buffer capacity start l = Fault f ->
  f = BufferOverflow buffer /\
  (capacity < String.length (payload start l))%nat.
Proof.
  unfold copyPayload.
  destruct (Nat.ltb_spec (String.length (payload start l)) capacity);
    [discriminate|].
  destruct (Nat.eqb_spec (String.length (payload start l)) capacity);
    [discriminate|].
  intros E. inversion E. split; [reflexivity | lia].
Qed.

Lemma copyPayload_fits (buffer : string) (capacity start : nat) (l : string) :
  (String.length (payload start l) <=? capacity)%nat = true ->
  exists copied, copyPayload buffer capacity start l = Ok copied.
Proof.
  intros Hfit. apply Nat.leb_le in Hfit. unfold copyPayload.
  destruct (Nat.ltb_spec (String.length (payload start l)) capacity);
    [eauto|].
  destruct (Nat.eqb_spec (String.length (payload start l)) capacity);
    [eauto | lia].
Qed.

Lemma readLine_connNumber (r r' : room) (c c' : nat) (l : string) :
  readLine (r, c) l = Ok (r', c') ->
  c' = (c + if isConnectionLine l then 1 else 0)%nat /\
  (isConnectionLine l = true -> (c < 6)%nat /\
     exists roomConn,
       roomConnections r' = upd c (Some roomConn) (roomConnections r)).
Proof.
  unfold readLine, isConnectionLine. destruct (classify l).
  - destruct (copyPayload "name" 11 11 l); cbn [bind]; [|discriminate].
    intros H; inversion H; subst. split; [lia | discriminate].
  - destruct (copyPayload "type" 11 11 l); cbn [bind]; [|discriminate].
    intros H; inversion H; subst. split; [lia | discriminate].
  - destruct (copyPayload "roomConn" 10 14 l) as [roomConn|]; cbn [bind];
      [|discriminate].
    destruct (Nat.ltb_spec c 6) as [Hlt|Hge]; [|discriminate].
    intros H; inversion H; subst. split; [lia|]. intros _. split; [lia|].
    exists roomConn. reflexivity.
  - intros H; inversion H; subst. split; [lia | discriminate].
Qed.

(** [connNumber] is the number of connection lines read so far. *)
Lemma readLines_connNumber (lines : list string) :
  forall (r r' : room) (c c' : nat),
    readLines (r, c) lines = Ok (r', c') ->
    c' = (c + connectionLineCount lines)%nat.
Proof.
  unfold connectionLineCount.
  induction lines as [|l lines IH]; intros r r' c c' H;
    cbn [readLines filter length] in *.
  - inversion H; subst. lia.
  - destruct (readLine (r, c) l) as [[r1 c1]|] eqn:E; cbn [bind] in H;
      [|discriminate].
    apply readLine_connNumber in E as [-> _]. apply IH in H. subst c'.
    destruct (isConnectionLine l); cbn [length]; lia.
Qed.

Lemma readLine_index_fault (r : room) (c : nat) (l : string) (a : string)
    (i : Z) :
  readLine (r, c) l = Fault (IndexOutOfBounds a i) ->
  isConnectionLine l = true /\ i = Z.of_nat c /\ (6 <= c)%nat.
Proof.
  unfold readLine, isConnectionLine. destruct (classify l).
  - destruct (copyPayload "name" 11 11 l) as [x|f] eqn:E; cbn [bind];
      [discriminate|].
    intros H. inversion H; subst. apply copyPayload_fault in E as [E _].
    discriminate.
  - destruct (copyPayload "type" 11 11 l) as [x|f] eqn:E; cbn [bind];
      [discriminate|].
    intros H. inversion H; subst. apply copyPayload_fault in E as [E _].
    discriminate.
  - destruct (copyPayload "roomConn" 10 14 l) as [x|f] eqn:E; cbn [bind].
    + destruct (Nat.ltb_spec c 6) as [Hlt|Hge]; [discriminate|].
      intros H; inversion H; subst. auto.
    + intros H. inversion H; subst. apply copyPayload_fault in E as [E _].
      discriminate.
  - discriminate.
Qed.

(** An out-of-bounds write needs a seventh connection line. *)
Lemma readLines_index_fault (lines : list string) :
  forall (r : room) (c : nat) (a : string) (i : Z),
    readLines (r, c) lines = Fault (IndexOutOfBounds a i) ->
    (6 < c + connectionLineCount lines)%nat.
Proof.
  unfold connectionLineCount.
  induction lines as [|l lines IH]; intros r c a i H;
    cbn [readLines filter length] in *; [discriminate|].
  destruct (readLine (r, c) l) as [[r1 c1]|f] eqn:E; cbn [bind] in H.
  - apply readLine_connNumber in E as [-> _]. apply IH in H.
    destruct (isConnectionLine l); cbn [length]; lia.
  - inversion H; subst f.
    apply readLine_index_fault in E as (-> & _ & Hc). cbn [length]. lia.
Qed.

(** With more than six connection lines the run cannot finish. *)
Lemma readLines_seventh (lines : list string) :
  forall (r : room) (c : nat),
    (c <= 6)%nat -> (6 < c + connectionLineCount lines)%nat ->
    (exists f, readLines (r, c) lines = Fault f) /\
    (forallb lineFits lines = true ->
     readLines (r, c) lines = Fault (IndexOutOfBounds "roomConnections" 6)).
Proof.
  unfold connectionLineCount.
  induction lines as [|l lines IH]; intros r c Hc Hcount;
    cbn [readLines filter length forallb] in *; [lia|].
  destruct (readLine (r, c) l) as [[r1 c1]|f] eqn:E; cbn [bind].
  - pose proof (readLine_connNumber _ _ _ _ _ E) as [-> Hin].
    destruct (isConnectionLine l) eqn:Ek; cbn [length] in Hcount.
    + destruct (Hin eq_refl) as [Hlt _].
      destruct (IH r1 (c + 1)%nat ltac:(lia) ltac:(lia)) as [Hf Hfit].
      split; [exact Hf|]. intros Hall.
      apply andb_prop in Hall as [_ Hall]. auto.
    + destruct (IH r1 (c + 0)%nat ltac:(lia) ltac:(lia)) as [Hf Hfit].
      split; [exact Hf|]. intros Hall.
      apply andb_prop in Hall as [_ Hall]. auto.
  - split; [eauto|]. intros Hall. apply andb_prop in Hall as [Hl _].
    f_equal. revert E Hl. unfold readLine, lineFits.
    destruct (classify l).
    + intros E Hl. destruct (copyPayload_fits "name" _ _ _ Hl) as [x Hx].
      rewrite Hx in E. discriminate.
    + intros E Hl. destruct (copyPayload_fits "type" _ _ _ Hl) as [x Hx].
      rewrite Hx in E. discriminate.
    + intros E Hl. destruct (copyPayload_fits "roomConn" _ _ _ Hl) as [x Hx].
      rewrite Hx in E. cbn [bind] in E.
      destruct (Nat.ltb_spec c 6) as [Hlt|Hge]; [discriminate|].
      inversion E. replace c with 6%nat by lia. reflexivity.
    + discriminate.
Qed.

(** C10: a connection line is a line in which [strstr] finds CONNECTION
    and neither ROOM NAME: nor ROOM TYPE: (it looks at the line up to its
    first NUL byte).  [readFile] writes the connection of each connection
    line at index [connNumber] of the six-element array with no bound
    check, and [connNumber] is the number of connection lines read before
    it.  With at most six connection lines in the file no write is out of
    bounds; with more than six the run faults (on the write at index 6
    when every copy stays within its buffer), so the bound on the file is
    needed. *)
Theorem connection_index_in_bounds (content : string) :
  (forall l,
     isConnectionLine l = true <->
     strstr (cstring l) "CONNECTION" = true /\
     strstr (cstring l) "ROOM NAME:" = false /\
     strstr (cstring l) "ROOM TYPE:" = false) /\
  (forall pre l post r c,
     linesOf content = pre ++ l :: post ->
     readLines (initializeData, 0%nat) pre = Ok (r, c) ->
     c = connectionLineCount pre /\
     (isConnectionLine l = true ->
      forall roomConn, copyPayload "roomConn" 10 14 l = Ok roomConn ->
        readLine (r, c) l
        = if (c <? 6)%nat
          then Ok ({| roomName := roomName r; roomType := roomType r;
                      roomConnections :=
                        upd c (Some roomConn) (roomConnections r) |}, S c)
          else Fault (IndexOutOfBounds "roomConnections" (Z.of_nat c)))) /\
  ((connectionLineCount (linesOf content) <= 6)%nat ->
   (forall a i, readFile content <> Fault (IndexOutOfBounds a i)) /\
   (forall pre l post r c,
      linesOf content = pre ++ l :: post ->
      readLines (initializeData, 0%nat) pre = Ok (r, c) ->
      isConnectionLine l = true -> (c < 6)%nat)) /\
  ((6 < connectionLineCount (linesOf content))%nat ->
   (exists f, readFile content = Fault f) /\
   (forallb lineFits (linesOf content) = true ->
    readFile content = Fault (IndexOutOfBounds "roomConnections" 6))).
Proof.
  split; [|split; [|split]].
  - intros l. unfold isConnectionLine, classify. cbv zeta.
    destruct (strstr (cstring l) "ROOM NAME:");
      destruct (strstr (cstring l) "ROOM TYPE:");
      destruct (strstr (cstring l) "CONNECTION");
      split; try discriminate; try tauto; intros (? & ? & ?); discriminate.
  - intros pre l post r c Hsplit Hpre.
    apply readLines_connNumber in Hpre. split; [exact Hpre|].
    intros Hk roomConn Hcopy. unfold readLine, isConnectionLine in *.
    destruct (classify l); try discriminate.
    rewrite Hcopy. reflexivity.
  - intros Hcount. split.
    + intros a i H. unfold readFile in H.
      destruct (readLines (initializeData, 0%nat) (linesOf content))
        as [st|f] eqn:E; cbn [bind] in H; [discriminate|].
      inversion H; subst f. apply readLines_index_fault in E. lia.
    + intros pre l post r c Hsplit Hpre Hk.
      apply readLines_connNumber in Hpre.
      rewrite Hsplit in Hcount. unfold connectionLineCount in *.
      rewrite filter_app, length_app in Hcount.
      cbn [filter] in Hcount. rewrite Hk in Hcount. cbn [length] in Hcount.
      lia.
  - intros Hcount.
    destruct (readLines_seventh (linesOf content) initializeData 0
                ltac:(lia) ltac:(lia)) as [[f Hf] Hfit].
    unfold readFile. split.
    + exists f. rewrite Hf. reflexivity.
    + intros Hall. rewrite (Hfit Hall). reflexivity.
Qed.

Lemma connection_index_in_bounds_witness :
  let seven := {| recName := "Attic";
                  recConnections := ["Dungeon"; "Barracks"; "Garden"; "Game";
                                     "Medical"; "Corridor"; "Kitchen"];
                  recType := "MID_ROOM" |} in
  let cut := ("CONNECTION" ++ String "000" "ROOM NAME:" ++ newline)%string in
  (connectionLineCount (linesOf (serializeRoom seven)) = 7%nat /\
   readFile (serializeRoom seven)
   = Fault (IndexOutOfBounds "roomConnections" 6)) /\
  (isConnectionLine cut = true /\
   readFile (cut ++ cut ++ cut ++ cut ++ cut ++ cut ++ cut)%string
   = Fault (IndexOutOfBounds "roomConnections" 6)).
Proof.
  cbv zeta. split; (split; [vm_compute; reflexivity|]).
  - apply (proj2 (proj2 (proj2 (connection_index_in_bounds _)))).
    + vm_compute. lia.
    + vm_compute. reflexivity.
  - apply (proj2 (proj2 (proj2 (connection_index_in_bounds _)))).
    + vm_compute. lia.
    + vm_compute. reflexivity.
Defined.

End RoomFileProofs.

(** * The game loop *)

Module GameProofs.
Import Adventure.
Local Open Scope string_scope.
Local Open Scope list_scope.

(** ** Reading a line typed at the prompt *)

(** What [readInput] does with a line of text that is read whole. *)
Lemma readInput_line (line rest : string) :
  hasNewline line = false -> noNul line -> (String.length line <= 254)%nat ->
  readInput (line ++ newline ++ rest)%string
  = if (String.length line <=? 8)%nat then Ok (line, rest)
    else Fault (BufferOverflow "userInputRoom").
Proof.
  intros Hnl Hnul Hlen. unfold readInput, fgets.
  destruct (line ++ newline ++ rest)%string eqn:E;
    [destruct line; discriminate|].
  rewrite <- E. change (256 - 1)%nat with 255%nat.
  rewrite readChars_line by (auto; lia).
  unfold strlen. rewrite cstring_line by exact Hnul.
  rewrite length_append. cbn [String.length newline BuildRooms.newline].
  destruct (Nat.leb_spec 10 (String.length line + 1));
    destruct (Nat.leb_spec (String.length line) 8); try lia; [reflexivity|].
  destruct (Nat.eqb_spec (String.length line + 1) 0); [lia|].
  replace (String.length line + 1 - 1)%nat with (String.length line) by lia.
  rewrite substring_prefix. reflexivity.
Qed.

Lemma readInput_typed (name rest : string) :
  typedName name ->
  readInput (name ++ newline ++ rest)%string = Ok (name, rest).
Proof.
  intros (Hlen & Hnl & Hnul). rewrite readInput_line by (auto; lia).
  destruct (Nat.leb_spec (String.length name) 8); [reflexivity | lia].
Qed.

(** Every name of the pool can be typed. *)
Lemma pool_names_typed (name : string) :
  In name BuildRooms.rooms -> typedName name.
Proof.
  intros H. cbn in H.
  repeat (destruct H as [<-|H];
          [split; [cbn; lia | split; reflexivity]|]).
  destruct H.
Qed.

(** Whatever string [fgets] left in the buffer, under ten bytes, is
    compared without its last byte, newline or not. *)
Lemma readInput_drops_last (input buffer rest : string) :
  fgets 256 input = Some (buffer, rest) ->
  (0 < strlen buffer < 10)%nat ->
  readInput input
  = Ok (substring 0 (strlen buffer - 1) (cstring buffer), rest).
Proof.
  intros Hread Hlen. unfold readInput. rewrite Hread.
  destruct (Nat.leb_spec 10 (strlen buffer)); [lia|].
  destruct (Nat.eqb_spec (strlen buffer) 0); [lia|]. reflexivity.
Qed.

(** ** Matching the input against the connections *)

Lemma terminated_firstn (n : nat) (conns : list (option chars)) :
  Forall terminated conns -> Forall terminated (firstn n conns).
Proof.
  intros H. rewrite <- (firstn_skipn n conns) in H.
  apply Forall_app in H as [H _]. exact H.
Qed.

Lemma matchConnection_found (roomArr : list room)
    (conns : list (option chars)) (input : string)
    (st : nat * bool * nat * list string) :
  Forall terminated conns ->
  In input (connectionNames conns) ->
  matchConnection roomArr conns input st = enterRoom roomArr input st.
Proof.
  induction conns as [|[[conn|bytes]|] conns IH]; intros Ht;
    cbn [connectionNames In matchConnection strcmpBuffer bind]; try tauto.
  - inversion Ht; subst. intros [->|Hin].
    + unfold strcmp0. rewrite String.eqb_refl. reflexivity.
    + unfold strcmp0. destruct (String.eqb_spec conn input); auto.
  - inversion Ht as [|? ? Hbad]. destruct Hbad.
Qed.

Lemma matchConnection_missing (roomArr : list room)
    (conns : list (option chars)) (input : string)
    (st : nat * bool * nat * list string) :
  Forall terminated conns ->
  ~ In input (connectionNames conns) ->
  matchConnection roomArr conns input st = Ok st.
Proof.
  induction conns as [|[[conn|bytes]|] conns IH]; intros Ht;
    cbn [connectionNames In matchConnection strcmpBuffer bind];
    try reflexivity.
  - inversion Ht; subst. intros Hnot. unfold strcmp0.
    destruct (String.eqb_spec conn input).
    + exfalso. apply Hnot. left; assumption.
    + apply IH; [assumption|]. intros Hin. apply Hnot. right; assumption.
  - inversion Ht as [|? ? Hbad]. destruct Hbad.
Qed.

Lemma enterRoom_fold (roomArr : list room) (input : string) (dest : nat)
    (l : list nat) :
  roomsLoaded roomArr -> roomCalled roomArr input dest ->
  NoDup l -> (forall roomNum, In roomNum l -> (roomNum < 7)%nat) ->
  forall cur found steps visited,
    fold_left
      (fun acc roomNum =>
         '(currentRoom, roomFound, stepCount, visitedRooms) <- acc ;;
         same <- strcmp0_ptr "roomName" (roomName (roomAt roomArr roomNum))
                   input ;;
         if same
         then Ok (roomNum, true, S stepCount, visitedRooms ++ [input])
         else Ok (currentRoom, roomFound, stepCount, visitedRooms))
      l (Ok (cur, found, steps, visited))
    = if in_dec Nat.eq_dec dest l
      then Ok (dest, true, S steps, visited ++ [input])
      else Ok (cur, found, steps, visited).
Proof.
  intros Hloaded [Hdest Huniq] Hnd Hrange.
  induction l as [|roomNum l IH]; intros cur found steps visited;
    [reflexivity|].
  inversion Hnd as [|? ? Hnotin Hnd']; subst.
  cbn [fold_left bind].
  assert (Hlt : (roomNum < 7)%nat) by (apply Hrange; left; reflexivity).
  destruct (proj1 (Hloaded roomNum Hlt)) as [name Hname].
  rewrite Hname. cbn [text strcmp0_ptr strcmpBuffer bind]. unfold strcmp0.
  specialize (IH Hnd' (fun r Hr => Hrange r (or_intror Hr))).
  destruct (String.eqb_spec name input) as [->|Hne].
  - apply (Huniq roomNum Hlt) in Hname. subst roomNum.
    rewrite IH.
    destruct (in_dec Nat.eq_dec dest l) as [Hin|_]; [contradiction|].
    destruct (in_dec Nat.eq_dec dest (dest :: l)) as [_|Hout];
      [reflexivity | exfalso; apply Hout; left; reflexivity].
  - rewrite IH.
    assert (Hneq : roomNum <> dest).
    { intros ->. apply Hne.
      pose proof (proj2 (Huniq dest Hdest) eq_refl) as Hd.
      unfold text in *. congruence. }
    destruct (in_dec Nat.eq_dec dest l) as [Hin|Hout];
      destruct (in_dec Nat.eq_dec dest (roomNum :: l)) as [Hin'|Hout'];
      try reflexivity.
    + exfalso. apply Hout'. right; exact Hin.
    + destruct Hin' as [E|Hin']; [congruence | contradiction].
Qed.

Lemma enterRoom_called (roomArr : list room) (input : string) (dest : nat)
    (cur : nat) (found : bool) (steps : nat) (visited : list string) :
  roomsLoaded roomArr -> roomCalled roomArr input dest ->
  enterRoom roomArr input (cur, found, steps, visited)
  = Ok (dest, true, S steps, visited ++ [input]).
Proof.
  intros Hloaded Hcalled. unfold enterRoom.
  rewrite (enterRoom_fold roomArr input dest (seq 0 7) Hloaded Hcalled).
  - destruct (in_dec Nat.eq_dec dest (seq 0 7)) as [_|Hout]; [reflexivity|].
    exfalso. apply Hout. apply in_seq. destruct Hcalled. lia.
  - apply seq_NoDup.
  - intros roomNum Hin. apply in_seq in Hin. lia.
Qed.

Lemma showConnections_terminated (conns : list (option chars)) :
  Forall terminated conns -> exists shown, showConnections conns = Ok shown.
Proof.
  induction conns as [|[[conn|bytes]|] conns IH]; intros Ht;
    cbn [showConnections deref bind]; eauto.
  - inversion Ht; subst. destruct IH as [more Hmore]; [assumption|].
    rewrite Hmore. cbn [bind]. eauto.
  - inversion Ht as [|? ? Hbad]. destruct Hbad.
Qed.

Lemma showRoom_loaded (roomArr : list room) (roomNum : nat) :
  roomsLoaded roomArr -> (roomNum < 7)%nat ->
  exists shown, showRoom (roomAt roomArr roomNum) = Ok shown.
Proof.
  intros Hloaded Hlt. destruct (Hloaded roomNum Hlt) as ([name Hname] & _ & Ht).
  unfold showRoom. rewrite Hname. cbn [text deref bind].
  destruct (showConnections_terminated _ (terminated_firstn 6 _ Ht))
    as [shown Hshown].
  rewrite Hshown. cbn [bind]. eauto.
Qed.

Lemma shown_before_prompt (roomArr : list room) (st : game) :
  roomsLoaded roomArr -> (currentRoom st < 7)%nat ->
  exists shown,
    (if strcmp0 (userInputRoom st) "time" then Ok []
     else showRoom (roomAt roomArr (currentRoom st))) = Ok shown.
Proof.
  intros Hloaded Hlt. destruct (strcmp0 (userInputRoom st) "time"); [eauto|].
  apply showRoom_loaded; assumption.
Qed.

(** ** One accepted move *)

Lemma gameStep_move (times : nat -> string) (roomArr : list room) (st : game)
    (name rest : string) (next : nat) :
  roomsLoaded roomArr -> (currentRoom st < 7)%nat ->
  typedName name -> connectsTo roomArr (currentRoom st) name ->
  roomCalled roomArr name next ->
  stdin st = (name ++ newline ++ rest)%string ->
  exists shown type,
    roomType (roomAt roomArr next) = text type /\
    gameStep times roomArr st
    = Ok ({| currentRoom := next;
             stepCount := S (stepCount st);
             userInputRoom := name;
             visitedRooms := visitedRooms st ++ [name];
             stdin := rest;
             stdout := (stdout st ++ shown ++ ["WHERE TO? >"; newline])
                       ++ (if strcmp0 type "END_ROOM"
                           then victory (S (stepCount st))
                                  (visitedRooms st ++ [name])
                           else []);
             timeCalls := timeCalls st |},
          if strcmp0 type "END_ROOM" then Won else Playing).
Proof.
  intros Hloaded Hcur Hname Hconn Hcalled Hin.
  destruct (shown_before_prompt roomArr st Hloaded Hcur) as [shown Hshown].
  destruct (proj1 (proj2 (Hloaded next (proj1 Hcalled)))) as [type Htype].
  exists shown, type. split; [exact Htype|].
  unfold gameStep. rewrite Hshown. cbn [bind].
  rewrite Hin, readInput_typed by exact Hname. cbn [bind].
  rewrite matchConnection_found
    by (auto; apply terminated_firstn; apply (Hloaded _ Hcur)).
  rewrite (enterRoom_called roomArr name next) by assumption.
  cbn [bind negb andb]. rewrite Htype.
  cbn [text strcmp0_ptr strcmpBuffer bind].
  destruct (strcmp0 type "END_ROOM"); reflexivity.
Qed.

(** ** The start room *)

Lemma findStart_fault (roomArr : list room) (l : list nat) (f : fault) :
  fold_left
    (fun found roomNum =>
       currentRoom <- found ;;
       isStart <- strcmp0_ptr "roomType" (roomType (roomAt roomArr roomNum))
                    "START_ROOM" ;;
       Ok (if isStart then Some roomNum else currentRoom))
    l (Fault f) = Fault f.
Proof. induction l as [|x l IH]; cbn [fold_left bind]; auto. Qed.

Lemma findStart_fold (roomArr : list room) (l : list nat) :
  forall (cur : option nat) (start : nat),
    fold_left
      (fun found roomNum =>
         currentRoom <- found ;;
         isStart <- strcmp0_ptr "roomType" (roomType (roomAt roomArr roomNum))
                      "START_ROOM" ;;
         Ok (if isStart then Some roomNum else currentRoom))
      l (Ok cur) = Ok (Some start) ->
    cur = Some start \/
    (In start l /\ roomType (roomAt roomArr start) = text "START_ROOM").
Proof.
  induction l as [|roomNum l IH]; intros cur start H; cbn [fold_left bind] in H.
  - inversion H; auto.
  - destruct (roomType (roomAt roomArr roomNum)) as [[type|bytes]|] eqn:Etype;
      cbn [strcmp0_ptr strcmpBuffer bind] in H.
    3:{ rewrite findStart_fault in H. discriminate. }
    + unfold strcmp0 in H.
      destruct (String.eqb_spec type "START_ROOM") as [->|Hne];
        apply IH in H as [H|[Hin Hst]]; auto.
      * inversion H; subst. right. split; [left; reflexivity | exact Etype].
      * right. split; [right; exact Hin | exact Hst].
      * right. split; [right; exact Hin | exact Hst].
    + destruct (prefix bytes "START_ROOM"); cbn [bind] in H;
        [rewrite findStart_fault in H; discriminate|].
      apply IH in H as [H|[Hin Hst]]; auto.
      right. split; [right; exact Hin | exact Hst].
Qed.

Lemma findStart_start (roomArr : list room) (start : nat) :
  findStart roomArr = Ok (Some start) ->
  (start < 7)%nat /\ roomType (roomAt roomArr start) = text "START_ROOM".
Proof.
  intros H. apply findStart_fold in H as [H|[Hin Hst]]; [discriminate|].
  apply in_seq in Hin. split; [lia | exact Hst].
Qed.

(** ** A whole path *)

Lemma isEndRoom_strcmp (roomArr : list room) (roomNum : nat) (type : string) :
  roomType (roomAt roomArr roomNum) = text type ->
  (strcmp0 type "END_ROOM" = true <-> isEndRoom roomArr roomNum).
Proof.
  intros Htype. unfold isEndRoom, strcmp0. rewrite Htype. unfold text.
  destruct (String.eqb_spec type "END_ROOM"); split; intros H;
    try reflexivity; try discriminate; congruence.
Qed.

Lemma gameLoop_path (times : nat -> string) (roomArr : list room)
    (from dest : nat) (path : list string) :
  roomsLoaded roomArr ->
  leadsTo roomArr from path dest ->
  forall (fuel : nat) (st : game) (rest : string),
    (length path <= fuel)%nat ->
    currentRoom st = from -> (from < 7)%nat -> ~ isEndRoom roomArr from ->
    stdin st = typedLines path rest ->
    exists final shown,
      gameLoop fuel times roomArr st = Ok final /\
      currentRoom final = dest /\
      stepCount final = (stepCount st + length path)%nat /\
      visitedRooms final = visitedRooms st ++ path /\
      stdin final = rest /\
      stdout final
      = shown ++ victory (stepCount final) (visitedRooms final).
Proof.
  intros Hloaded Hpath.
  induction Hpath as [from dest name Hname Hconn Hcalled Hend
                     |from next dest name names Hname Hconn Hcalled Hmid
                        Hrest IH];
    intros fuel st rest Hfuel Hcur Hlt Hnotend Hin;
    (destruct fuel as [|fuel]; [cbn in Hfuel; lia|]);
    cbn [gameLoop typedLines] in *; subst from;
    destruct (proj1 (proj2 (Hloaded (currentRoom st) Hlt))) as [here Hhere];
    rewrite Hhere; cbn [text strcmp0_ptr strcmpBuffer bind];
    (destruct (strcmp0 here "END_ROOM") eqn:Ehere;
     [apply (isEndRoom_strcmp roomArr _ _ Hhere) in Ehere; contradiction|]).
  - destruct (gameStep_move times roomArr st name rest dest)
      as (shown & type & Htype & Hstep); auto.
    rewrite Hstep. cbn [bind].
    apply (isEndRoom_strcmp roomArr _ _ Htype) in Hend. rewrite Hend.
    eexists. eexists. split; [reflexivity|].
    cbn [currentRoom stepCount visitedRooms stdin stdout length].
    repeat split; try reflexivity; lia.
  - destruct (gameStep_move times roomArr st name (typedLines names rest)
                next) as (shown & type & Htype & Hstep); auto.
    rewrite Hstep. cbn [bind].
    destruct (strcmp0 type "END_ROOM") eqn:Etype;
      [apply (isEndRoom_strcmp roomArr _ _ Htype) in Etype; contradiction|].
    match goal with
    | |- exists final shown0, gameLoop _ _ _ ?st1 = _ /\ _ =>
        destruct (IH fuel st1 rest ltac:(cbn in Hfuel; lia) eq_refl
                    (proj1 Hcalled) Hmid eq_refl)
          as (final & shown' & Hloop & Hc & Hs & Hv & Hi & Ho)
    end.
    exists final. eexists. split; [exact Hloop|].
    cbn [currentRoom stepCount visitedRooms stdin stdout length] in *.
    rewrite Ho, Hv, Hs, Hc, Hi, <- app_assoc.
    repeat split; try reflexivity. lia.
Qed.

Lemma typedLines_length (path : list string) (rest : string) :
  (length path <= String.length (typedLines path rest))%nat.
Proof.
  induction path as [|name path IH]; cbn [length typedLines]; [lia|].
  rewrite !length_append. cbn [String.length newline BuildRooms.newline]. lia.
Qed.

(** ** The start room of a game the builder made *)

Lemma findStart_only (roomArr : list room) (start : nat) (l : list nat) :
  roomsLoaded roomArr ->
  (forall i, (i < 7)%nat ->
     (roomType (roomAt roomArr i) = text "START_ROOM" <-> i = start)) ->
  (forall i, In i l -> (i < 7)%nat) ->
  forall cur,
    fold_left
      (fun found roomNum =>
         currentRoom <- found ;;
         isStart <- strcmp0_ptr "roomType" (roomType (roomAt roomArr roomNum))
                      "START_ROOM" ;;
         Ok (if isStart then Some roomNum else currentRoom))
      l (Ok cur)
    = Ok (if in_dec Nat.eq_dec start l then Some start else cur).
Proof.
  intros Hloaded Hstart. induction l as [|i l IH]; intros Hl cur;
    [reflexivity|].
  cbn [fold_left bind].
  assert (Hi : (i < 7)%nat) by (apply Hl; left; reflexivity).
  destruct (proj1 (proj2 (Hloaded i Hi))) as [type Htype]. rewrite Htype.
  cbn [text strcmp0_ptr strcmpBuffer bind]. unfold strcmp0.
  rewrite IH by (intros j Hj; apply Hl; right; exact Hj).
  destruct (String.eqb_spec type "START_ROOM") as [->|Hne].
  - apply (Hstart i Hi) in Htype. subst i.
    destruct (in_dec Nat.eq_dec start (start :: l)) as [_|Hout];
      [|exfalso; apply Hout; left; reflexivity].
    destruct (in_dec Nat.eq_dec start l); reflexivity.
  - assert (Hneq : i <> start).
    { intros ->. apply Hne.
      pose proof (proj2 (Hstart start Hi) eq_refl) as E.
      unfold text in *. congruence. }
    destruct (in_dec Nat.eq_dec start l) as [Hin|Hout];
      destruct (in_dec Nat.eq_dec start (i :: l)) as [Hin'|Hout'];
      try reflexivity.
    + exfalso. apply Hout'. right. exact Hin.
    + destruct Hin' as [E|Hin']; [congruence | contradiction].
Qed.

Lemma wellBuilt_start (roomArr : list room) :
  wellBuilt roomArr ->
  exists start finish,
    (start < 7)%nat /\ (finish < 7)%nat /\ start <> finish /\
    findStart roomArr = Ok (Some start) /\
    (forall i, (i < 7)%nat ->
       (roomType (roomAt roomArr i) = text "START_ROOM" <-> i = start)) /\
    (forall i, (i < 7)%nat -> (isEndRoom roomArr i <-> i = finish)).
Proof.
  intros (Hloaded & _ & (start & finish & Hs & Hf & Hne & Htypes) & _).
  exists start, finish. split; [exact Hs|]. split; [exact Hf|].
  split; [exact Hne|].
  assert (Hstart : forall i, (i < 7)%nat ->
            (roomType (roomAt roomArr i) = text "START_ROOM" <-> i = start)).
  { intros i Hi. rewrite (Htypes i Hi). unfold text.
    destruct (Nat.eqb_spec i start) as [->|Hn]; [tauto|].
    destruct (i =? finish)%nat; split; intros E; try discriminate;
      contradiction. }
  split; [|split; [exact Hstart|]].
  - unfold findStart.
    rewrite (findStart_only roomArr start (seq 0 7) Hloaded Hstart).
    + destruct (in_dec Nat.eq_dec start (seq 0 7)) as [_|Hout];
        [reflexivity|].
      exfalso. apply Hout. apply in_seq. lia.
    + intros i Hi. apply in_seq in Hi. lia.
  - intros i Hi. unfold isEndRoom. rewrite (Htypes i Hi). unfold text.
    destruct (Nat.eqb_spec i start) as [->|Hn].
    + split; [discriminate | intros E; congruence].
    + destruct (Nat.eqb_spec i finish) as [->|Hn'];
        split; intros E; try reflexivity; try discriminate; contradiction.
Qed.

(** In a game the builder made every room name can be typed and names one
    room. *)
Lemma wellBuilt_named (roomArr : list room) (name : string) (next : nat) :
  wellBuilt roomArr -> (next < 7)%nat ->
  roomName (roomAt roomArr next) = text name ->
  typedName name /\ roomCalled roomArr name next.
Proof.
  intros (_ & Hnames & _) Hnext Hname.
  destruct (Hnames next Hnext) as [Hpool Hcalled].
  unfold nameOf in Hpool, Hcalled. rewrite Hname in Hpool, Hcalled.
  cbn [text] in Hpool, Hcalled.
  split; [apply pool_names_typed; exact Hpool | exact Hcalled].
Qed.

Lemma validPath_leadsTo (roomArr : list room) (from dest : nat)
    (path : list string) :
  wellBuilt roomArr -> validPath roomArr from path dest ->
  leadsTo roomArr from path dest.
Proof.
  intros Hwell Hpath.
  induction Hpath as [from dest name Hconn Hdest Hname Hend
                     |from next dest name names Hconn Hnext Hname Hmid
                        Hrest IH].
  - destruct (wellBuilt_named roomArr name dest Hwell Hdest Hname).
    apply leads_last; assumption.
  - destruct (wellBuilt_named roomArr name next Hwell Hnext Hname).
    apply (leads_move roomArr from next dest); assumption.
Qed.

(** C5: a session on a game the graph builder made, driven by a sequence
    of valid connection names that leads from the START room to the END
    room, each typed on a line of its own.  Each accepted move makes the
    room named the current room and appends its name to the visited path;
    at the END room the runner prints the congratulation, a step count
    equal to the length of the sequence, and the names in the order
    typed. *)
Theorem scripted_session_wins (times : nat -> string) (roomArr : list room)
    (start dest : nat) (path : list string) (rest : string) :
  wellBuilt roomArr ->
  (start < 7)%nat ->
  roomType (roomAt roomArr start) = Some (Text "START_ROOM") ->
  validPath roomArr start path dest ->
  (forall st name tail next,
     (currentRoom st < 7)%nat ->
     connectsTo roomArr (currentRoom st) name ->
     (next < 7)%nat -> roomName (roomAt roomArr next) = Some (Text name) ->
     stdin st = (name ++ newline ++ tail)%string ->
     exists st' outcome,
       gameStep times roomArr st = Ok (st', outcome) /\
       currentRoom st' = next /\
       visitedRooms st' = visitedRooms st ++ [name] /\
       stepCount st' = S (stepCount st) /\
       stdin st' = tail) /\
  exists final shown,
    runGameDriver times roomArr (typedLines path rest) = Ok final /\
    currentRoom final = dest /\
    roomType (roomAt roomArr dest) = Some (Text "END_ROOM") /\
    stepCount final = length path /\
    visitedRooms final = path /\
    stdin final = rest /\
    stdout final
    = shown
      ++ [("YOU HAVE FOUND THE END ROOM. CONGRATULATIONS!" ++ newline)%string;
          ("YOU TOOK " ++ NilEmpty.string_of_uint (Nat.to_uint (length path))
           ++ " STEPS. YOUR PATH TO VICTORY WAS:" ++ newline)%string]
      ++ map (fun name => (name ++ newline)%string) path.
Proof.
  intros Hwell Hlt Htype Hvalid.
  pose proof (proj1 Hwell) as Hloaded.
  pose proof (validPath_leadsTo roomArr start dest path Hwell Hvalid)
    as Hpath.
  split.
  - intros st name tail next Hcur Hconn Hnext Hname Hin.
    destruct (wellBuilt_named roomArr name next Hwell Hnext Hname)
      as [Htyped Hcalled].
    destruct (gameStep_move times roomArr st name tail next)
      as (shown & type & _ & Hstep); auto.
    eexists. eexists. split; [exact Hstep|]. repeat split.
  - destruct (wellBuilt_start roomArr Hwell)
      as (start' & finish & _ & _ & _ & Hfind & Hstart & _).
    apply (Hstart start Hlt) in Htype as Hsame. subst start'.
    unfold runGameDriver. rewrite Hfind. cbn [bind].
    assert (Hnotend : ~ isEndRoom roomArr start)
      by (unfold isEndRoom, text; rewrite Htype; discriminate).
    pose proof (typedLines_length path rest) as Hfuel.
    destruct (gameLoop_path times roomArr start dest path Hloaded Hpath
                (S (String.length (typedLines path rest)))
                {| currentRoom := start; stepCount := 0; userInputRoom := "";
                   visitedRooms := []; stdin := typedLines path rest;
                   stdout := []; timeCalls := 0 |}
                rest ltac:(lia) eq_refl Hlt Hnotend eq_refl)
      as (final & shown & Hloop & Hc & Hs & Hv & Hi & Ho).
    cbn [stepCount visitedRooms app Nat.add] in *.
    exists final, shown. split; [exact Hloop|].
    split; [exact Hc|]. split.
    { clear - Hpath. induction Hpath; assumption. }
    split; [exact Hs|]. split; [exact Hv|]. split; [exact Hi|].
    rewrite Ho, Hs, Hv. unfold victory. rewrite firstn_all. reflexivity.
Qed.

Lemma sampleRooms_loaded : roomsLoaded sampleRooms.
Proof.
  intros roomNum Hlt.
  do 7 (destruct roomNum as [|roomNum];
        [split; [eexists; reflexivity|];
         split; [eexists; reflexivity|];
         repeat (constructor; [exact I|]); constructor|]).
  lia.
Qed.

Lemma sampleRooms_called (name : string) (roomNum : nat) :
  (roomNum < 7)%nat -> roomName (roomAt sampleRooms roomNum) = text name ->
  roomCalled sampleRooms name roomNum.
Proof.
  intros Hlt Hname. split; [exact Hlt|]. intros other Hother.
  revert Hname.
  do 7 (destruct roomNum as [|roomNum];
        [intros Hname; inversion Hname; subst name; clear Hname;
         do 7 (destruct other as [|other];
               [split; intros H; first [reflexivity | discriminate]|]);
         lia|]).
  lia.
Qed.

Ltac some_room tac :=
  first [ exists 0%nat; tac | exists 1%nat; tac | exists 2%nat; tac
        | exists 3%nat; tac | exists 4%nat; tac | exists 5%nat; tac
        | exists 6%nat; tac ].

(** The sample rooms are a game as the graph builder makes them. *)
Lemma sampleRooms_wellBuilt : wellBuilt sampleRooms.
Proof.
  split; [exact sampleRooms_loaded|].
  split; [|split; [|split; [|split]]].
  - intros i Hi.
    do 7 (destruct i as [|i];
          [split; [cbn; tauto | apply sampleRooms_called; [lia | reflexivity]]
          |]).
    lia.
  - exists 0%nat, 2%nat. split; [lia|]. split; [lia|].
    split; [discriminate|]. intros i Hi.
    do 7 (destruct i as [|i]; [reflexivity|]). lia.
  - intros i Hi.
    do 7 (destruct i as [|i];
          [split; [cbn; lia|];
           split; [repeat constructor; cbn; intuition discriminate|];
           intros name H; cbn in H;
           repeat (destruct H as [<-|H];
                   [some_room ltac:(split; [lia|]; split;
                                    [discriminate | reflexivity])|]);
           destruct H|]).
    lia.
  - intros i j Hi Hj.
    do 7 (destruct i as [|i];
          [do 7 (destruct j as [|j];
                 [cbn; intros H;
                  repeat (destruct H as [H|H]; [try discriminate H|]);
                  tauto|]);
           lia|]).
    lia.
  - intros i j Hi Hj Hij.
    do 7 (destruct i as [|i];
          [do 7 (destruct j as [|j];
                 [first [ contradiction
                        | left; cbn; tauto
                        | right;
                          some_room ltac:(split; [lia|]; split; cbn; tauto) ]
                 |]);
           lia|]).
    lia.
Qed.

Lemma scripted_session_wins_witness :
  (forall st name tail next,
     (currentRoom st < 7)%nat ->
     connectsTo sampleRooms (currentRoom st) name ->
     (next < 7)%nat -> roomName (roomAt sampleRooms next) = Some (Text name) ->
     stdin st = (name ++ newline ++ tail)%string ->
     exists st' outcome,
       gameStep sampleTimes sampleRooms st = Ok (st', outcome) /\
       currentRoom st' = next /\
       visitedRooms st' = visitedRooms st ++ [name] /\
       stepCount st' = S (stepCount st) /\
       stdin st' = tail) /\
  exists final shown,
    runGameDriver sampleTimes sampleRooms
      (typedLines ["Kitchen"; "Corridor"; "Game"; "Garden"] "")
    = Ok final /\
    currentRoom final = 2%nat /\
    roomType (roomAt sampleRooms 2) = Some (Text "END_ROOM") /\
    stepCount final = length ["Kitchen"; "Corridor"; "Game"; "Garden"] /\
    visitedRooms final = ["Kitchen"; "Corridor"; "Game"; "Garden"] /\
    stdin final = "" /\
    stdout final
    = shown
      ++ [("YOU HAVE FOUND THE END ROOM. CONGRATULATIONS!" ++ newline)%string;
          ("YOU TOOK "
           ++ NilEmpty.string_of_uint
                (Nat.to_uint
                   (length ["Kitchen"; "Corridor"; "Game"; "Garden"]))
           ++ " STEPS. YOUR PATH TO VICTORY WAS:" ++ newline)%string]
      ++ map (fun name => (name ++ newline)%string)
           ["Kitchen"; "Corridor"; "Game"; "Garden"].
Proof.
  apply (scripted_session_wins sampleTimes sampleRooms 0 2
           ["Kitchen"; "Corridor"; "Game"; "Garden"] "").
  - exact sampleRooms_wellBuilt.
  - lia.
  - reflexivity.
  - apply (path_move sampleRooms 0 6 2);
      [cbn; tauto | lia | reflexivity | unfold isEndRoom; cbn; discriminate |].
    apply (path_move sampleRooms 6 5 2);
      [cbn; tauto | lia | reflexivity | unfold isEndRoom; cbn; discriminate |].
    apply (path_move sampleRooms 5 3 2);
      [cbn; tauto | lia | reflexivity | unfold isEndRoom; cbn; discriminate |].
    apply (path_last sampleRooms 3 2);
      [cbn; tauto | lia | reflexivity | reflexivity].
Defined.

(** ** Input that is not understood *)

(** A line of at most eight characters and its newline that names no
    connection and is not "time": the runner apologises and nothing else
    changes. *)
Lemma gameStep_unknown (times : nat -> string) (roomArr : list room)
    (st : game) (line rest : string) :
  roomsLoaded roomArr -> (currentRoom st < 7)%nat ->
  typedName line -> ~ connectsTo roomArr (currentRoom st) line ->
  line <> "time" ->
  stdin st = (line ++ newline ++ rest)%string ->
  exists shown,
    gameStep times roomArr st
    = Ok ({| currentRoom := currentRoom st;
             stepCount := stepCount st;
             userInputRoom := line;
             visitedRooms := visitedRooms st;
             stdin := rest;
             stdout := (stdout st ++ shown ++ ["WHERE TO? >"; newline])
                       ++ [apology];
             timeCalls := timeCalls st |}, Playing).
Proof.
  intros Hloaded Hcur Hline Hconn Htime Hin.
  destruct (shown_before_prompt roomArr st Hloaded Hcur) as [shown Hshown].
  exists shown. unfold gameStep. rewrite Hshown. cbn [bind].
  rewrite Hin, readInput_typed by exact Hline. cbn [bind].
  rewrite matchConnection_missing
    by (auto; apply terminated_firstn; apply (Hloaded _ Hcur)).
  cbn [bind negb andb].
  unfold strcmp0. destruct (String.eqb_spec line "time"); [contradiction|].
  reflexivity.
Qed.

(** After the apology a valid move from the same room is accepted. *)
Lemma unknown_then_move (times : nat -> string) (roomArr : list room)
    (st : game) (line name rest : string) (next : nat) :
  roomsLoaded roomArr -> (currentRoom st < 7)%nat ->
  typedName line -> ~ connectsTo roomArr (currentRoom st) line ->
  line <> "time" ->
  typedName name -> connectsTo roomArr (currentRoom st) name ->
  roomCalled roomArr name next ->
  stdin st = (line ++ newline ++ name ++ newline ++ rest)%string ->
  exists st1 st2 outcome,
    gameStep times roomArr st = Ok (st1, Playing) /\
    currentRoom st1 = currentRoom st /\
    stepCount st1 = stepCount st /\
    visitedRooms st1 = visitedRooms st /\
    last (stdout st1) "" = apology /\
    gameStep times roomArr st1 = Ok (st2, outcome) /\
    currentRoom st2 = next /\
    stepCount st2 = S (stepCount st) /\
    visitedRooms st2 = visitedRooms st ++ [name].
Proof.
  intros Hloaded Hcur Hline Hconn Htime Hname Hto Hcalled Hin.
  destruct (gameStep_unknown times roomArr st line
              (name ++ newline ++ rest)%string Hloaded Hcur Hline Hconn
              Htime Hin) as [shown Hstep].
  match type of Hstep with _ = Ok (?s, _) => set (st1 := s) in * end.
  destruct (gameStep_move times roomArr st1 name rest next)
    as (shown' & type & _ & Hmove); auto.
  exists st1. eexists. eexists. split; [exact Hstep|].
  split; [reflexivity|]. split; [reflexivity|]. split; [reflexivity|].
  split; [apply last_last|].
  split; [exact Hmove|]. repeat split.
Qed.

(** ** What the input handling does with other lines *)

(** C8 at the inputs where the code departs from it.  A last line that
    ends without a newline loses its last character before the comparison;
    a line of ten bytes or more does not fit [userInputRoom]; a line with
    its newline is compared as typed, case and spaces kept. *)
Theorem input_loses_its_last_byte :
  readInput "Attic" = Ok ("Atti", "") /\
  readInput ("Observatory" ++ newline)%string
  = Fault (BufferOverflow "userInputRoom") /\
  readInput ("Attic" ++ newline)%string = Ok ("Attic", "") /\
  readInput ("attic " ++ newline)%string = Ok ("attic ", "") /\
  strcmp0 "Attic" "attic" = false /\ strcmp0 "Attic" "Attic " = false.
Proof. repeat split; reflexivity. Qed.

(** C7 at the inputs where the code departs from it, in the start room of
    the sample run (connections Barracks, Garden, Kitchen; Garden is the
    end room).  The last line "Gardenx", without a newline, names no
    connection and is not "time", yet it is taken as the move to Garden
    and no apology is printed; the line "Observatory" does not fit
    [userInputRoom]. *)
Theorem unknown_line_not_rejected :
  ~ connectsTo sampleRooms 0 "Gardenx" /\
  "Gardenx" <> "time" /\
  (exists final,
     runGameDriver sampleTimes sampleRooms "Gardenx" = Ok final /\
     currentRoom final = 2%nat /\ stepCount final = 1%nat /\
     visitedRooms final = ["Garden"] /\
     ~ In apology (stdout final)) /\
  runGameDriver sampleTimes sampleRooms
    ("Observatory" ++ newline ++ "Garden" ++ newline)%string
  = Fault (BufferOverflow "userInputRoom").
Proof.
  split; [|split; [|split]].
  - cbn. intros [H|[H|[H|[]]]]; discriminate.
  - discriminate.
  - eexists. split; [vm_compute; reflexivity|].
    repeat split. cbn [stdout In].
    intros H. repeat (destruct H as [H|H]; [discriminate|]). exact H.
  - vm_compute. reflexivity.
Qed.

End GameProofs.

(** * The directory selector *)

Module DirectoryProofs.
Import Adventure.
Local Open Scope string_scope.
Local Open Scope list_scope.
Local Open Scope Z_scope.

Lemma toInt_small (z : Z) : -2147483648 <= z < 2147483648 -> toInt z = z.
Proof.
  intros H. unfold toInt. rewrite Z.mod_small by lia. lia.
Qed.

Lemma examine_fault (l : list dirEntry) (f : fault) :
  fold_left (fun acc subDir => st <- acc ;; examineEntry st subDir)
    l (Fault f) = Fault f.
Proof. induction l as [|e l IH]; cbn [fold_left bind]; auto. Qed.

Lemma examineEntries_cons (e : dirEntry) (l : list dirEntry)
    (st : Z * string) :
  examineEntries (e :: l) st
  = (st' <- examineEntry st e ;; examineEntries l st').
Proof.
  unfold examineEntries. cbn [fold_left bind].
  destruct (examineEntry st e) as [st'|f]; cbn [bind];
    [reflexivity | apply examine_fault].
Qed.

Lemma examineEntries_app (l1 l2 : list dirEntry) (st : Z * string) :
  examineEntries (l1 ++ l2) st
  = (st' <- examineEntries l1 st ;; examineEntries l2 st').
Proof.
  revert st. induction l1 as [|e l1 IH]; intros st; [reflexivity|].
  cbn [app]. rewrite !examineEntries_cons.
  destruct (examineEntry st e) as [st'|f]; cbn [bind]; [apply IH|reflexivity].
Qed.

(** Entries that do not beat [newestModified] leave the state as it is. *)
Lemma examine_keeps (l : list dirEntry) (newestModified : Z)
    (dirName : string) :
  (forall e, In e l -> strstr (d_name e) dirPrefix = true ->
             toInt (st_mtime e) <= newestModified) ->
  examineEntries l (newestModified, dirName) = Ok (newestModified, dirName).
Proof.
  induction l as [|e l IH]; intros H; [reflexivity|].
  rewrite examineEntries_cons. unfold examineEntry.
  destruct (strstr (d_name e) dirPrefix) eqn:Ec.
  - specialize (H e (or_introl eq_refl) Ec) as He.
    destruct (Z.gtb_spec (toInt (st_mtime e)) newestModified); [lia|].
    cbn [bind]. apply IH. intros e' Hin. apply H. right; exact Hin.
  - cbn [bind]. apply IH. intros e' Hin. apply H. right; exact Hin.
Qed.

Lemma dirEntry_eq_dec (a b : dirEntry) : {a = b} + {a <> b}.
Proof. decide equality; [apply Z.eq_dec | apply string_dec]. Qed.

(** While no entry is newer than [newest] and every name fits [dirName],
    the state is below its time or already holds it. *)
Lemma examine_upto (newest : dirEntry) (l : list dirEntry) :
  (forall e, In e l -> strstr (d_name e) dirPrefix = true ->
             (String.length (d_name e) < 128)%nat /\
             (e <> newest -> toInt (st_mtime e) < toInt (st_mtime newest))) ->
  forall st,
    fst st < toInt (st_mtime newest)
    \/ st = (toInt (st_mtime newest), d_name newest) ->
    exists st',
      examineEntries l st = Ok st' /\
      (fst st' < toInt (st_mtime newest)
       \/ st' = (toInt (st_mtime newest), d_name newest)).
Proof.
  induction l as [|e l IH]; intros H st Hst; [exists st; auto|].
  rewrite examineEntries_cons.
  assert (Hstep : exists st1,
            examineEntry st e = Ok st1 /\
            (fst st1 < toInt (st_mtime newest)
             \/ st1 = (toInt (st_mtime newest), d_name newest))).
  { destruct st as [m n]. unfold examineEntry.
    destruct (strstr (d_name e) dirPrefix) eqn:Ec; [|eauto].
    destruct (Z.gtb_spec (toInt (st_mtime e)) m) as [Hgt|Hle]; [|eauto].
    destruct (H e (or_introl eq_refl) Ec) as [Hshort Hlow].
    destruct (Nat.leb_spec 128 (String.length (d_name e))); [lia|].
    eexists. split; [reflexivity|].
    destruct (dirEntry_eq_dec e newest) as [->|Hne]; [right; reflexivity|].
    left. cbn [fst]. auto. }
  destruct Hstep as (st1 & -> & Hst1). cbn [bind].
  apply IH; [|exact Hst1]. intros e' Hin. apply H. right; exact Hin.
Qed.

(** Where the selector does what its comment says: among the entries whose
    name contains the prefix, with names that fit [dirName[128]] and
    modification times from 0 to 2^31 - 1, the entry whose time is
    strictly greater than that of every other one is the one
    [mostRecentRooms] leaves in [dirName], in whatever order [readdir]
    returns the entries. *)
Lemma mostRecentRooms_newest (subDirs : list dirEntry) (newest : dirEntry) :
  In newest (candidates subDirs) ->
  (forall e, In e (candidates subDirs) ->
             (String.length (d_name e) < 128)%nat /\
             0 <= st_mtime e < 2147483648) ->
  (forall e, In e (candidates subDirs) -> e <> newest ->
             st_mtime e < st_mtime newest) ->
  mostRecentRooms (Some subDirs) = Ok (d_name newest).
Proof.
  intros Hin Hrange Hmax. unfold mostRecentRooms, candidates in *.
  assert (Hcand : forall e, In e subDirs ->
            strstr (d_name e) dirPrefix = true ->
            (String.length (d_name e) < 128)%nat /\
            toInt (st_mtime e) = st_mtime e /\ 0 <= st_mtime e /\
            (e <> newest -> st_mtime e < st_mtime newest)).
  { intros e He Hc.
    assert (Hf : In e (filter (fun subDir => strstr (d_name subDir) dirPrefix)
                         subDirs)) by (apply filter_In; auto).
    destruct (Hrange e Hf) as [Hshort Ht]. split; [exact Hshort|].
    split; [apply toInt_small; lia|].
    split; [lia | intros Hne; apply Hmax; assumption]. }
  apply filter_In in Hin as [Hin Hnewest].
  destruct (Hcand newest Hin Hnewest) as (Hshort & Hint & Hpos & _).
  clear Hrange Hmax.
  destruct (in_split _ _ Hin) as (before & after & ->).
  rewrite examineEntries_app.
  destruct (examine_upto newest before) with (st := (-1, ""))
    as (st1 & -> & Hst1).
  { intros e He Hc.
    destruct (Hcand e) as (Hs & -> & _ & Hm); auto; [apply in_or_app; auto|].
    split; [exact Hs|]. rewrite Hint. exact Hm. }
  { left. cbn [fst]. lia. }
  cbn [bind]. rewrite examineEntries_cons.
  assert (Hafter : forall e, In e after ->
            strstr (d_name e) dirPrefix = true ->
            toInt (st_mtime e) <= toInt (st_mtime newest)).
  { intros e He Hc.
    destruct (Hcand e) as (_ & -> & _ & Hm); auto;
      [apply in_or_app; right; right; exact He|].
    rewrite Hint. destruct (dirEntry_eq_dec e newest) as [->|Hne]; [lia|].
    specialize (Hm Hne). lia. }
  destruct Hst1 as [Hlt| ->].
  - destruct st1 as [m n]. cbn [fst] in Hlt. unfold examineEntry.
    rewrite Hnewest.
    destruct (Z.gtb_spec (toInt (st_mtime newest)) m); [|lia].
    destruct (Nat.leb_spec 128 (String.length (d_name newest))); [lia|].
    cbn [bind]. rewrite examine_keeps by exact Hafter. reflexivity.
  - unfold examineEntry. rewrite Hnewest.
    destruct (Z.gtb_spec (toInt (st_mtime newest)) (toInt (st_mtime newest)));
      [lia|].
    cbn [bind]. rewrite examine_keeps by exact Hafter. reflexivity.
Qed.

(** C6 at the inputs where the code departs from it.  The times are
    compared as [int] against a running maximum that starts at -1: of
    three rooms directories last modified before 1970 none is picked and
    [dirName] stays empty, and one modified 2^31 seconds after 1970 (in
    2038) loses to the older ones.  The name of every entry that beats the
    running maximum is copied into [dirName[128]] unchecked: a rooms
    directory with a longer name overruns it. *)
Theorem mostRecentRooms_misses_newest :
  mostRecentRooms
    (Some [ {| d_name := "trompj.rooms.1"; st_mtime := -30 |};
            {| d_name := "trompj.rooms.2"; st_mtime := -20 |};
            {| d_name := "trompj.rooms.3"; st_mtime := -10 |} ])
  = Ok "" /\
  mostRecentRooms
    (Some [ {| d_name := "trompj.rooms.1"; st_mtime := 100 |};
            {| d_name := "trompj.rooms.2"; st_mtime := 200 |};
            {| d_name := "trompj.rooms.3"; st_mtime := 2147483648 |} ])
  = Ok "trompj.rooms.2" /\
  mostRecentRooms
    (Some [ {| d_name := "trompj.rooms.1"; st_mtime := 100 |};
            {| d_name := "trompj.rooms.2"; st_mtime := 200 |};
            {| d_name :=
                 "trompj.rooms.0000000000000000000000000000000000000000000000000000000000000000000000000000000000000000000000000000000000000000003";
               st_mtime := 300 |} ])
  = Fault (BufferOverflow "dirName").
Proof. repeat split; vm_compute; reflexivity. Qed.

End DirectoryProofs.

(** * The time hand-off *)

Module TimeProofs.
Import Adventure.
Local Open Scope string_scope.
Local Open Scope list_scope.

Lemma single_worker (w x : workerPoint) (before after : list workerPoint) :
  [w] = before ++ x :: after -> before = [] /\ after = [] /\ w = x.
Proof.
  destruct before as [|y before]; cbn; intros H; inversion H; subst; auto.
  destruct before; discriminate.
Qed.

Lemma no_worker (x : workerPoint) (before after : list workerPoint) :
  [] = before ++ x :: after -> False.
Proof. destruct before; discriminate. Qed.

Ltac worker_cases :=
  repeat match goal with
         | H : workers ?s = _, H' : workers ?s = _ |- _ =>
             rewrite H in H'
         | H : [] = _ ++ _ :: _ |- _ => destruct (no_worker _ _ _ H)
         | H : [_] = _ ++ _ :: _ |- _ =>
             apply single_worker in H as (-> & -> & ->)
         | H : [] = _ ++ [_] |- _ => destruct (no_worker _ _ _ H)
         | H : [_] = _ ++ [_] |- _ =>
             apply single_worker in H as (-> & _ & ->)
         end.

(** Every transition keeps the invariant. *)
Lemma handoffStep_invariant (times : nat -> string) (s s' : handoff) :
  handoffInvariant times s -> handoffStep times s s' ->
  handoffInvariant times s'.
Proof.
  intros Hinv Hstep. unfold handoffInvariant in *.
  destruct Hstep;
    repeat match goal with
           | H : mainAt _ = _ |- _ => rewrite H in Hinv
           end;
    cbn [mainAt workers mutex timeFile clock printed requests spawned].
  - rewrite H. exact Hinv.
  - destruct Hinv as (Hw & Hm & Hs). repeat split; auto.
  - destruct Hinv as (Hw & Hm & Hs). repeat split; auto.
  - destruct Hinv as (Hw & Hm & Hs). split; [lia|].
    exists WorkerLocking. rewrite Hw. split; [reflexivity | exact Hm].
  - destruct Hinv as (Hs & w & Hw & Hcase). worker_cases.
    destruct Hcase as [Hm Hf]. repeat split; auto.
  - destruct Hinv as (Hw & Hm & Hs & Hf). repeat split; auto.
  - destruct Hinv as (Hw & Hm & Hs & Hf). repeat split; auto.
  - destruct (mainAt s);
      try (destruct Hinv as (Hw & _); worker_cases; fail).
    destruct Hinv as (Hs & w & Hw & Hcase). worker_cases.
    split; [exact Hs|]. exists WorkerOpening. cbn [app]. auto.
  - destruct (mainAt s);
      try (destruct Hinv as (Hw & _); worker_cases; fail).
    destruct Hinv as (Hs & w & Hw & Hcase). worker_cases.
    split; [exact Hs|]. exists WorkerWriting. cbn [app]. auto.
  - destruct (mainAt s);
      try (destruct Hinv as (Hw & _); worker_cases; fail).
    destruct Hinv as (Hs & w & Hw & Hcase). worker_cases.
    split; [exact Hs|]. exists WorkerClosing. cbn [app].
    split; [reflexivity|]. split; [exact Hcase|].
    exists (clock s). auto.
  - destruct (mainAt s);
      try (destruct Hinv as (Hw & _); worker_cases; fail).
    destruct Hinv as (Hs & w & Hw & Hcase). worker_cases.
    split; [exact Hs|]. exists WorkerUnlocking. cbn [app]. auto.
  - destruct (mainAt s);
      try (destruct Hinv as (Hw & _); worker_cases; fail).
    destruct Hinv as (Hs & w & Hw & Hcase). worker_cases.
    split; [exact Hs|]. exists WorkerReturned. cbn [app].
    split; [reflexivity|]. split; [reflexivity | apply Hcase].
Qed.

Lemma handoff_invariant (times : nat -> string) (timeFile : string)
    (s : handoff) :
  handoffReachable times timeFile s -> handoffInvariant times s.
Proof.
  induction 1 as [|s s' _ IH Hstep].
  - cbn. auto.
  - eapply handoffStep_invariant; eauto.
Qed.

(** No reachable state is stuck: the worker can always move on until it
    has returned, and then [pthread_join] returns. *)
Lemma handoff_progress (times : nat -> string) (s : handoff) :
  handoffInvariant times s ->
  exists s', handoffStep times s s' /\ s' <> s.
Proof.
  unfold handoffInvariant. intros Hinv.
  destruct (mainAt s) eqn:Emain.
  - eexists. split; [apply step_time_request; exact Emain|].
    intros E. apply (f_equal mainAt) in E. cbn in E. congruence.
  - destruct Hinv as (_ & Hm & _).
    eexists. split; [apply step_main_unlock; assumption|].
    intros E. apply (f_equal mainAt) in E. cbn in E. congruence.
  - eexists. split; [apply step_main_create; exact Emain|].
    intros E. apply (f_equal mainAt) in E. cbn in E. congruence.
  - destruct Hinv as (_ & w & Hw & Hcase). destruct w.
    + eexists. split;
        [apply (step_worker_lock times s [] []); assumption|].
      intros E. apply (f_equal workers) in E. cbn in E. congruence.
    + eexists. split;
        [apply (step_worker_open times s [] []); assumption|].
      intros E. apply (f_equal workers) in E. cbn in E. congruence.
    + eexists. split;
        [apply (step_worker_write times s [] []); assumption|].
      intros E. apply (f_equal workers) in E. cbn in E. congruence.
    + eexists. split;
        [apply (step_worker_close times s [] []); assumption|].
      intros E. apply (f_equal workers) in E. cbn in E. congruence.
    + destruct Hcase as [Hm _]. eexists. split;
        [apply (step_worker_unlock times s [] []); assumption|].
      intros E. apply (f_equal workers) in E. cbn in E. congruence.
    + eexists. split;
        [apply (step_main_join times s []); assumption|].
      intros E. apply (f_equal mainAt) in E. cbn in E. congruence.
  - destruct Hinv as (_ & Hm & _).
    eexists. split; [apply step_main_lock; assumption|].
    intros E. apply (f_equal mainAt) in E. cbn in E. congruence.
  - eexists. split; [apply step_main_read; exact Emain|].
    intros E. apply (f_equal mainAt) in E. cbn in E. congruence.
Qed.

(** C9: in every state an execution can reach, at most one worker thread
    is alive; a worker exists only while the main thread is inside
    [pthread_join], so none is left when the main thread reads the time
    file or is back at the prompt; every time request taken has spawned
    exactly one worker by then; when the main thread reads, the time file
    holds the whole line of the last write, and that line is what it
    prints; and no state is stuck. *)
Theorem one_worker_joined_before_read (times : nat -> string)
    (timeFile : string) (s : handoff) :
  handoffReachable times timeFile s ->
  (aliveWorkers s <= 1)%nat /\
  (mainAt s <> Joining -> workers s = []) /\
  (mainAt s = AtPrompt -> spawned s = requests s) /\
  (requests s = spawned s \/ requests s = S (spawned s)) /\
  (mainAt s = Reading ->
   fileWritten times s /\
   forall s', handoffStep times s s' ->
     exists k, clock s = S k /\
               printed s' = printed s ++ readTimeFile (times k) /\
               mainAt s' = AtPrompt) /\
  (exists s', handoffStep times s s' /\ s' <> s).
Proof.
  intros Hreach. pose proof (handoff_invariant _ _ _ Hreach) as Hinv.
  pose proof (handoff_progress times s Hinv) as Hprogress.
  unfold handoffInvariant, aliveWorkers in *.
  destruct (mainAt s) eqn:Emain.
  - destruct Hinv as (Hw & Hm & Hs). rewrite Hw. cbn.
    repeat split; auto; try discriminate.
  - destruct Hinv as (Hw & Hm & Hs). rewrite Hw. cbn.
    repeat split; auto; try discriminate.
  - destruct Hinv as (Hw & Hm & Hs). rewrite Hw. cbn.
    repeat split; auto; try discriminate.
  - destruct Hinv as (Hs & w & Hw & Hcase). rewrite Hw.
    repeat split; auto; try discriminate; try congruence.
    cbn. destruct (alive w); cbn; lia.
  - destruct Hinv as (Hw & Hm & Hs & Hf). rewrite Hw. cbn.
    repeat split; auto; try discriminate.
  - destruct Hinv as (Hw & Hm & Hs & Hf). rewrite Hw. cbn.
    split; [lia|]. split; [auto|]. split; [discriminate|]. split; [auto|].
    split; [|exact Hprogress]. intros _. split; [exact Hf|].
    intros s' Hstep. destruct Hf as (k & Hk & Hfile). exists k.
    split; [exact Hk|].
    inversion Hstep; subst; try congruence;
      cbn [printed mainAt];
      try (rewrite Hw in *; worker_cases; fail).
    rewrite Hfile. auto.
Qed.

Ltac next_state H tac :=
  match type of H with
  | handoffReachable ?t _ ?s =>
      let Hstep := fresh "Hstep" in
      eassert (Hstep : handoffStep t s _) by tac;
      apply (fun r => reach_next _ _ _ _ r Hstep) in H;
      clear Hstep;
      cbn [mainAt workers mutex timeFile clock printed requests spawned app]
        in H
  end.

(** One time request, from the prompt to the read of the time file. *)
Lemma sample_time_request :
  handoffReachable sampleTimes ""
    {| mainAt := Reading; workers := []; mutex := Some MainThread;
       timeFile := sampleTimes 0; clock := 1; printed := [];
       requests := 1; spawned := 1 |}.
Proof.
  pose proof (reach_start sampleTimes "") as H.
  unfold handoffStart in H.
  next_state H ltac:(apply step_time_request; reflexivity).
  next_state H ltac:(apply step_main_unlock; reflexivity).
  next_state H ltac:(apply step_main_create; reflexivity).
  next_state H ltac:(apply (step_worker_lock _ _ [] []); reflexivity).
  next_state H ltac:(apply (step_worker_open _ _ [] []); reflexivity).
  next_state H ltac:(apply (step_worker_write _ _ [] []); reflexivity).
  next_state H ltac:(apply (step_worker_close _ _ [] []); reflexivity).
  next_state H ltac:(apply (step_worker_unlock _ _ [] []); reflexivity).
  next_state H ltac:(apply (step_main_join _ _ []); reflexivity).
  next_state H ltac:(apply step_main_lock; reflexivity).
  exact H.
Qed.

Lemma one_worker_joined_before_read_witness :
  let s := {| mainAt := Reading; workers := []; mutex := Some MainThread;
              timeFile := sampleTimes 0; clock := 1; printed := [];
              requests := 1; spawned := 1 |} in
  (aliveWorkers s <= 1)%nat /\
  (mainAt s <> Joining -> workers s = []) /\
  (mainAt s = AtPrompt -> spawned s = requests s) /\
  (requests s = spawned s \/ requests s = S (spawned s)) /\
  (mainAt s = Reading ->
   fileWritten sampleTimes s /\
   forall s', handoffStep sampleTimes s s' ->
     exists k, clock s = S k /\
               printed s' = printed s ++ readTimeFile (sampleTimes k) /\
               mainAt s' = AtPrompt) /\
  (exists s', handoffStep sampleTimes s s' /\ s' <> s).
Proof.
  exact (one_worker_joined_before_read sampleTimes "" _ sample_time_request).
Defined.

End TimeProofs.

(** * More about the graph builder *)

Module BuilderFacts.
Import BuildRooms.
Local Open Scope Z_scope.
Local Arguments Nat.modulo : simpl never.
Local Arguments cell : simpl never.
Local Arguments countConnections : simpl never.
Local Arguments canAddConnectionFrom : simpl never.
Local Arguments connectionAlreadyExists : simpl never.
Local Arguments isGraphFull : simpl never.

(** ** Looking a connection up *)

(** X1: on every matrix the generation loop can hold,
    [connectionAlreadyExists] returns 1 when [roomA] records [roomB] and 0
    when it does not, whichever of the two rooms is passed first. *)
Theorem connectionAlreadyExists_reads_cell (g : graph) (a b : nat) :
  reachable g -> (a < 7)%nat -> (b < 7)%nat ->
  connectionAlreadyExists g a b = (if cell g a b =? -1 then 0 else 1) /\
  connectionAlreadyExists g b a = connectionAlreadyExists g a b.
Proof.
  intros Hr Ha Hb. apply GraphProofs.reachable_invariant in Hr.
  assert (Hread : forall x y, (x < 7)%nat -> (y < 7)%nat ->
            connectionAlreadyExists g x y = if cell g x y =? -1 then 0 else 1).
  { intros x y Hx Hy. destruct (Z.eqb_spec (cell g x y) (-1)) as [E|E].
    - apply GraphProofs.connectionAlreadyExists_unset; assumption.
    - apply GraphProofs.connectionAlreadyExists_set; assumption. }
  split; [apply Hread; assumption|].
  rewrite !Hread by assumption.
  destruct (Z.eqb_spec (cell g a b) (-1)) as [E|E];
    destruct (Z.eqb_spec (cell g b a) (-1)) as [E'|E']; try reflexivity;
    exfalso.
  - apply E'. apply (inv_sym g Hr); assumption.
  - apply E. apply (inv_sym g Hr); assumption.
Qed.

Lemma connectionAlreadyExists_reads_cell_witness :
  exists g pos,
    addRandomConnection 2 (fun n => n) initializeGraph 0 = Some (g, pos) /\
    (connectionAlreadyExists g 0 1 = (if cell g 0 1 =? -1 then 0 else 1) /\
     connectionAlreadyExists g 1 0 = connectionAlreadyExists g 0 1).
Proof.
  eexists. eexists. split; [vm_compute; reflexivity|].
  apply (connectionAlreadyExists_reads_cell _ 0 1);
    [|lia|lia].
  apply (reach_step initializeGraph _ 2 (fun n => n) 0 2 reach_init);
    vm_compute; reflexivity.
Defined.

(** ** How many connections the generated graph has *)

Lemma addRandomConnection_draws (fuel : nat) (rs : rand_stream)
    (g g' : graph) (pos pos' : nat) :
  addRandomConnection fuel rs g pos = Some (g', pos') ->
  (pos + 2 <= pos')%nat.
Proof.
  intros H. unfold addRandomConnection in H.
  destruct (drawRoomA fuel rs g pos) as [[a p1]|] eqn:EA; [|discriminate].
  destruct (drawRoomB fuel rs g a p1) as [[b p2]|] eqn:EB; [|discriminate].
  inversion H; subst.
  apply GraphProofs.drawRoomA_some in EA as (_ & _ & HA).
  apply GraphProofs.drawRoomB_some in EB as (_ & _ & _ & _ & HB). lia.
Qed.

(** The loop adds one edge per iteration and draws at least twice for it. *)
Lemma generationLoop_edges (fuel : nat) (rs : rand_stream) :
  forall (g g' : graph) (pos pos' : nat),
    graphInvariant g -> generationLoop fuel rs g pos = Some (g', pos') ->
    exists k : nat,
      totalConnections g' = totalConnections g + 2 * Z.of_nat k /\
      (pos + 2 * k <= pos')%nat.
Proof.
  induction fuel as [|fuel IH]; intros g g' pos pos' Hg H;
    cbn [generationLoop] in H;
    destruct (Z.eqb_spec (isGraphFull g) 0) as [Hfull|Hfull];
    try discriminate;
    try (inversion H; subst; exists 0%nat; split; lia).
  destruct (addRandomConnection (S fuel) rs g pos) as [[g1 p1]|] eqn:E;
    [|discriminate].
  pose proof (addRandomConnection_draws _ _ _ _ _ _ E) as Hpos.
  pose proof (GraphProofs.addRandomConnection_invariant _ _ _ _ _ _ Hg E)
    as Hg1.
  destruct (GraphProofs.addRandomConnection_edge _ _ _ _ _ _ Hg E)
    as (a & b & Hacc & ->).
  destruct (IH _ _ _ _ Hg1 H) as (k & Htot & Hk).
  rewrite (GraphProofs.totalConnections_connect g a b Hg Hacc) in Htot.
  exists (S k). split; lia.
Qed.

(** The edge that fills the graph takes some room from two connections to
    three. *)
Lemma generationLoop_exactly_three (fuel : nat) (rs : rand_stream) :
  forall (g g' : graph) (pos pos' : nat),
    graphInvariant g -> isGraphFull g = 0 ->
    generationLoop fuel rs g pos = Some (g', pos') ->
    exists x, (x < 7)%nat /\ countConnections g' x = 3.
Proof.
  induction fuel as [|fuel IH]; intros g g' pos pos' Hg Hfull H;
    cbn [generationLoop] in H; rewrite Hfull in H; cbn [Z.eqb] in H;
    [discriminate|].
  destruct (addRandomConnection (S fuel) rs g pos) as [[g1 p1]|] eqn:E;
    [|discriminate].
  pose proof (GraphProofs.addRandomConnection_invariant _ _ _ _ _ _ Hg E)
    as Hg1.
  destruct (Z.eq_dec (isGraphFull g1) 0) as [Hfull1|Hfull1];
    [exact (IH _ _ _ _ Hg1 Hfull1 H)|].
  assert (Hend : g' = g1).
  { destruct fuel; cbn [generationLoop] in H;
      destruct (Z.eqb_spec (isGraphFull g1) 0); try contradiction;
      inversion H; reflexivity. }
  subst g'.
  destruct (GraphProofs.notFull_low_room g Hfull) as (x & Hx & Hlow).
  destruct (GraphProofs.addRandomConnection_edge _ _ _ _ _ _ Hg E)
    as (a & b & Hacc & ->).
  pose proof (GraphProofs.isGraphFull_degrees _ Hfull1 x Hx) as Hhigh.
  rewrite (GraphProofs.countConnections_connect g a b x Hg Hacc Hx) in Hhigh.
  exists x. split; [exact Hx|].
  rewrite (GraphProofs.countConnections_connect g a b x Hg Hacc Hx).
  destruct Hacc as (_ & _ & Hab & _).
  destruct (Nat.eqb_spec x a); destruct (Nat.eqb_spec x b); lia.
Qed.

Lemma countConnections_sum (g : graph) (x : nat) :
  countConnections g x
  = Z.b2z (isSet g x 0) + Z.b2z (isSet g x 1) + Z.b2z (isSet g x 2)
    + Z.b2z (isSet g x 3) + Z.b2z (isSet g x 4) + Z.b2z (isSet g x 5)
    + Z.b2z (isSet g x 6).
Proof.
  unfold countConnections, isSet. cbn [seq fold_left].
  repeat match goal with
         | |- context [cell g x ?y =? -1] => destruct (cell g x y =? -1)
         end; reflexivity.
Qed.

Lemma isSet_diag (g : graph) (x : nat) :
  graphInvariant g -> (x < 7)%nat -> isSet g x x = false.
Proof.
  intros Hg Hx. apply GraphProofs.isSet_unset. apply (inv_diag g Hg x Hx).
Qed.

Lemma isSet_sym (g : graph) (x y : nat) :
  graphInvariant g -> (x < 7)%nat -> (y < 7)%nat ->
  isSet g x y = isSet g y x.
Proof.
  intros Hg Hx Hy.
  destruct (isSet g x y) eqn:Exy; destruct (isSet g y x) eqn:Eyx;
    try reflexivity.
  - apply GraphProofs.isSet_unset in Eyx. apply (inv_sym g Hg) in Eyx; auto.
    apply GraphProofs.isSet_unset in Eyx. congruence.
  - apply GraphProofs.isSet_unset in Exy. apply (inv_sym g Hg) in Exy; auto.
    apply GraphProofs.isSet_unset in Exy. congruence.
Qed.

Ltac name_flags :=
  repeat match goal with
         | |- context [Z.b2z ?t] =>
             let v := fresh "c" in
             set (v := Z.b2z t) in *;
             assert (0 <= v <= 1) by (subst v; destruct t; cbn; lia);
             clearbody v
         end.

(** A room with three connections leaves at most 36 in the whole matrix:
    the three rooms it is not connected to have at most five each. *)
Lemma totalConnections_le36 (g : graph) (x : nat) :
  graphInvariant g -> (x < 7)%nat -> countConnections g x = 3 ->
  totalConnections g <= 36.
Proof.
  intros Hg Hx H3. unfold totalConnections. cbn [seq map fold_left].
  rewrite countConnections_sum in H3. rewrite !countConnections_sum.
  assert (Hsym : forall i j, (j < i < 7)%nat -> isSet g i j = isSet g j i)
    by (intros i j Hij; apply isSet_sym; auto; lia).
  rewrite !(isSet_diag g) by (auto; lia).
  rewrite (Hsym 1 0)%nat, (Hsym 2 0)%nat, (Hsym 3 0)%nat, (Hsym 4 0)%nat,
    (Hsym 5 0)%nat, (Hsym 6 0)%nat, (Hsym 2 1)%nat, (Hsym 3 1)%nat,
    (Hsym 4 1)%nat, (Hsym 5 1)%nat, (Hsym 6 1)%nat, (Hsym 3 2)%nat,
    (Hsym 4 2)%nat, (Hsym 5 2)%nat, (Hsym 6 2)%nat, (Hsym 4 3)%nat,
    (Hsym 5 3)%nat, (Hsym 6 3)%nat, (Hsym 5 4)%nat, (Hsym 6 4)%nat,
    (Hsym 6 5)%nat by lia.
  revert H3. pattern x. apply GraphProofs.rooms_cases; [..|exact Hx];
    intros H3;
    rewrite (isSet_diag g) in H3 by (auto; lia);
    rewrite ?(Hsym 1 0)%nat, ?(Hsym 2 0)%nat, ?(Hsym 3 0)%nat,
      ?(Hsym 4 0)%nat, ?(Hsym 5 0)%nat, ?(Hsym 6 0)%nat, ?(Hsym 2 1)%nat,
      ?(Hsym 3 1)%nat, ?(Hsym 4 1)%nat, ?(Hsym 5 1)%nat, ?(Hsym 6 1)%nat,
      ?(Hsym 3 2)%nat, ?(Hsym 4 2)%nat, ?(Hsym 5 2)%nat, ?(Hsym 6 2)%nat,
      ?(Hsym 4 3)%nat, ?(Hsym 5 3)%nat, ?(Hsym 6 3)%nat, ?(Hsym 5 4)%nat,
      ?(Hsym 6 4)%nat, ?(Hsym 6 5)%nat in H3 by lia;
    clear Hsym; cbn [Z.b2z] in *; name_flags; lia.
Qed.

(** X2: the generated graph has between 11 and 18 edges (the seven
    connection counts add up to twice that), the generator has drawn at
    least two random numbers per edge, and some room is left with exactly
    three connections: the loop stops with the edge that takes the last
    room from two to three. *)
Theorem generated_graph_edge_count (fuel : nat) (rs : rand_stream)
    (g : graph) (pos : nat) :
  generateGraph fuel rs = Some (g, pos) ->
  (exists edges : nat,
     totalConnections g = 2 * Z.of_nat edges /\
     (11 <= edges <= 18)%nat /\ (2 * edges <= pos)%nat) /\
  (exists x, (x < 7)%nat /\ countConnections g x = 3).
Proof.
  intros H. unfold generateGraph in H.
  pose proof GraphProofs.initializeGraph_invariant as Hinit.
  destruct (generationLoop_edges _ _ _ _ _ _ Hinit H) as (k & Htot & Hk).
  destruct (generationLoop_exactly_three _ _ _ _ _ _ Hinit eq_refl H)
    as (x & Hx & H3).
  destruct (GraphProofs.generationLoop_invariant _ _ _ _ _ _ Hinit H)
    as [Hg Hfull].
  pose proof (GraphProofs.isGraphFull_degrees g Hfull) as Hdeg.
  pose proof (totalConnections_le36 g x Hg Hx H3) as Hle.
  split; [|exists x; auto].
  exists k. change (totalConnections initializeGraph) with 0 in Htot.
  split; [lia|]. split; [|lia].
  assert (Hlow : 21 <= totalConnections g).
  { unfold totalConnections. cbn [seq map fold_left].
    pose proof (Hdeg 0%nat ltac:(lia)). pose proof (Hdeg 1%nat ltac:(lia)).
    pose proof (Hdeg 2%nat ltac:(lia)). pose proof (Hdeg 3%nat ltac:(lia)).
    pose proof (Hdeg 4%nat ltac:(lia)). pose proof (Hdeg 5%nat ltac:(lia)).
    pose proof (Hdeg 6%nat ltac:(lia)). lia. }
  lia.
Qed.

Lemma generated_graph_edge_count_witness :
  exists g,
    generateGraph 30 (fun n => n) = Some (g, 26%nat) /\
    ((exists edges : nat,
        totalConnections g = 2 * Z.of_nat edges /\
        (11 <= edges <= 18)%nat /\ (2 * edges <= 26)%nat) /\
     (exists x, (x < 7)%nat /\ countConnections g x = 3)).
Proof.
  eexists. split; [vm_compute; reflexivity|].
  apply (generated_graph_edge_count 30 (fun n => n)).
  vm_compute. reflexivity.
Defined.

(** ** Every room is close to every other *)

(** Two rooms with three connections each, not connected to each other,
    share a neighbour: the seven rooms leave no place for six different
    neighbours besides the two. *)
Lemma common_neighbour (g : graph) (a b : nat) :
  graphInvariant g -> (a < 7)%nat -> (b < 7)%nat -> a <> b ->
  3 <= countConnections g a -> 3 <= countConnections g b ->
  isSet g a b = false ->
  exists c, (c < 7)%nat /\ isSet g a c = true /\ isSet g c b = true.
Proof.
  intros Hg Ha Hb Hab Hda Hdb Hcell.
  destruct (existsb (fun c => isSet g a c && isSet g b c) (seq 0 7)) eqn:Eex.
  - apply existsb_exists in Eex as (c & Hc & Hboth).
    apply GraphProofs.in_rooms in Hc.
    apply andb_true_iff in Hboth as [Hac Hbc].
    exists c. repeat split; auto. rewrite (isSet_sym g c b); auto.
  - exfalso.
    rewrite GraphProofs.countConnections_filter in Hda, Hdb.
    set (na := filter (isSet g a) (seq 0 7)) in *.
    set (nb := filter (isSet g b) (seq 0 7)) in *.
    assert (Hnd : NoDup (na ++ nb ++ [a; b])).
    { apply NoDup_app; [apply NoDup_filter, seq_NoDup | |].
      - apply NoDup_app; [apply NoDup_filter, seq_NoDup | |].
        + constructor; [intros [E|[]]; congruence|].
          constructor; [intros [] | constructor].
        + intros c Hc Hin. apply filter_In in Hc as [_ Hc].
          destruct Hin as [<-|[<-|[]]].
          * rewrite (isSet_sym g b a) in Hc by auto. congruence.
          * rewrite (isSet_diag g b) in Hc by auto. discriminate.
      - intros c Hc Hin. apply filter_In in Hc as [Hc Hac].
        apply in_app_or in Hin as [Hin|[<-|[<-|[]]]].
        + apply filter_In in Hin as [_ Hbc].
          assert (Hyes : existsb (fun c => isSet g a c && isSet g b c)
                           (seq 0 7) = true).
          { apply existsb_exists. exists c. split; [exact Hc|].
            rewrite Hac, Hbc. reflexivity. }
          congruence.
        + rewrite (isSet_diag g a) in Hac by auto. discriminate.
        + congruence. }
    apply NoDup_incl_length with (l' := seq 0 7) in Hnd.
    + rewrite !length_app, length_seq in Hnd. cbn [length] in Hnd. lia.
    + intros c Hc. apply GraphProofs.in_rooms.
      apply in_app_or in Hc as [Hc|Hc];
        [apply filter_In in Hc as [Hc _];
         apply GraphProofs.in_rooms; exact Hc|].
      apply in_app_or in Hc as [Hc|[<-|[<-|[]]]]; auto.
      apply filter_In in Hc as [Hc _]. apply GraphProofs.in_rooms; exact Hc.
Qed.

Lemma connected_isSet (g : graph) (a b : nat) :
  connected g a b <-> isSet g a b = true.
Proof.
  unfold connected, isSet.
  destruct (Z.eqb_spec (cell g a b) (-1)); cbn [negb]; split; intros;
    try congruence; try discriminate.
Qed.

Lemma full_graph_within_two (g : graph) (a b : nat) :
  graphInvariant g ->
  (forall x, (x < 7)%nat -> 3 <= countConnections g x) ->
  (a < 7)%nat -> (b < 7)%nat -> a <> b -> withinTwo g a b.
Proof.
  intros Hg Hdeg Ha Hb Hab.
  unfold withinTwo. destruct (isSet g a b) eqn:Eab.
  - left. apply connected_isSet. exact Eab.
  - right.
    destruct (common_neighbour g a b Hg Ha Hb Hab (Hdeg a Ha) (Hdeg b Hb) Eab)
      as (c & Hc & Hac & Hcb).
    exists c. rewrite !connected_isSet. auto.
Qed.

(** X3: in the generated graph every room is at most two connections away
    from every other room, so whichever rooms become START_ROOM and
    END_ROOM, the end can be reached from the start. *)
Theorem generated_graph_within_two (fuel : nat) (rs : rand_stream)
    (g : graph) (pos : nat) (a b : nat) :
  generateGraph fuel rs = Some (g, pos) ->
  (a < 7)%nat -> (b < 7)%nat -> a <> b -> withinTwo g a b.
Proof.
  intros H Ha Hb Hab. unfold generateGraph in H.
  destruct (GraphProofs.generationLoop_invariant _ _ _ _ _ _
              GraphProofs.initializeGraph_invariant H) as [Hg Hfull].
  apply full_graph_within_two; auto.
  apply GraphProofs.isGraphFull_degrees. exact Hfull.
Qed.

Lemma generated_graph_within_two_witness :
  exists g,
    generateGraph 30 (fun n => n) = Some (g, 26%nat) /\ withinTwo g 0 6.
Proof.
  eexists. split; [vm_compute; reflexivity|].
  apply (generated_graph_within_two 30 (fun n => n) _ 26 0 6);
    [vm_compute; reflexivity | lia | lia | discriminate].
Defined.

(** ** The names [selectRooms] picks *)

Lemma drawRoomName_more (fuel k : nat) (rs : rand_stream) (chosen : list Z) :
  forall (pos : nat) (r : nat * nat),
    drawRoomName fuel rs chosen pos = Some r ->
    drawRoomName (fuel + k) rs chosen pos = Some r.
Proof.
  induction fuel as [|fuel IH]; intros pos r H; [discriminate|].
  cbn [drawRoomName Nat.add] in *.
  destruct (_ =? 0); auto.
Qed.

Lemma drawRoomName_finds (rs : rand_stream) (chosen : list Z) (v : nat) :
  (forall x, (x < 7)%nat -> nth x chosen 0 <> Z.of_nat v) ->
  forall (n pos : nat),
    (rs (pos + n) mod 10)%nat = v ->
    exists r, drawRoomName (S n) rs chosen pos = Some r.
Proof.
  intros Hnew. induction n as [|n IH]; intros pos Hrs;
    cbn [drawRoomName];
    rewrite (RoleProofs.flag_loop (fun x => nth x chosen 0 =? _)).
  - rewrite Nat.add_0_r in Hrs. rewrite Hrs.
    destruct (existsb _ (seq 0 7)) eqn:Eex; cbn [Z.eqb Pos.eqb]; [|eauto].
    exfalso. apply existsb_exists in Eex as (x & Hx & E).
    apply in_seq in Hx. apply Z.eqb_eq in E. apply (Hnew x); [lia | exact E].
  - destruct (existsb _ (seq 0 7)); cbn [Z.eqb Pos.eqb]; [|eauto].
    apply IH. rewrite <- Hrs. f_equal. f_equal. lia.
Qed.

(** Seven entries cannot hold all ten numbers of the pool. *)
Lemma fresh_name (chosen : list Z) :
  exists v, (v < 10)%nat /\
            forall x, (x < 7)%nat -> nth x chosen 0 <> Z.of_nat v.
Proof.
  set (taken := fun v : nat =>
         existsb (fun x => nth x chosen 0 =? Z.of_nat v) (seq 0 7)).
  destruct (forallb taken (seq 0 10)) eqn:Eall.
  - exfalso. rewrite forallb_forall in Eall.
    assert (Hincl : incl (map Z.of_nat (seq 0 10))
                         (map (fun x => nth x chosen 0) (seq 0 7))).
    { intros z Hz. apply in_map_iff in Hz as (v & <- & Hv).
      apply Eall in Hv. apply existsb_exists in Hv as (x & Hx & E).
      apply Z.eqb_eq in E. apply in_map_iff. exists x. auto. }
    apply NoDup_incl_length in Hincl.
    + rewrite !length_map, !length_seq in Hincl. lia.
    + apply Finite.Injective_map_NoDup; [|apply seq_NoDup].
      intros x y. apply Nat2Z.inj.
  - assert (Hex : existsb (fun v => negb (taken v)) (seq 0 10) = true).
    { destruct (existsb (fun v => negb (taken v)) (seq 0 10)) eqn:E;
        [reflexivity|].
      rewrite <- Eall. apply forallb_forall. intros v Hv.
      destruct (taken v) eqn:Et; [reflexivity|].
      assert (existsb (fun v => negb (taken v)) (seq 0 10) = true)
        by (apply existsb_exists; exists v; rewrite Et; auto).
      congruence. }
    apply existsb_exists in Hex as (v & Hv & Hfree).
    apply in_seq in Hv. exists v. split; [lia|]. intros x Hx E.
    apply negb_true_iff in Hfree.
    assert (taken v = true).
    { apply existsb_exists. exists x. split; [apply in_seq; lia|].
      apply Z.eqb_eq. exact E. }
    congruence.
Qed.

Lemma namesChosen_step (fuel : nat) (rs : rand_stream) (i : nat)
    (chosen : list Z) (names : list string) (pos s pos' : nat) :
  (i < 7)%nat -> namesChosen i chosen names ->
  drawRoomName fuel rs chosen pos = Some (s, pos') ->
  namesChosen (S i) (upd i (Z.of_nat s) chosen)
    (upd i (nth s rooms ""%string) names).
Proof.
  intros Hi (Hlc & Hln & Hnd & Hfirst & Hrest) Ed.
  apply RoleProofs.drawRoomName_some in Ed as [Hs Hnew].
  split; [rewrite upd_length; exact Hlc|].
  split; [rewrite upd_length; exact Hln|]. split; [|split].
  - rewrite RoleProofs.firstn_S_upd by lia. apply NoDup_app; auto.
    + constructor; [intros [] | constructor].
    + intros v Hv [<-|[]].
      apply (RoleProofs.In_firstn_nth i chosen _ 0) in Hv as (x & Hx & _ & Hn).
      apply (Hnew x); [lia | exact Hn].
  - intros j Hj. destruct (Nat.eq_dec j i) as [->|Hne].
    + rewrite !nth_upd_same by lia. rewrite Nat2Z.id. split; [lia|].
      reflexivity.
    + rewrite !nth_upd_other by lia. apply Hfirst. lia.
  - intros j Hj. rewrite nth_upd_other by lia. apply Hrest. lia.
Qed.

Lemma selectRoomsLoop_finishes (rs : rand_stream) :
  recurring 10 rs ->
  forall (n i : nat) (chosen : list Z) (names : list string) (pos : nat),
    (i + n = 7)%nat -> namesChosen i chosen names ->
    exists fuel r,
      forall more,
        selectRoomsLoop (fuel + more) rs (seq i n) chosen names pos = Some r.
Proof.
  intros Hfair. induction n as [|n IH]; intros i chosen names pos Hi Hinv.
  - exists 0%nat. eexists. intros more. reflexivity.
  - destruct (fresh_name chosen) as (v & Hv & Hnew).
    destruct (Hfair pos v Hv) as (m & Hm & Hrs).
    destruct (drawRoomName_finds rs chosen v Hnew (m - pos) pos)
      as ([s pos1] & Hfound).
    { replace (pos + (m - pos))%nat with m by lia. exact Hrs. }
    assert (Hlt : (i < 7)%nat) by lia.
    pose proof (namesChosen_step _ _ _ _ _ _ _ _ Hlt Hinv Hfound) as Hinv1.
    destruct (IH (S i) _ _ pos1 ltac:(lia) Hinv1) as (fuel2 & r & Hloop).
    exists (S (m - pos) + fuel2)%nat, r. intros more.
    cbn [seq selectRoomsLoop]. rewrite <- Nat.add_assoc.
    rewrite (drawRoomName_more _ (fuel2 + more) _ _ _ _ Hfound).
    replace (S (m - pos) + (fuel2 + more))%nat
      with (fuel2 + (S (m - pos) + more))%nat by lia.
    apply Hloop.
Qed.

(** X4: [selectRooms] fills [selectedRooms] with seven names of the pool,
    no two of them the same, and it returns whenever every residue modulo
    10 keeps recurring among the draws. *)
Theorem selectRooms_seven_distinct_names (rs : rand_stream) (pos : nat) :
  (forall (fuel : nat) (names : list string) (pos' : nat),
     selectRooms fuel rs pos = Some (names, pos') ->
     length names = 7%nat /\ NoDup names /\
     Forall (fun name => In name rooms) names) /\
  (recurring 10 rs ->
   exists fuel names pos', selectRooms fuel rs pos = Some (names, pos')).
Proof.
  split.
  - intros fuel names pos'. apply RoleProofs.selectRooms_distinct.
  - intros Hfair. unfold selectRooms.
    destruct (selectRoomsLoop_finishes rs Hfair 7 0 (repeat (-1) 7)
                (repeat ""%string 7) pos eq_refl)
      as (fuel & [names pos'] & Hloop).
    + split; [reflexivity|]. split; [reflexivity|]. split; [constructor|].
      split; [intros j Hj; lia|].
      intros j [_ Hj]. revert j Hj.
      do 7 (intros [|j]; [reflexivity|]; revert j). lia.
    + exists fuel, names, pos'. rewrite <- (Nat.add_0_r fuel). apply Hloop.
Qed.

Lemma selectRooms_seven_distinct_names_witness :
  exists names pos',
    selectRooms 1 (fun n => n) 0 = Some (names, pos') /\
    (length names = 7%nat /\ NoDup names /\
     Forall (fun name => In name rooms) names).
Proof.
  eexists. eexists. split; [vm_compute; reflexivity|].
  apply (proj1 (selectRooms_seven_distinct_names (fun n => n) 0) 1%nat _ 7%nat).
  vm_compute. reflexivity.
Defined.

(** ** The buffers of [setupRoomFiles] *)

Ltac pool_cases H :=
  cbn [rooms In] in H;
  repeat (destruct H as [<-|H]; [|]); [..|destruct H].

(** X5: with names of the pool and a directory name of at most 35
    characters, no string [setupRoomFiles] builds overruns its buffer:
    the path fits [pathName[50]], the name line and every connection line
    fit [fileOutput[25]], the connection counter, at most 7, fits
    [connectionChar[2]], and the type line fits [roomType[25]]. *)
Theorem setupRoomFiles_buffers_hold (dirName : string)
    (selectedRooms : list string) (roomGraph : graph) (fileNum : nat)
    (connCounter : nat) (name : string) (roomType : Z) :
  Forall (fun n => In n rooms) selectedRooms ->
  length selectedRooms = 7%nat -> (fileNum < 7)%nat ->
  (String.length dirName <= 35)%nat ->
  In name rooms -> (connCounter <= 7)%nat ->
  fits 50 (roomFilePath dirName selectedRooms fileNum) = true /\
  fits 25 (nameLine (nth fileNum selectedRooms ""%string)) = true /\
  (fst (connectionLines selectedRooms roomGraph fileNum) <= 7)%nat /\
  fits 2 (decimal connCounter) = true /\
  fits 25 (connectionLine connCounter name) = true /\
  fits 25 (typeLine (roomTypeName roomType)) = true.
Proof.
  intros Hpool Hlen Hfile Hdir Hname Hcount.
  assert (Hown : In (nth fileNum selectedRooms ""%string) rooms).
  { rewrite Forall_forall in Hpool. apply Hpool. apply nth_In. lia. }
  split; [|split; [|split; [|split; [|split]]]].
  - unfold fits, roomFilePath. apply Nat.ltb_lt.
    rewrite !length_append. pool_cases Hown; cbn [String.length]; lia.
  - pool_cases Hown; reflexivity.
  - unfold connectionLines.
    rewrite RoomFileProofs.connectionLines_fold. cbn zeta. cbn [fst].
    rewrite length_map.
    rewrite (RoomFileProofs.flat_map_filter_length
               (fun connection => negb (cell roomGraph fileNum connection =? -1))
               (fun connection => cell roomGraph fileNum connection)).
    pose proof (filter_length_le
                  (fun connection =>
                     negb (cell roomGraph fileNum connection =? -1))
                  (seq 0 7)) as Hle.
    rewrite length_seq in Hle. lia.
  - do 8 (destruct connCounter as [|connCounter]; [reflexivity|]). lia.
  - do 8 (destruct connCounter as [|connCounter];
          [pool_cases Hname; reflexivity|]). lia.
  - unfold roomTypeName. destruct (roomType =? 0); [reflexivity|].
    destruct (roomType =? 6); reflexivity.
Qed.

Lemma setupRoomFiles_buffers_hold_witness :
  let names := ["Dungeon"; "Barracks"; "Garden"; "Game"; "Medical";
                "Corridor"; "Kitchen"]%string in
  fits 50 (roomFilePath "trompj.rooms.4242" names 1) = true /\
  fits 25 (nameLine (nth 1 names ""%string)) = true /\
  (fst (connectionLines names initializeGraph 1) <= 7)%nat /\
  fits 2 (decimal 6) = true /\
  fits 25 (connectionLine 6 "Basement") = true /\
  fits 25 (typeLine (roomTypeName 0)) = true.
Proof.
  apply (setupRoomFiles_buffers_hold "trompj.rooms.4242"
           ["Dungeon"; "Barracks"; "Garden"; "Game"; "Medical";
            "Corridor"; "Kitchen"]%string initializeGraph 1 6 "Basement" 0).
  - repeat (constructor; [RoomFileProofs.in_list|]). constructor.
  - reflexivity.
  - lia.
  - cbn. lia.
  - RoomFileProofs.in_list.
  - lia.
Defined.

(** ** A room file that cannot be opened *)

Lemma setupRoomFilesLoop_all_open (fuel : nat) (rs : rand_stream)
    (opens : nat -> bool) (dirName : string) (selectedRooms : list string)
    (g : graph) (fileNums : list nat) :
  forall (roomTypes : list Z) (pos : nat) (files : list roomFile)
         (r : list Z * list roomFile * nat),
    setupRoomFilesLoop fuel rs opens dirName selectedRooms g fileNums
      roomTypes pos files = Done r ->
    forall fileNum, In fileNum fileNums -> opens fileNum = true.
Proof.
  induction fileNums as [|k rest IH]; intros roomTypes pos files r H fileNum
    Hin; [destruct Hin|].
  cbn [setupRoomFilesLoop] in H.
  destruct (opens k) eqn:Ek; [|discriminate].
  destruct (drawRoomType fuel rs roomTypes k pos) as [[rt1 pos1]|];
    [|discriminate].
  destruct Hin as [<-|Hin]; [exact Ek|]. eapply IH; eauto.
Qed.

(** X6: [setupRoomFiles] completes only when all seven files open.  When
    [fopen] fails for one of them the run ends where the [fprintf] after
    the [else] branch is handed the null pointer, whatever the fuel; for
    the first file that is at once. *)
Theorem setupRoomFiles_needs_every_file (fuel : nat) (rs : rand_stream)
    (opens : nat -> bool) (dirName : string) (selectedRooms : list string)
    (roomGraph : graph) (pos : nat) :
  (forall r,
     setupRoomFiles fuel rs opens dirName selectedRooms roomGraph pos
     = Done r ->
     forall fileNum, (fileNum < 7)%nat -> opens fileNum = true) /\
  (opens 0%nat = false ->
   setupRoomFiles fuel rs opens dirName selectedRooms roomGraph pos
   = NullFile).
Proof.
  split.
  - intros r H fileNum Hlt. unfold setupRoomFiles in H.
    eapply setupRoomFilesLoop_all_open; [exact H|]. apply in_seq. lia.
  - intros H0. unfold setupRoomFiles. cbn [seq setupRoomFilesLoop].
    rewrite H0. reflexivity.
Qed.

(** ** The whole run *)

(** What a completed run of [main] has written. *)
Lemma main_output (fuel : nat) (rs0 rs1 : rand_stream) (pid : nat)
    (opens : nat -> bool) (dirName : string) (written : list roomFile) :
  main fuel rs0 rs1 pid opens = Done (dirName, written) ->
  dirName = ("trompj.rooms." ++ decimal pid)%string /\
  exists (g : graph) (names : list string) (types : list Z),
    graphInvariant g /\
    (forall x, (x < 7)%nat -> 3 <= countConnections g x) /\
    (forall a b, (a < 7)%nat -> (b < 7)%nat -> a <> b -> withinTwo g a b) /\
    length names = 7%nat /\ NoDup names /\
    Forall (fun name => In name rooms) names /\
    Permutation types [0; 1; 2; 3; 4; 5; 6] /\
    written = map (fun i => (roomFilePath dirName names i,
                             roomFileContent names g i (nth i types 0)))
                  (seq 0 7).
Proof.
  intros H. unfold main in H.
  destruct (generateGraph fuel rs0) as [[g pos0]|] eqn:Eg; [|discriminate].
  destruct (selectRooms fuel rs1 0) as [[names pos1]|] eqn:En;
    [|discriminate].
  destruct (setupRoomFiles fuel rs1 opens _ names g pos1)
    as [[[types files] pos2]| |] eqn:Es; try discriminate.
  inversion H; subst dirName written; clear H.
  split; [reflexivity|]. exists g, names, types.
  pose proof Eg as Hgen. unfold generateGraph in Hgen.
  destruct (GraphProofs.generationLoop_invariant _ _ _ _ _ _
              GraphProofs.initializeGraph_invariant Hgen) as [Hg Hfull].
  destruct (RoleProofs.selectRooms_distinct _ _ _ _ _ En)
    as (Hlen & Hnd & Hpool).
  destruct (RoleProofs.setupRoomFiles_types _ _ _ _ _ _ _ _ _ _ Es)
    as [Hperm Hfiles].
  split; [exact Hg|].
  pose proof (GraphProofs.isGraphFull_degrees g Hfull) as Hdeg.
  split; [exact Hdeg|].
  split; [intros a b Ha Hb Hab; apply full_graph_within_two; auto|].
  auto.
Qed.

Lemma append_inv_head (a b c : string) :
  (a ++ b)%string = (a ++ c)%string -> b = c.
Proof.
  induction a as [|x a IH]; cbn; intros H; [exact H|].
  inversion H. auto.
Qed.

Lemma append_inv_tail (a b c : string) :
  (a ++ c)%string = (b ++ c)%string -> a = b.
Proof.
  revert b. induction a as [|x a IH]; intros [|y b] H; cbn in H.
  - reflexivity.
  - exfalso. apply (f_equal String.length) in H.
    cbn in H. rewrite length_append in H. lia.
  - exfalso. apply (f_equal String.length) in H.
    cbn in H. rewrite length_append in H. lia.
  - inversion H. f_equal. auto.
Qed.

Lemma roomFilePath_inj (dirName : string) (names : list string) (i j : nat) :
  NoDup names -> (i < length names)%nat -> (j < length names)%nat ->
  roomFilePath dirName names i = roomFilePath dirName names j -> i = j.
Proof.
  intros Hnd Hi Hj H. unfold roomFilePath in H.
  apply append_inv_head in H. apply append_inv_head in H.
  apply append_inv_tail in H.
  apply (proj1 (NoDup_nth names ""%string) Hnd); assumption.
Qed.

Lemma recordOf_connections (names : list string) (g : graph) (i : nat)
    (t : Z) :
  length (recConnections (recordOf names g i t))
  = length (filter (isSet g i) (seq 0 7)).
Proof.
  cbn [recordOf recConnections]. rewrite length_map. unfold connectionsOf.
  apply (RoomFileProofs.flat_map_filter_length (isSet g i)
           (fun connection => cell g i connection)).
Qed.



End BuilderFacts.

(** * More about the runner *)

Module RunnerFacts.
Import Adventure.
Local Open Scope string_scope.
Local Open Scope list_scope.

(** ** The directory selector *)

Section Selector.
Local Open Scope Z_scope.

(** The state of the [readdir] loop is the start value or the time and the
    name of a candidate seen, whose name fits [dirName]; the loop goes
    wrong only by copying a name that does not fit. *)
Lemma examine_state (l seen : list dirEntry) (st : Z * string) :
  (st = (-1, "") \/
   exists e, In e (candidates seen) /\ st = (toInt (st_mtime e), d_name e) /\
             0 <= toInt (st_mtime e) /\
             (String.length (d_name e) < 128)%nat) ->
  match examineEntries l st with
  | Ok st' =>
      st' = (-1, "") \/
      exists e, In e (candidates (seen ++ l)) /\
                st' = (toInt (st_mtime e), d_name e) /\
                0 <= toInt (st_mtime e) /\
                (String.length (d_name e) < 128)%nat
  | Fault f =>
      f = BufferOverflow "dirName" /\
      exists e, In e (candidates (seen ++ l)) /\
                (128 <= String.length (d_name e))%nat
  end.
Proof.
  revert seen st. induction l as [|e l IH]; intros seen st Hst.
  - cbn. rewrite app_nil_r. exact Hst.
  - rewrite DirectoryProofs.examineEntries_cons.
    replace (seen ++ e :: l) with ((seen ++ [e]) ++ l)
      by (rewrite <- app_assoc; reflexivity).
    destruct st as [m n]. unfold examineEntry.
    assert (Hmono : forall x, In x (candidates seen) ->
                              In x (candidates (seen ++ [e]))).
    { intros x Hx. unfold candidates in *. rewrite filter_app.
      apply in_or_app. left. exact Hx. }
    assert (Hkeep :
      (m, n) = (-1, "") \/
      exists x, In x (candidates (seen ++ [e])) /\
                (m, n) = (toInt (st_mtime x), d_name x) /\
                0 <= toInt (st_mtime x) /\
                (String.length (d_name x) < 128)%nat).
    { destruct Hst as [Hst|(x & Hx & Hst & Hpos)]; [left; exact Hst|].
      right. exists x. auto. }
    destruct (strstr (d_name e) dirPrefix) eqn:Ec;
      [|cbn [bind]; apply IH; exact Hkeep].
    destruct (Z.gtb_spec (toInt (st_mtime e)) m) as [Hgt|Hle];
      [|cbn [bind]; apply IH; exact Hkeep].
    assert (He : In e (candidates (seen ++ [e]))).
    { unfold candidates. rewrite filter_app. apply in_or_app. right.
      cbn [filter]. rewrite Ec. left. reflexivity. }
    destruct (Nat.leb_spec 128 (String.length (d_name e))) as [Hlong|Hshort];
      cbn [bind].
    + split; [reflexivity|]. exists e. split; [|exact Hlong].
      unfold candidates in *. rewrite filter_app. apply in_or_app. left.
      exact He.
    + apply IH. right. exists e. split; [exact He|].
      split; [reflexivity|]. split; [|exact Hshort].
      destruct Hst as [Hst|(x & _ & Hst & Hpos & _)]; inversion Hst; subst; lia.
Qed.

(** X7: when [mostRecentRooms] returns, [dirName] is empty or holds the
    name of an entry that contains the prefix, fits the 128 bytes and whose
    time, as an [int], is not negative; it never holds the name of another
    entry.  It goes wrong only by copying the name of such an entry that
    has 128 characters or more, and returns when every such name is
    shorter.  [dirName] is left empty when the current directory cannot be
    opened or has no entry with the prefix. *)
Theorem mostRecentRooms_only_candidates (entries : option (list dirEntry)) :
  (forall dirName,
     mostRecentRooms entries = Ok dirName ->
     dirName = "" \/
     exists subDirs e,
       entries = Some subDirs /\ In e (candidates subDirs) /\
       0 <= toInt (st_mtime e) /\ (String.length (d_name e) < 128)%nat /\
       dirName = d_name e) /\
  (forall f,
     mostRecentRooms entries = Fault f ->
     f = BufferOverflow "dirName" /\
     exists subDirs e,
       entries = Some subDirs /\ In e (candidates subDirs) /\
       (128 <= String.length (d_name e))%nat) /\
  (forall subDirs,
     entries = Some subDirs ->
     (forall e, In e (candidates subDirs) ->
                (String.length (d_name e) < 128)%nat) ->
     exists dirName, mostRecentRooms entries = Ok dirName) /\
  (entries = None -> mostRecentRooms entries = Ok "") /\
  (forall subDirs, entries = Some subDirs -> candidates subDirs = [] ->
                   mostRecentRooms entries = Ok "").
Proof.
  assert (Hstate : forall subDirs,
            match mostRecentRooms (Some subDirs) with
            | Ok dirName =>
                dirName = "" \/
                exists e, In e (candidates subDirs) /\
                          0 <= toInt (st_mtime e) /\
                          (String.length (d_name e) < 128)%nat /\
                          dirName = d_name e
            | Fault f =>
                f = BufferOverflow "dirName" /\
                exists e, In e (candidates subDirs) /\
                          (128 <= String.length (d_name e))%nat
            end).
  { intros subDirs. unfold mostRecentRooms.
    pose proof (examine_state subDirs [] (-1, "") (or_introl eq_refl)) as H.
    cbn [app] in H.
    destruct (examineEntries subDirs (-1, "")) as [st|f]; cbn [bind];
      [|exact H].
    destruct H as [->|(e & He & -> & Hpos & Hshort)]; [left; reflexivity|].
    right. exists e. auto. }
  split; [|split; [|split; [|split]]].
  - intros dirName H. destruct entries as [subDirs|].
    + specialize (Hstate subDirs). rewrite H in Hstate.
      destruct Hstate as [E|(e & He & Hpos & Hshort & E)]; [left; exact E|].
      right. exists subDirs, e. auto.
    + inversion H. left. reflexivity.
  - intros f H. destruct entries as [subDirs|]; [|discriminate].
    specialize (Hstate subDirs). rewrite H in Hstate.
    destruct Hstate as (E & e & He & Hlong). split; [exact E|].
    exists subDirs, e. auto.
  - intros subDirs -> Hshort. specialize (Hstate subDirs).
    destruct (mostRecentRooms (Some subDirs)) as [dirName|f]; [eauto|].
    destruct Hstate as (_ & e & He & Hlong).
    specialize (Hshort e He). lia.
  - intros ->. reflexivity.
  - intros subDirs -> Hnone. specialize (Hstate subDirs).
    rewrite Hnone in Hstate.
    destruct (mostRecentRooms (Some subDirs)) as [dirName|f].
    + destruct Hstate as [->|(e & He & _)]; [reflexivity | destruct He].
    + destruct Hstate as (_ & e & He & _). destruct He.
Qed.

(** X8: the entry [mostRecentRooms] picks is the first one, in the order
    [readdir] returns them, among the entries with the prefix whose time
    as an [int] is the greatest, when that time is not negative and its
    name and the names with the prefix read before it fit [dirName]: of
    two rooms directories modified in the same second the one read first
    wins.  The entries read after it are not copied, whatever their
    names. *)
Theorem mostRecentRooms_first_of_newest (before after : list dirEntry)
    (newest : dirEntry) :
  strstr (d_name newest) dirPrefix = true ->
  0 <= toInt (st_mtime newest) ->
  (String.length (d_name newest) < 128)%nat ->
  (forall e, In e (candidates before) ->
             (String.length (d_name e) < 128)%nat /\
             toInt (st_mtime e) < toInt (st_mtime newest)) ->
  (forall e, In e (candidates after) ->
             toInt (st_mtime e) <= toInt (st_mtime newest)) ->
  mostRecentRooms (Some (before ++ newest :: after)) = Ok (d_name newest).
Proof.
  intros Hc Hpos Hshort Hbefore Hafter. unfold mostRecentRooms.
  rewrite DirectoryProofs.examineEntries_app.
  pose proof (examine_state before [] (-1, "") (or_introl eq_refl)) as H.
  cbn [app] in H.
  destruct (examineEntries before (-1, "")) as [[m n]|f].
  - assert (Hlow : m < toInt (st_mtime newest)).
    { destruct H as [H|(e & He & H & _)]; inversion H; subst; [lia|].
      apply Hbefore. exact He. }
    cbn [bind]. rewrite DirectoryProofs.examineEntries_cons.
    unfold examineEntry. rewrite Hc.
    destruct (Z.gtb_spec (toInt (st_mtime newest)) m); [|lia].
    destruct (Nat.leb_spec 128 (String.length (d_name newest))); [lia|].
    cbn [bind]. rewrite DirectoryProofs.examine_keeps; [reflexivity|].
    intros e He Hce. apply Hafter. unfold candidates. apply filter_In. auto.
  - destruct H as (_ & e & He & Hlong).
    destruct (Hbefore e He) as [Hs _]. lia.
Qed.

Lemma mostRecentRooms_first_of_newest_witness :
  mostRecentRooms
    (Some ([ {| d_name := ".."; st_mtime := 1793379000 |};
             {| d_name := "trompj.rooms.12"; st_mtime := 1793370000 |} ]
           ++ {| d_name := "trompj.rooms.977"; st_mtime := 1793372000 |}
           :: [ {| d_name := "trompj.rooms.4242"; st_mtime := 1793372000 |};
                {| d_name := "trompj.rooms.31"; st_mtime := 6088339296 |} ]))
  = Ok (d_name {| d_name := "trompj.rooms.977"; st_mtime := 1793372000 |}).
Proof.
  apply (mostRecentRooms_first_of_newest
           [ {| d_name := ".."; st_mtime := 1793379000 |};
             {| d_name := "trompj.rooms.12"; st_mtime := 1793370000 |} ]
           [ {| d_name := "trompj.rooms.4242"; st_mtime := 1793372000 |};
             {| d_name := "trompj.rooms.31"; st_mtime := 6088339296 |} ]
           {| d_name := "trompj.rooms.977"; st_mtime := 1793372000 |}).
  - reflexivity.
  - vm_compute. discriminate.
  - vm_compute. lia.
  - cbn. intros e [<-|[]]. split; [vm_compute; lia | vm_compute; reflexivity].
  - cbn. intros e [<-|[<-|[]]]; vm_compute; discriminate.
Defined.

End Selector.

(** ** Loading the rooms *)

Lemma loadEntry_fault (dirName : string) (l : list dirFile) (f : fault) :
  fold_left (fun acc fileInDir => st <- acc ;; loadEntry dirName st fileInDir)
    l (Fault f) = Fault f.
Proof. induction l as [|e l IH]; cbn [fold_left bind]; auto. Qed.

(** Room entries that can be read fill the array from [arrIdx] on, in the
    order [readdir] returns them; the other entries are passed over. *)
Lemma loadEntry_fold (dirName : string) (files : list dirFile) :
  Forall (fun fileInDir =>
            (String.length (pathOf dirName fileInDir) < 256)%nat /\
            exists content roomObj,
              fileContent fileInDir = Some content /\
              readFile content = Ok roomObj)
         (roomEntries files) ->
  forall (pre rest : list room),
    (length (roomEntries files) <= length rest)%nat ->
    fold_left (fun acc fileInDir => st <- acc ;; loadEntry dirName st fileInDir)
      files (Ok (pre ++ rest, length pre))
    = Ok (pre ++ map (fun fileInDir => roomRead (fileContent fileInDir))
                     (roomEntries files)
              ++ skipn (length (roomEntries files)) rest,
          (length pre + length (roomEntries files))%nat).
Proof.
  induction files as [|e files IH]; intros Hok pre rest Hlen.
  - cbn. rewrite Nat.add_0_r. reflexivity.
  - cbn [fold_left bind]. unfold loadEntry at 2.
    unfold roomEntries in *. cbn [filter] in *.
    destruct (strstr (fileName e) "_room") eqn:Eroom.
    + inversion Hok as [|? ? (Hpath & content & roomObj & Hc & Hr) Hok'];
        subst.
      destruct (Nat.leb_spec 256 (String.length (pathOf dirName e))); [lia|].
      rewrite Hc, Hr. cbn [bind].
      destruct rest as [|x rest]; [cbn in Hlen; lia|].
      rewrite length_app. cbn [length].
      destruct (Nat.ltb_spec (length pre) (length pre + S (length rest)));
        [|lia].
      rewrite RoomFileProofs.upd_middle.
      replace (pre ++ roomObj :: rest) with ((pre ++ [roomObj]) ++ rest)
        by (rewrite <- app_assoc; reflexivity).
      replace (S (length pre)) with (length (pre ++ [roomObj]))
        by (rewrite length_app; cbn [length]; lia).
      rewrite IH; [|exact Hok'|cbn [length] in Hlen; lia].
      cbn [map length skipn]. unfold roomRead at 2. rewrite Hc, Hr.
      rewrite <- app_assoc, length_app. cbn [app length].
      f_equal. f_equal. lia.
    + apply IH; assumption.
Qed.

Lemma setRoomArray_loads (dirName : string) (files : list dirFile)
    (roomArr : list room) :
  Forall (fun fileInDir =>
            (String.length (pathOf dirName fileInDir) < 256)%nat /\
            exists content roomObj,
              fileContent fileInDir = Some content /\
              readFile content = Ok roomObj)
         (roomEntries files) ->
  length (roomEntries files) = length roomArr ->
  setRoomArray dirName (Some files) roomArr
  = Ok (map (fun fileInDir => roomRead (fileContent fileInDir))
            (roomEntries files)).
Proof.
  intros Hok Hlen. unfold setRoomArray.
  pose proof (loadEntry_fold dirName files Hok [] roomArr ltac:(lia)) as H.
  cbn [app length Nat.add] in H. rewrite H.
  cbn [bind fst]. rewrite Hlen, skipn_all, app_nil_r. reflexivity.
Qed.

(** ** The rooms of a builder run *)

Section BuiltRooms.
Variables (names : list string) (g : BuildRooms.graph) (types : list Z).
Hypothesis Hg : BuildRooms.graphInvariant g.
Hypothesis Hdeg :
  forall x, (x < 7)%nat -> (3 <= BuildRooms.countConnections g x)%Z.
Hypothesis Hlen : length names = 7%nat.
Hypothesis Hnd : NoDup names.
Hypothesis Hpool : Forall (fun name => In name BuildRooms.rooms) names.
Hypothesis Hperm : Permutation types [0; 1; 2; 3; 4; 5; 6]%Z.

Let built := builtRoom names g types.

Lemma built_connections (b : nat) :
  (b < 7)%nat ->
  connectionNames (firstn 6 (roomConnections (built b)))
  = BuildRooms.recConnections
      (BuildRooms.recordOf names g b (nth b types 0%Z)).
Proof.
  intros Hb. unfold built, builtRoom, roomOfRecord. cbn [roomConnections].
  set (conns := BuildRooms.recConnections _).
  assert (Hle : (length conns <= 6)%nat).
  { unfold conns. rewrite BuilderFacts.recordOf_connections.
    pose proof (GraphProofs.countConnections_le6 g b Hg Hb) as Hle.
    rewrite GraphProofs.countConnections_filter in Hle. lia. }
  rewrite firstn_all2.
  - apply RoomFileProofs.connectionNames_some.
  - rewrite length_app, length_map, repeat_length. lia.
Qed.

Lemma built_connects (b : nat) (name : string) :
  (b < 7)%nat ->
  (In name (connectionNames (firstn 6 (roomConnections (built b)))) <->
   exists c, (c < 7)%nat /\ BuildRooms.isSet g b c = true /\
             name = nth c names "").
Proof.
  intros Hb. rewrite built_connections by exact Hb.
  cbn [BuildRooms.recordOf BuildRooms.recConnections].
  unfold BuildRooms.connectionsOf. rewrite in_map_iff. split.
  - intros (v & <- & Hv). apply in_flat_map in Hv as (c & Hc & Hv).
    apply in_seq in Hc. fold (BuildRooms.isSet g b c) in Hv.
    destruct (BuildRooms.isSet g b c) eqn:Eset; [|destruct Hv].
    destruct Hv as [<-|[]]. exists c. split; [lia|]. split; [exact Eset|].
    destruct (BuildRooms.inv_cells g Hg b c Hb ltac:(lia)) as [E|E].
    + apply GraphProofs.isSet_unset in E. congruence.
    + rewrite E, Nat2Z.id. reflexivity.
  - intros (c & Hc & Hset & ->). exists (Z.of_nat c).
    split; [rewrite Nat2Z.id; reflexivity|].
    apply in_flat_map. exists c. split; [apply in_seq; lia|].
    fold (BuildRooms.isSet g b c). rewrite Hset.
    destruct (BuildRooms.inv_cells g Hg b c Hb Hc) as [E|E].
    + apply GraphProofs.isSet_unset in E. congruence.
    + rewrite E. left. reflexivity.
Qed.

Lemma built_connects_room (b c : nat) :
  (b < 7)%nat -> (c < 7)%nat ->
  (In (nth c names "")
      (connectionNames (firstn 6 (roomConnections (built b)))) <->
   BuildRooms.isSet g b c = true).
Proof.
  intros Hb Hc. rewrite built_connects by exact Hb. split.
  - intros (c' & Hc' & Hset & E).
    apply (proj1 (NoDup_nth names "") Hnd) in E; [subst; exact Hset | lia..].
  - intros Hset. exists c. auto.
Qed.

Lemma built_connections_NoDup (b : nat) :
  (b < 7)%nat ->
  NoDup (connectionNames (firstn 6 (roomConnections (built b)))).
Proof.
  intros Hb. rewrite built_connections by exact Hb.
  cbn [BuildRooms.recordOf BuildRooms.recConnections].
  apply Finite.Injective_map_NoDup_in;
    [|apply GraphProofs.connectionsOf_NoDup; assumption].
  assert (Hval : forall v, In v (BuildRooms.connectionsOf g b) ->
                           (0 <= v < 7)%Z).
  { intros v Hv. unfold BuildRooms.connectionsOf in Hv.
    apply in_flat_map in Hv as (c & Hc & Hv). apply in_seq in Hc.
    destruct (BuildRooms.inv_cells g Hg b c Hb ltac:(lia)) as [E|E];
      rewrite E in Hv; [destruct Hv|].
    destruct (negb (Z.of_nat c =? -1)%Z); [|destruct Hv].
    destruct Hv as [<-|[]]. lia. }
  intros v w Hv Hw E. apply Hval in Hv, Hw.
  apply (proj1 (NoDup_nth names "") Hnd) in E; lia.
Qed.

Lemma built_connections_length (b : nat) :
  (b < 7)%nat ->
  (3 <= length (connectionNames (firstn 6 (roomConnections (built b))))
   <= 6)%nat.
Proof.
  intros Hb. rewrite built_connections by exact Hb.
  rewrite BuilderFacts.recordOf_connections.
  pose proof (Hdeg b Hb) as Hlow.
  pose proof (GraphProofs.countConnections_le6 g b Hg Hb) as Hhigh.
  rewrite GraphProofs.countConnections_filter in Hlow, Hhigh. lia.
Qed.

Lemma built_name (b : nat) : roomName (built b) = text (nth b names "").
Proof. reflexivity. Qed.

Lemma built_type (b : nat) :
  roomType (built b) = text (BuildRooms.roomTypeName (nth b types 0%Z)).
Proof. reflexivity. Qed.

Lemma built_terminated (b : nat) :
  Forall terminated (roomConnections (built b)).
Proof.
  unfold built, builtRoom, roomOfRecord. cbn [roomConnections].
  apply Forall_app. split.
  - apply Forall_forall. intros c Hc.
    apply in_map_iff in Hc as (name & <- & _). exact I.
  - apply Forall_forall. intros c Hc. apply repeat_spec in Hc. subst c.
    exact I.
Qed.

Lemma built_inj (b b' : nat) :
  (b < 7)%nat -> (b' < 7)%nat ->
  roomName (built b) = roomName (built b') -> b = b'.
Proof.
  intros Hb Hb' E. rewrite !built_name in E. unfold text in E.
  inversion E as [E'].
  apply (proj1 (NoDup_nth names "") Hnd) in E'; lia.
Qed.

(** The types drawn: one entry holds 0, one holds 6 and the others a value
    between them. *)
Lemma types_start_end :
  exists bs bf, (bs < 7)%nat /\ (bf < 7)%nat /\ bs <> bf /\
    forall b, (b < 7)%nat ->
      BuildRooms.roomTypeName (nth b types 0%Z)
      = if (b =? bs)%nat then "START_ROOM"
        else if (b =? bf)%nat then "END_ROOM" else "MID_ROOM".
Proof.
  assert (Hl : length types = 7%nat)
    by (rewrite (Permutation_length Hperm); reflexivity).
  assert (Hnodup : NoDup types).
  { apply (Permutation_NoDup (Permutation_sym Hperm)).
    repeat constructor; cbn; intuition discriminate. }
  assert (Hin : forall v, In v types <-> (0 <= v <= 6)%Z).
  { intros v. split; intros Hv.
    - apply (Permutation_in _ Hperm) in Hv. cbn in Hv. lia.
    - apply (Permutation_in _ (Permutation_sym Hperm)). cbn. lia. }
  destruct (In_nth types 0%Z 0%Z (proj2 (Hin 0%Z) ltac:(lia)))
    as (bs & Hbs & Es).
  destruct (In_nth types 6%Z 0%Z (proj2 (Hin 6%Z) ltac:(lia)))
    as (bf & Hbf & Ef).
  exists bs, bf. split; [lia|]. split; [lia|].
  split; [intros ->; congruence|].
  intros b Hb. unfold BuildRooms.roomTypeName.
  destruct (Nat.eqb_spec b bs) as [->|Hns]; [rewrite Es; reflexivity|].
  destruct (Z.eqb_spec (nth b types 0%Z) 0) as [E0|E0].
  { exfalso. apply Hns. apply (proj1 (NoDup_nth types 0%Z) Hnodup); lia. }
  destruct (Nat.eqb_spec b bf) as [->|Hnf]; [rewrite Ef; reflexivity|].
  destruct (Z.eqb_spec (nth b types 0%Z) 6) as [E6|E6]; [|reflexivity].
  exfalso. apply Hnf. apply (proj1 (NoDup_nth types 0%Z) Hnodup); lia.
Qed.

Section Held.
Variable roomArr : list room.
Hypothesis Hheld : Permutation roomArr (map built (seq 0 7)).

Lemma held_length : length roomArr = 7%nat.
Proof.
  rewrite (Permutation_length Hheld), length_map, length_seq. reflexivity.
Qed.

Lemma held_built (i : nat) :
  (i < 7)%nat -> exists b, (b < 7)%nat /\ roomAt roomArr i = built b.
Proof.
  intros Hi. unfold roomAt.
  assert (Hin : In (nth i roomArr initializeData) roomArr)
    by (apply nth_In; rewrite held_length; exact Hi).
  apply (Permutation_in _ Hheld) in Hin.
  apply in_map_iff in Hin as (b & E & Hb). apply in_seq in Hb.
  exists b. split; [lia | symmetry; exact E].
Qed.

Lemma built_held (b : nat) :
  (b < 7)%nat -> exists i, (i < 7)%nat /\ roomAt roomArr i = built b.
Proof.
  intros Hb.
  assert (Hin : In (built b) roomArr).
  { apply (Permutation_in _ (Permutation_sym Hheld)).
    apply in_map. apply in_seq. lia. }
  destruct (In_nth roomArr (built b) initializeData Hin) as (i & Hi & E).
  rewrite held_length in Hi. exists i. split; [exact Hi | exact E].
Qed.

Lemma held_names_NoDup : NoDup (map roomName roomArr).
Proof.
  apply (Permutation_NoDup
           (Permutation_sym (Permutation_map roomName Hheld))).
  rewrite map_map.
  apply Finite.Injective_map_NoDup_in; [|apply seq_NoDup].
  intros b b' Hb Hb'. apply in_seq in Hb, Hb'. apply built_inj; lia.
Qed.

Lemma held_same_name (i j : nat) :
  (i < 7)%nat -> (j < 7)%nat ->
  roomName (roomAt roomArr i) = roomName (roomAt roomArr j) -> i = j.
Proof.
  intros Hi Hj E. unfold roomAt in E.
  rewrite <- !(map_nth roomName) in E.
  apply (proj1 (NoDup_nth (map roomName roomArr)
                  (roomName initializeData)) held_names_NoDup);
    rewrite ?length_map, ?held_length; assumption.
Qed.

Lemma held_nameOf (i b : nat) :
  roomAt roomArr i = built b -> nameOf roomArr i = nth b names "".
Proof. intros E. unfold nameOf. rewrite E. reflexivity. Qed.

Lemma held_wellBuilt : wellBuilt roomArr.
Proof.
  split; [|split; [|split; [|split; [|split]]]].
  - intros i Hi. destruct (held_built i Hi) as (b & Hb & E). rewrite E.
    split; [eexists; reflexivity|].
    split; [eexists; reflexivity | apply built_terminated].
  - intros i Hi. destruct (held_built i Hi) as (b & Hb & E).
    rewrite (held_nameOf i b E). split.
    + rewrite Forall_forall in Hpool. apply Hpool. apply nth_In. lia.
    + split; [exact Hi|]. intros other Hother. split.
      * intros Hname. apply held_same_name; auto.
        rewrite Hname, E. reflexivity.
      * intros ->. rewrite E. reflexivity.
  - destruct types_start_end as (bs & bf & Hbs & Hbf & Hne & Htypes).
    destruct (built_held bs Hbs) as (start & Hstart & Es).
    destruct (built_held bf Hbf) as (finish & Hfinish & Ef).
    exists start, finish. split; [exact Hstart|]. split; [exact Hfinish|].
    split.
    { intros ->. apply Hne. apply built_inj; auto. congruence. }
    intros i Hi. destruct (held_built i Hi) as (b & Hb & E).
    rewrite E, built_type, (Htypes b Hb). f_equal.
    assert (Hsame : forall j c, (j < 7)%nat -> (c < 7)%nat ->
              roomAt roomArr j = built c -> ((b =? c)%nat = (i =? j)%nat)).
    { intros j c Hj Hc Ej.
      destruct (Nat.eqb_spec b c) as [->|Hbc];
        destruct (Nat.eqb_spec i j) as [->|Hij]; try reflexivity; exfalso.
      - apply Hij. apply held_same_name; auto. congruence.
      - apply Hbc. apply built_inj; auto. congruence. }
    rewrite (Hsame start bs), (Hsame finish bf) by assumption. reflexivity.
  - intros i Hi. destruct (held_built i Hi) as (b & Hb & E).
    unfold connectionsAt, connectsTo. rewrite E.
    split; [apply built_connections_length; exact Hb|].
    split; [apply built_connections_NoDup; exact Hb|].
    intros name Hname. apply built_connects in Hname as (c & Hc & Hset & ->);
      [|exact Hb].
    destruct (built_held c Hc) as (j & Hj & Ej).
    exists j. split; [exact Hj|]. split; [|symmetry; apply held_nameOf; exact Ej].
    intros ->. assert (c = b) by (apply built_inj; auto; congruence).
    subst c. rewrite (BuilderFacts.isSet_diag g b Hg Hb) in Hset.
    discriminate.
  - intros i j Hi Hj. destruct (held_built i Hi) as (b & Hb & E).
    destruct (held_built j Hj) as (b' & Hb' & E').
    unfold connectsTo. rewrite E, E', (held_nameOf i b E), (held_nameOf j b' E').
    rewrite !built_connects_room by assumption.
    rewrite (BuilderFacts.isSet_sym g b b' Hg Hb Hb'). auto.
  - intros i j Hi Hj Hij. destruct (held_built i Hi) as (b & Hb & E).
    destruct (held_built j Hj) as (b' & Hb' & E').
    assert (Hbb : b <> b').
    { intros ->. apply Hij. apply held_same_name; auto. congruence. }
    unfold connectsTo. rewrite E, (held_nameOf j b' E').
    destruct (BuilderFacts.full_graph_within_two g b b' Hg Hdeg Hb Hb' Hbb)
      as [Hc|(c & Hc & Hbc & Hcb')].
    + left. apply built_connects_room; auto.
      apply BuilderFacts.connected_isSet. exact Hc.
    + right. destruct (built_held c Hc) as (k & Hk & Ek).
      exists k. split; [exact Hk|]. rewrite Ek, (held_nameOf k c Ek). split.
      * apply built_connects_room; auto.
        apply BuilderFacts.connected_isSet. exact Hbc.
      * apply built_connects_room; auto.
        apply BuilderFacts.connected_isSet. exact Hcb'.
Qed.

End Held.

End BuiltRooms.

(** The rooms [setRoomArray] loads from the directory of a builder run. *)
Lemma builder_rooms_load (fuel : nat) (rs0 rs1 : rand_stream) (pid : nat)
    (opens : nat -> bool) (dirName : string)
    (written : list BuildRooms.roomFile) (files : list dirFile) :
  BuildRooms.main fuel rs0 rs1 pid opens = BuildRooms.Done (dirName, written) ->
  (String.length dirName <= 127)%nat ->
  holdsRoomFiles dirName files written ->
  exists roomArr,
    setRoomArray dirName (Some files) (repeat initializeData 7) = Ok roomArr /\
    wellBuilt roomArr.
Proof.
  intros Hmain Hdir Hholds.
  destruct (BuilderFacts.main_output _ _ _ _ _ _ _ Hmain)
    as (_ & g & names & types & Hg & Hdeg & _ & Hlen & Hnd & Hpool & Hperm
        & ->).
  unfold holdsRoomFiles in Hholds. rewrite map_map in Hholds.
  cbn [fst snd] in Hholds.
  assert (Hread : forall i, (i < 7)%nat ->
            readFile (BuildRooms.roomFileContent names g i (nth i types 0%Z))
            = Ok (builtRoom names g types i)).
  { intros i Hi. apply RoomFileProofs.generated_file_reads_back; auto. }
  assert (Hok : Forall
            (fun fileInDir =>
               (String.length (pathOf dirName fileInDir) < 256)%nat /\
               exists content roomObj,
                 fileContent fileInDir = Some content /\
                 readFile content = Ok roomObj)
            (roomEntries files)).
  { apply Forall_forall. intros e He.
    assert (Hin : In (pathOf dirName e, fileContent e)
                    (map (fun fileInDir =>
                            (pathOf dirName fileInDir, fileContent fileInDir))
                         (roomEntries files)))
      by (apply in_map_iff; exists e; auto).
    apply (Permutation_in _ Hholds) in Hin.
    apply in_map_iff in Hin as (i & E & Hi). apply in_seq in Hi.
    injection E as Epath Econtent. split.
    - rewrite <- Epath. unfold BuildRooms.roomFilePath.
      rewrite !length_append.
      assert (Hname : In (nth i names "") BuildRooms.rooms).
      { rewrite Forall_forall in Hpool. apply Hpool. apply nth_In. lia. }
      apply GameProofs.pool_names_typed in Hname as [Hshort _].
      cbn [String.length]. lia.
    - rewrite <- Econtent. eexists. eexists. split; [reflexivity|].
      apply Hread. lia. }
  assert (Hcount : length (roomEntries files) = 7%nat).
  { apply Permutation_length in Hholds.
    rewrite !length_map, length_seq in Hholds. exact Hholds. }
  eexists. split.
  - apply setRoomArray_loads; [exact Hok|].
    rewrite repeat_length. exact Hcount.
  - apply (held_wellBuilt names g types); auto.
    apply (Permutation_map (fun pc : string * option string =>
                              roomRead (snd pc))) in Hholds.
    rewrite !map_map in Hholds. cbn [snd] in Hholds.
    erewrite (map_ext_in _ (builtRoom names g types)) in Hholds;
      [exact Hholds|].
    intros i Hi. apply in_seq in Hi. unfold roomRead.
    rewrite Hread by lia. reflexivity.
Qed.

(** ** Winning a game the builder made *)

(** From the start room of a game the builder made, the end room is one
    connection or two away: a path of one or two names wins. *)
Lemma wellBuilt_path (roomArr : list room) :
  wellBuilt roomArr ->
  exists start finish path,
    (start < 7)%nat /\
    roomType (roomAt roomArr start) = text "START_ROOM" /\
    (1 <= length path <= 2)%nat /\
    Forall (fun name => In name BuildRooms.rooms) path /\
    validPath roomArr start path finish.
Proof.
  intros Hwell.
  destruct (GameProofs.wellBuilt_start roomArr Hwell)
    as (start & finish & Hs & Hf & Hne & Hfind & Hstart & Hend).
  destruct Hwell as (Hloaded & Hnames & _ & Hconns & _ & Hnear).
  exists start, finish.
  assert (Hname : forall i, (i < 7)%nat ->
            roomName (roomAt roomArr i) = text (nameOf roomArr i)).
  { intros i Hi. destruct (proj1 (Hloaded i Hi)) as [name E].
    unfold nameOf. rewrite E. reflexivity. }
  destruct (Hnear start finish Hs Hf Hne) as [Hdirect|(k & Hk & Hsk & Hkf)].
  - exists [nameOf roomArr finish]. split; [exact Hs|].
    split; [apply Hstart; auto|]. split; [cbn; lia|]. split.
    + constructor; [apply Hnames; exact Hf | constructor].
    + apply path_last; auto. apply Hend; auto.
  - exists [nameOf roomArr k; nameOf roomArr finish]. split; [exact Hs|].
    split; [apply Hstart; auto|]. split; [cbn; lia|]. split.
    + constructor; [apply Hnames; exact Hk|].
      constructor; [apply Hnames; exact Hf | constructor].
    + assert (Hkne : k <> finish).
      { intros ->.
        destruct (proj2 (proj2 (Hconns finish Hf)) _ Hkf)
          as (j & Hj & Hjne & E).
        apply Hjne.
        apply (proj1 (proj2 (proj2 (Hnames finish Hf)) j Hj)).
        rewrite E. apply Hname. exact Hj. }
      apply (path_move roomArr start k finish); auto.
      * intros E. apply Hkne. apply (Hend k Hk). exact E.
      * apply path_last; auto. apply Hend; auto.
Qed.

(** A valid path typed one name per line wins a game the builder made. *)
Lemma path_wins (times : nat -> string) (roomArr : list room)
    (start finish : nat) (path : list string) (rest : string) :
  wellBuilt roomArr -> (start < 7)%nat ->
  roomType (roomAt roomArr start) = text "START_ROOM" ->
  validPath roomArr start path finish ->
  exists final shown,
    runGameDriver times roomArr (typedLines path rest) = Ok final /\
    stepCount final = length path /\ visitedRooms final = path /\
    stdin final = rest /\
    stdout final
    = shown
      ++ [("YOU HAVE FOUND THE END ROOM. CONGRATULATIONS!" ++ newline)%string;
          ("YOU TOOK " ++ NilEmpty.string_of_uint (Nat.to_uint (length path))
           ++ " STEPS. YOUR PATH TO VICTORY WAS:" ++ newline)%string]
      ++ map (fun name => (name ++ newline)%string) path.
Proof.
  intros Hwell Hlt Htype Hvalid.
  pose proof (proj1 Hwell) as Hloaded.
  pose proof (GameProofs.validPath_leadsTo roomArr start finish path Hwell
                Hvalid) as Hpath.
  destruct (GameProofs.wellBuilt_start roomArr Hwell)
    as (start' & finish' & _ & _ & _ & Hfind & Hstart & _).
  apply (Hstart start Hlt) in Htype as Hsame. subst start'.
  unfold runGameDriver. rewrite Hfind. cbn [bind].
  assert (Hnotend : ~ isEndRoom roomArr start)
    by (unfold isEndRoom; rewrite Htype; discriminate).
  pose proof (GameProofs.typedLines_length path rest) as Hfuel.
  destruct (GameProofs.gameLoop_path times roomArr start finish path Hloaded
              Hpath (S (String.length (typedLines path rest)))
              {| currentRoom := start; stepCount := 0; userInputRoom := "";
                 visitedRooms := []; stdin := typedLines path rest;
                 stdout := []; timeCalls := 0 |}
              rest ltac:(lia) eq_refl Hlt Hnotend eq_refl)
    as (final & shown & Hloop & Hc & Hs & Hv & Hi & Ho).
  cbn [stepCount visitedRooms app Nat.add] in *.
  exists final, shown. split; [exact Hloop|].
  split; [exact Hs|]. split; [exact Hv|]. split; [exact Hi|].
  rewrite Ho, Hs, Hv. unfold victory. rewrite firstn_all. reflexivity.
Qed.

(** X10: the runner loads what the builder wrote.  When the rooms directory
    holds the seven files of a completed builder run (and no other file
    with [_room] in its name), in whatever order [readdir] lists them,
    [setRoomArray] fills the seven rooms and they form a well-built game:
    different names of the pool, one START_ROOM, one END_ROOM, five
    MID_ROOMs, 3 to 6 connections each to other loaded rooms, every
    connection mutual, every room at most two connections from every
    other. *)
Theorem runner_loads_builder_rooms (fuel : nat) (rs0 rs1 : rand_stream)
    (pid : nat) (opens : nat -> bool) (dirName : string)
    (written : list BuildRooms.roomFile) (files : list dirFile) :
  BuildRooms.main fuel rs0 rs1 pid opens = BuildRooms.Done (dirName, written) ->
  (String.length dirName <= 127)%nat ->
  holdsRoomFiles dirName files written ->
  exists roomArr,
    setRoomArray dirName (Some files) (repeat initializeData 7) = Ok roomArr /\
    wellBuilt roomArr.
Proof. apply builder_rooms_load. Qed.

Lemma runner_loads_builder_rooms_witness :
  exists roomArr,
    setRoomArray "trompj.rooms.4242" (Some sampleDirectory)
      (repeat initializeData 7) = Ok roomArr /\
    wellBuilt roomArr.
Proof.
  eapply (runner_loads_builder_rooms 30 (fun n => n) (fun n => n) 4242
            (fun _ => true) "trompj.rooms.4242" _ sampleDirectory).
  - vm_compute. reflexivity.
  - vm_compute. lia.
  - vm_compute. apply Permutation_refl.
Defined.

(** X11: a game the builder made can be won in one or two moves.  When
    [mostRecentRooms] returns the directory of a completed builder run,
    there is a path of one or two room names with which [main] of the
    runner, fed these names one per line, reaches the END room, counts as
    many steps as names and prints the congratulation, that count and that
    path. *)
Theorem built_game_can_be_won (fuel : nat) (rs0 rs1 : rand_stream)
    (pid : nat) (opens : nat -> bool) (dirName : string)
    (written : list BuildRooms.roomFile) (entries : option (list dirEntry))
    (directory : string -> option (list dirFile)) (files : list dirFile) :
  BuildRooms.main fuel rs0 rs1 pid opens = BuildRooms.Done (dirName, written) ->
  mostRecentRooms entries = Ok dirName ->
  directory dirName = Some files ->
  holdsRoomFiles dirName files written ->
  exists path,
    (1 <= length path <= 2)%nat /\
    Forall (fun name => In name BuildRooms.rooms) path /\
    forall (times : nat -> string) (rest : string),
      exists final shown,
        main entries directory times (typedLines path rest) = Ok final /\
        stepCount final = length path /\ visitedRooms final = path /\
        stdin final = rest /\
        stdout final
        = shown
          ++ [("YOU HAVE FOUND THE END ROOM. CONGRATULATIONS!" ++ newline)
              %string;
              ("YOU TOOK "
               ++ NilEmpty.string_of_uint (Nat.to_uint (length path))
               ++ " STEPS. YOUR PATH TO VICTORY WAS:" ++ newline)%string]
          ++ map (fun name => (name ++ newline)%string) path.
Proof.
  intros Hmain Hrecent Hfiles Hholds.
  assert (Hdir : (String.length dirName <= 127)%nat).
  { pose proof (examine_state) as Hstate. unfold mostRecentRooms in Hrecent.
    destruct entries as [subDirs|];
      [|inversion Hrecent; subst; cbn; lia].
    specialize (Hstate subDirs [] (-1, "")%Z (or_introl eq_refl)).
    destruct (examineEntries subDirs (-1, "")%Z) as [st|f];
      cbn [bind] in Hrecent; [|discriminate].
    inversion Hrecent; subst.
    destruct Hstate as [->|(e & _ & -> & _ & Hshort)]; cbn [snd];
      [cbn; lia | lia]. }
  destruct (builder_rooms_load _ _ _ _ _ _ _ _ Hmain Hdir Hholds)
    as (roomArr & Hload & Hwell).
  destruct (wellBuilt_path roomArr Hwell)
    as (start & finish & path & Hs & Htype & Hlen & Hpool & Hpath).
  exists path. split; [exact Hlen|]. split; [exact Hpool|].
  intros times rest. unfold main. rewrite Hrecent. cbn [bind].
  rewrite Hfiles, Hload. cbn [bind].
  apply (path_wins times roomArr start finish path rest); auto.
Qed.

Lemma built_game_can_be_won_witness :
  exists path,
    (1 <= length path <= 2)%nat /\
    Forall (fun name => In name BuildRooms.rooms) path /\
    forall (times : nat -> string) (rest : string),
      exists final shown,
        main (Some sampleEntries) sampleFiles times (typedLines path rest)
        = Ok final /\
        stepCount final = length path /\ visitedRooms final = path /\
        stdin final = rest /\
        stdout final
        = shown
          ++ [("YOU HAVE FOUND THE END ROOM. CONGRATULATIONS!" ++ newline)
              %string;
              ("YOU TOOK "
               ++ NilEmpty.string_of_uint (Nat.to_uint (length path))
               ++ " STEPS. YOUR PATH TO VICTORY WAS:" ++ newline)%string]
          ++ map (fun name => (name ++ newline)%string) path.
Proof.
  eapply (built_game_can_be_won 30 (fun n => n) (fun n => n) 4242
            (fun _ => true) "trompj.rooms.4242" _ (Some sampleEntries)
            sampleFiles sampleDirectory).
  - vm_compute. reflexivity.
  - vm_compute. reflexivity.
  - reflexivity.
  - vm_compute. apply Permutation_refl.
Defined.

(** ** Too many room files, too few *)

Lemma loadEntry_overflow (dirName : string) (files : list dirFile) :
  Forall (fun fileInDir =>
            (String.length (pathOf dirName fileInDir) < 256)%nat /\
            exists content roomObj,
              fileContent fileInDir = Some content /\
              readFile content = Ok roomObj)
         (roomEntries files) ->
  forall (pre rest : list room),
    (length rest < length (roomEntries files))%nat ->
    fold_left (fun acc fileInDir => st <- acc ;; loadEntry dirName st fileInDir)
      files (Ok (pre ++ rest, length pre))
    = Fault (IndexOutOfBounds "roomArr"
               (Z.of_nat (length pre + length rest))).
Proof.
  induction files as [|e files IH]; intros Hok pre rest Hlen.
  - cbn in Hlen. lia.
  - cbn [fold_left bind]. unfold loadEntry at 2.
    unfold roomEntries in *. cbn [filter] in *.
    destruct (strstr (fileName e) "_room") eqn:Eroom.
    + inversion Hok as [|? ? (Hpath & content & roomObj & Hc & Hr) Hok'];
        subst.
      destruct (Nat.leb_spec 256 (String.length (pathOf dirName e))); [lia|].
      rewrite Hc, Hr. cbn [bind]. rewrite length_app.
      destruct rest as [|x rest]; cbn [length].
      * destruct (Nat.ltb_spec (length pre) (length pre + 0)); [lia|].
        rewrite loadEntry_fault, Nat.add_0_r. reflexivity.
      * destruct (Nat.ltb_spec (length pre) (length pre + S (length rest)));
          [|lia].
        rewrite RoomFileProofs.upd_middle.
        replace (pre ++ roomObj :: rest) with ((pre ++ [roomObj]) ++ rest)
          by (rewrite <- app_assoc; reflexivity).
        replace (S (length pre)) with (length (pre ++ [roomObj]))
          by (rewrite length_app; cbn [length]; lia).
        rewrite IH; [|exact Hok'|cbn [length] in Hlen; lia].
        rewrite length_app. cbn [length]. do 2 f_equal. lia.
    + apply IH; assumption.
Qed.

(** X12: [setRoomArray] does not check [arrIdx] against the array: when
    the directory holds more readable room files than [roomArr] has rooms,
    the room read from the first file too many is stored past the end of
    the array. *)
Theorem setRoomArray_overruns_roomArr (dirName : string)
    (files : list dirFile) (roomArr : list room) :
  Forall (fun fileInDir =>
            (String.length (pathOf dirName fileInDir) < 256)%nat /\
            exists content roomObj,
              fileContent fileInDir = Some content /\
              readFile content = Ok roomObj)
         (roomEntries files) ->
  (length roomArr < length (roomEntries files))%nat ->
  setRoomArray dirName (Some files) roomArr
  = Fault (IndexOutOfBounds "roomArr" (Z.of_nat (length roomArr))).
Proof.
  intros Hok Hlen. unfold setRoomArray.
  pose proof (loadEntry_overflow dirName files Hok [] roomArr Hlen) as H.
  cbn [app length Nat.add] in H. rewrite H. reflexivity.
Qed.

Lemma setRoomArray_overruns_roomArr_witness :
  setRoomArray "trompj.rooms.4242"
    (Some (sampleDirectory
           ++ [ {| fileName := "Attic_room.bak";
                   fileContent := Some (BuildRooms.nameLine "Attic") |} ]))
    (repeat initializeData 7)
  = Fault (IndexOutOfBounds "roomArr"
             (Z.of_nat (length (repeat initializeData 7)))).
Proof.
  apply (setRoomArray_overruns_roomArr "trompj.rooms.4242"
           (sampleDirectory
            ++ [ {| fileName := "Attic_room.bak";
                    fileContent := Some (BuildRooms.nameLine "Attic") |} ])
           (repeat initializeData 7)).
  - let l := eval vm_compute in
      (roomEntries
         (sampleDirectory
          ++ [ {| fileName := "Attic_room.bak";
                  fileContent := Some (BuildRooms.nameLine "Attic") |} ])) in
    change (roomEntries
              (sampleDirectory
               ++ [ {| fileName := "Attic_room.bak";
                       fileContent := Some (BuildRooms.nameLine "Attic") |} ]))
      with l.
    repeat (apply Forall_cons;
            [split; [vm_compute; lia
                    | eexists; eexists; split;
                      [reflexivity | vm_compute; reflexivity]]|]).
    apply Forall_nil.
  - vm_compute. lia.
Defined.

(** X20: a room file that cannot be opened is reported, and then [fclose]
    is called on the null pointer: when the files before it were read and
    fit the array, the run of [setRoomArray] ends there. *)
Theorem setRoomArray_closes_null_file (dirName : string)
    (before after : list dirFile) (unreadable : dirFile)
    (roomArr : list room) :
  Forall (fun fileInDir =>
            (String.length (pathOf dirName fileInDir) < 256)%nat /\
            exists content roomObj,
              fileContent fileInDir = Some content /\
              readFile content = Ok roomObj)
         (roomEntries before) ->
  (length (roomEntries before) <= length roomArr)%nat ->
  strstr (fileName unreadable) "_room" = true ->
  (String.length (pathOf dirName unreadable) < 256)%nat ->
  fileContent unreadable = None ->
  setRoomArray dirName (Some (before ++ unreadable :: after)) roomArr
  = Fault (NullPointer "fPointer").
Proof.
  intros Hok Hlen Hroom Hpath Hnull. unfold setRoomArray.
  rewrite fold_left_app.
  pose proof (loadEntry_fold dirName before Hok [] roomArr Hlen) as H.
  cbn [app length Nat.add] in H. rewrite H.
  cbn [fold_left bind]. unfold loadEntry at 2. rewrite Hroom.
  destruct (Nat.leb_spec 256 (String.length (pathOf dirName unreadable)));
    [lia|].
  rewrite Hnull, loadEntry_fault. reflexivity.
Qed.

Lemma setRoomArray_closes_null_file_witness :
  setRoomArray "trompj.rooms.4242"
    (Some (sampleDirectory
           ++ {| fileName := "Attic_room"; fileContent := None |} :: []))
    (repeat initializeData 7)
  = Fault (NullPointer "fPointer").
Proof.
  apply (setRoomArray_closes_null_file "trompj.rooms.4242" sampleDirectory []
           {| fileName := "Attic_room"; fileContent := None |}
           (repeat initializeData 7)).
  - let l := eval vm_compute in (roomEntries sampleDirectory) in
    change (roomEntries sampleDirectory) with l.
    repeat (apply Forall_cons;
            [split; [vm_compute; lia
                    | eexists; eexists; split;
                      [reflexivity | vm_compute; reflexivity]]|]).
    apply Forall_nil.
  - vm_compute. lia.
  - reflexivity.
  - vm_compute. lia.
  - reflexivity.
Defined.

Lemma prefix_length (a b : string) :
  prefix a b = true -> (String.length a <= String.length b)%nat.
Proof.
  revert b. induction a as [|c a IH]; intros b H; cbn [String.length];
    [lia|].
  destruct b as [|d b]; cbn [prefix] in H; [discriminate|].
  destruct (ascii_dec c d); [|discriminate].
  apply IH in H. cbn [String.length]. lia.
Qed.

(** A room type [readFile] leaves without terminator has 11 characters. *)
Lemma readLines_type_size (lines : list string) :
  forall (r r' : room) (c c' : nat),
    (forall bytes, roomType r = Some (Unterminated bytes) ->
                   String.length bytes = 11%nat) ->
    readLines (r, c) lines = Ok (r', c') ->
    forall bytes, roomType r' = Some (Unterminated bytes) ->
                  String.length bytes = 11%nat.
Proof.
  induction lines as [|l lines IH]; intros r r' c c' Hr H;
    cbn [readLines] in H.
  - inversion H; subst. exact Hr.
  - destruct (readLine (r, c) l) as [[r1 c1]|f] eqn:E; cbn [bind] in H;
      [|discriminate].
    apply (IH r1 r' c1 c'); [|exact H].
    clear H IH. unfold readLine in E. destruct (classify l).
    + destruct (copyPayload "name" 11 11 l); cbn [bind] in E;
        inversion E; subst. exact Hr.
    + unfold copyPayload in E.
      destruct (String.length (payload 11 l) <? 11)%nat; cbn [bind] in E;
        [inversion E; subst; cbn [roomType]; discriminate|].
      destruct (Nat.eqb_spec (String.length (payload 11 l)) 11) as [Hl|Hl];
        cbn [bind] in E; [|discriminate].
      inversion E; subst. cbn [roomType]. intros bytes Hb.
      inversion Hb; subst. exact Hl.
    + destruct (copyPayload "roomConn" 10 14 l); cbn [bind] in E;
        [|discriminate].
      destruct (c <? 6)%nat; inversion E; subst. exact Hr.
    + inversion E; subst. exact Hr.
Qed.

Lemma readFile_type_size (content : string) (roomObj : room) (bytes : string) :
  readFile content = Ok roomObj ->
  roomType roomObj = Some (Unterminated bytes) ->
  String.length bytes = 11%nat.
Proof.
  unfold readFile. intros H.
  destruct (readLines (initializeData, 0%nat) (linesOf content))
    as [[r c]|f] eqn:E; cbn [bind fst] in H; [|discriminate].
  inversion H; subst.
  eapply readLines_type_size; [|exact E]. intros b Hb. discriminate Hb.
Qed.

Lemma roomRead_type_size (content : option string) (bytes : string) :
  roomType (roomRead content) = Some (Unterminated bytes) ->
  String.length bytes = 11%nat.
Proof.
  unfold roomRead. destruct content as [text|]; [|discriminate].
  destruct (readFile text) as [roomObj|f] eqn:E; [|discriminate].
  apply (readFile_type_size _ _ _ E).
Qed.

Lemma findStart_null (roomArr : list room) (i : nat) (l : list nat) :
  In i l -> roomType (roomAt roomArr i) = None ->
  (forall j bytes,
     roomType (roomAt roomArr j) = Some (Unterminated bytes) ->
     String.length bytes = 11%nat) ->
  forall cur,
    fold_left
      (fun found roomNum =>
         currentRoom <- found ;;
         isStart <- strcmp0_ptr "roomType" (roomType (roomAt roomArr roomNum))
                      "START_ROOM" ;;
         Ok (if isStart then Some roomNum else currentRoom))
      l (Ok cur)
    = Fault (NullPointer "roomType").
Proof.
  intros Hin Hnull Hsize. induction l as [|x l IH]; intros cur;
    [destruct Hin|].
  cbn [fold_left bind].
  destruct (roomType (roomAt roomArr x)) as [[type|bytes]|] eqn:Etype;
    cbn [strcmp0_ptr strcmpBuffer bind].
  - apply IH. destruct Hin as [->|Hin]; [congruence | exact Hin].
  - destruct (prefix bytes "START_ROOM") eqn:Ep.
    + apply prefix_length in Ep. rewrite (Hsize x bytes Etype) in Ep.
      cbn in Ep. lia.
    + cbn [bind]. apply IH.
      destruct Hin as [->|Hin]; [congruence | exact Hin].
  - apply GameProofs.findStart_fault.
Qed.

(** X13: the runner does not check that seven rooms were loaded.  When the
    rooms directory cannot be opened (as when no directory has the prefix
    and [dirName] is left empty), or holds fewer than seven room files,
    the search for the start room passes the null [roomType] of a room
    that was never filled to [strcmp]. *)
Theorem runner_needs_seven_rooms (entries : option (list dirEntry))
    (directory : string -> option (list dirFile)) (times : nat -> string)
    (input : string) (dirName : string) :
  mostRecentRooms entries = Ok dirName ->
  (directory dirName = None ->
   main entries directory times input = Fault (NullPointer "roomType")) /\
  (forall files,
     directory dirName = Some files ->
     Forall (fun fileInDir =>
               (String.length (pathOf dirName fileInDir) < 256)%nat /\
               exists content roomObj,
                 fileContent fileInDir = Some content /\
                 readFile content = Ok roomObj)
            (roomEntries files) ->
     (length (roomEntries files) < 7)%nat ->
     main entries directory times input = Fault (NullPointer "roomType")).
Proof.
  intros Hrecent. split.
  - intros Hdir. unfold main. rewrite Hrecent. cbn [bind]. rewrite Hdir.
    cbn [setRoomArray bind].
    unfold runGameDriver, findStart.
    rewrite (findStart_null _ 0 (seq 0 7)); [reflexivity | cbn; tauto | |].
    + reflexivity.
    + intros j bytes. unfold roomAt.
      destruct (nth_in_or_default j (repeat initializeData 7) initializeData)
        as [Hin| ->]; [|discriminate].
      apply repeat_spec in Hin. rewrite Hin. discriminate.
  - intros files Hdir Hok Hfew. unfold main. rewrite Hrecent. cbn [bind].
    rewrite Hdir. unfold setRoomArray.
    pose proof (loadEntry_fold _ files Hok [] (repeat initializeData 7)) as H.
    cbn [app length Nat.add] in H. rewrite H by (rewrite repeat_length; lia).
    cbn [bind fst]. unfold runGameDriver, findStart.
    set (k := length (roomEntries files)) in *.
    rewrite (findStart_null _ k (seq 0 7));
      [reflexivity | apply in_seq; lia | |].
    + unfold roomAt. rewrite app_nth2 by (rewrite length_map; fold k; lia).
      rewrite length_map. fold k. rewrite Nat.sub_diag.
      rewrite nth_skipn, nth_repeat. reflexivity.
    + intros j bytes. unfold roomAt.
      match goal with
      | |- context [nth j ?l initializeData] =>
          destruct (nth_in_or_default j l initializeData) as [Hin| ->];
            [|discriminate]
      end.
      apply in_app_or in Hin as [Hin|Hin].
      * apply in_map_iff in Hin as (e & <- & _). apply roomRead_type_size.
      * assert (Hrep : In (nth j (map (fun fileInDir =>
                                         roomRead (fileContent fileInDir))
                                      (roomEntries files)
                                 ++ skipn k (repeat initializeData 7))
                             initializeData)
                         (repeat initializeData 7)).
        { revert Hin. generalize (nth j (map (fun fileInDir =>
                                         roomRead (fileContent fileInDir))
                                      (roomEntries files)
                                 ++ skipn k (repeat initializeData 7))
                             initializeData).
          intros r Hr. rewrite <- (firstn_skipn k (repeat initializeData 7)).
          apply in_or_app. right. exact Hr. }
        apply repeat_spec in Hrep. rewrite Hrep. discriminate.
Qed.

Lemma runner_needs_seven_rooms_witness :
  main (Some [ {| d_name := "."; st_mtime := 1793372000 |};
               {| d_name := "trompj.adventure.c"; st_mtime := 1793379000 |} ])
    (fun name => if String.eqb name "" then None else Some [])
    sampleTimes ("Garden" ++ newline)
  = Fault (NullPointer "roomType").
Proof.
  apply (proj1 (runner_needs_seven_rooms
                  (Some [ {| d_name := "."; st_mtime := 1793372000 |};
                          {| d_name := "trompj.adventure.c";
                             st_mtime := 1793379000 |} ])
                  (fun name => if String.eqb name "" then None else Some [])
                  sampleTimes ("Garden" ++ newline) ""
                  ltac:(vm_compute; reflexivity))).
  reflexivity.
Defined.

End RunnerFacts.

(** * More about the game loop *)

Module SessionFacts.
Import Adventure.
Local Open Scope string_scope.
Local Open Scope list_scope.

(** ** What one line of input does *)

Lemma readChars_split (n : nat) (stream : string) :
  stream = (fst (readChars n stream) ++ snd (readChars n stream))%string.
Proof.
  revert stream. induction n as [|n IH]; intros stream; [reflexivity|].
  destruct stream as [|c rest]; [reflexivity|]. cbn [readChars].
  destruct (Ascii.eqb c "010"); [reflexivity|].
  specialize (IH rest). destruct (readChars n rest) as [line rest'].
  cbn [fst snd append] in *. rewrite <- IH. reflexivity.
Qed.

(** Every line read takes at least one byte off [stdin]. *)
Lemma readInput_consumes (input line rest : string) :
  readInput input = Ok (line, rest) ->
  (String.length rest < String.length input)%nat.
Proof.
  unfold readInput, fgets. intros H.
  destruct input as [|c input]; [discriminate|].
  pose proof (readChars_split (256 - 1) (String c input)) as Hsplit.
  destruct (readChars (256 - 1) (String c input)) as [buffer rest'].
  cbn [fst snd] in Hsplit.
  destruct (10 <=? strlen buffer)%nat; [discriminate|].
  destruct (Nat.eqb_spec (strlen buffer) 0) as [E|E]; [discriminate|].
  inversion H; subst. apply (f_equal String.length) in Hsplit.
  rewrite length_append in Hsplit.
  pose proof (cstring_length buffer). unfold strlen in E. lia.
Qed.

Lemma readInput_fault (input : string) (f : fault) :
  readInput input = Fault f -> f <> OutOfFuel.
Proof.
  unfold readInput. intros H.
  destruct (match fgets 256 input with
            | Some (buffer, rest) => (buffer, rest)
            | None => ("", input)
            end) as [buffer rest].
  destruct (10 <=? strlen buffer)%nat; [inversion H; discriminate|].
  destruct (strlen buffer =? 0)%nat; inversion H; discriminate.
Qed.

Lemma enterRoom_fault_fold (roomArr : list room) (input : string)
    (l : list nat) (f : fault) :
  fold_left
    (fun acc roomNum =>
       '(currentRoom, roomFound, stepCount, visitedRooms) <- acc ;;
       same <- strcmp0_ptr "roomName" (roomName (roomAt roomArr roomNum))
                 input ;;
       if same
       then Ok (roomNum, true, S stepCount, visitedRooms ++ [input])
       else Ok (currentRoom, roomFound, stepCount, visitedRooms))
    l (Fault f) = Fault f.
Proof. induction l as [|x l IH]; cbn [fold_left bind]; auto. Qed.

Lemma strcmpBuffer_same (buffer : string) (a : chars) (b : string) :
  match strcmpBuffer buffer a b with
  | Ok same => same = true -> a = Text b
  | Fault f => f <> OutOfFuel
  end.
Proof.
  destruct a as [s|bytes]; cbn [strcmpBuffer].
  - unfold strcmp0. destruct (String.eqb_spec s b); [subst; auto | discriminate].
  - destruct (prefix bytes b); discriminate.
Qed.

(** The loop over [roomArr] counts a step and appends the name for every
    room called as the input; the last of them becomes the current room. *)
Lemma enterRoom_fold_steps (roomArr : list room) (input : string)
    (l : list nat) :
  (forall x, In x l -> (x < 7)%nat) ->
  forall cur found steps visited,
    match
      fold_left
        (fun acc roomNum =>
           '(currentRoom, roomFound, stepCount, visitedRooms) <- acc ;;
           same <- strcmp0_ptr "roomName" (roomName (roomAt roomArr roomNum))
                     input ;;
           if same
           then Ok (roomNum, true, S stepCount, visitedRooms ++ [input])
           else Ok (currentRoom, roomFound, stepCount, visitedRooms))
        l (Ok (cur, found, steps, visited))
    with
    | Ok (cur', found', steps', visited') =>
        exists k,
          steps' = (steps + k)%nat /\
          visited' = visited ++ repeat input k /\
          (k = 0%nat -> cur' = cur /\ found' = found) /\
          ((0 < k)%nat ->
           found' = true /\ (cur' < 7)%nat /\
           roomName (roomAt roomArr cur') = text input)
    | Fault f => f <> OutOfFuel
    end.
Proof.
  induction l as [|x l IH]; intros Hl cur found steps visited.
  - cbn [fold_left]. exists 0%nat. cbn [repeat]. rewrite app_nil_r.
    repeat split; auto; lia.
  - cbn [fold_left bind].
    assert (Hx : (x < 7)%nat) by (apply Hl; left; reflexivity).
    assert (Hl' : forall y, In y l -> (y < 7)%nat)
      by (intros y Hy; apply Hl; right; exact Hy).
    destruct (roomName (roomAt roomArr x)) as [name|] eqn:Ename;
      cbn [strcmp0_ptr bind];
      [|rewrite enterRoom_fault_fold; discriminate].
    pose proof (strcmpBuffer_same "roomName" name input) as Hsame.
    destruct (strcmpBuffer "roomName" name input) as [[|]|f]; cbn [bind].
    + rewrite (Hsame eq_refl) in Ename.
      specialize (IH Hl' x true (S steps) (visited ++ [input])).
      destruct (fold_left _ l _) as [[[[cur' found'] steps'] visited']|f];
        [|exact IH].
      destruct IH as (k & Hs & Hv & Hzero & Hpos).
      exists (S k). split; [lia|]. split.
      * rewrite Hv, <- app_assoc. reflexivity.
      * split; [lia|]. intros _.
        destruct k as [|k]; [|apply Hpos; lia].
        destruct (Hzero eq_refl) as [-> ->]. auto.
    + apply IH. exact Hl'.
    + rewrite enterRoom_fault_fold. exact Hsame.
Qed.

Lemma enterRoom_steps (roomArr : list room) (input : string)
    (cur : nat) (found : bool) (steps : nat) (visited : list string) :
  match enterRoom roomArr input (cur, found, steps, visited) with
  | Ok (cur', found', steps', visited') =>
      exists k,
        steps' = (steps + k)%nat /\
        visited' = visited ++ repeat input k /\
        (k = 0%nat -> cur' = cur /\ found' = found) /\
        ((0 < k)%nat ->
         found' = true /\ (cur' < 7)%nat /\
         roomName (roomAt roomArr cur') = text input)
  | Fault f => f <> OutOfFuel
  end.
Proof.
  unfold enterRoom. apply enterRoom_fold_steps.
  intros x Hx. apply in_seq in Hx. lia.
Qed.

Lemma matchConnection_steps (roomArr : list room)
    (conns : list (option chars)) (input : string)
    (st : nat * bool * nat * list string) :
  matchConnection roomArr conns input st = Ok st \/
  (In input (connectionNames conns) /\
   matchConnection roomArr conns input st = enterRoom roomArr input st) \/
  matchConnection roomArr conns input st
  = Fault (NotTerminated "roomConnections").
Proof.
  induction conns as [|[[conn|bytes]|] conns IH];
    cbn [matchConnection connectionNames In strcmpBuffer bind]; auto.
  - unfold strcmp0. destruct (String.eqb_spec conn input) as [->|Hne]; auto.
    destruct IH as [IH|[[Hin IH]|IH]]; auto.
  - destruct (prefix bytes input); cbn [bind]; auto.
Qed.

Lemma showConnections_fault (conns : list (option chars)) (f : fault) :
  showConnections conns = Fault f -> f <> OutOfFuel.
Proof.
  induction conns as [|[[conn|bytes]|] conns IH];
    cbn [showConnections deref bind]; try discriminate.
  - destruct (showConnections conns) as [more|f']; cbn [bind];
      [discriminate|].
    intros H. inversion H; subst. apply IH. reflexivity.
  - intros H. inversion H. discriminate.
Qed.

Lemma showRoom_fault (r : room) (f : fault) :
  showRoom r = Fault f -> f <> OutOfFuel.
Proof.
  unfold showRoom. destruct (roomName r) as [[name|bytes]|];
    cbn [deref bind]; try (intros H; inversion H; discriminate).
  destruct (showConnections (firstn 6 (roomConnections r))) as [shown|f']
    eqn:E; cbn [bind]; [discriminate|].
  intros H. inversion H; subst. apply (showConnections_fault _ _ E).
Qed.

(** One iteration of the loop, whatever is typed. *)
Lemma gameStep_general (times : nat -> string) (roomArr : list room)
    (st : game) :
  match gameStep times roomArr st with
  | Ok (st', outcome) =>
      (String.length (stdin st') < String.length (stdin st))%nat /\
      exists k,
        stepCount st' = (stepCount st + k)%nat /\
        visitedRooms st' = visitedRooms st ++ repeat (userInputRoom st') k /\
        (k = 0%nat -> currentRoom st' = currentRoom st /\ outcome = Playing) /\
        ((0 < k)%nat ->
         (currentRoom st' < 7)%nat /\
         roomName (roomAt roomArr (currentRoom st'))
         = text (userInputRoom st') /\
         connectsTo roomArr (currentRoom st) (userInputRoom st')) /\
        match outcome with
        | Playing => (0 < k)%nat -> ~ isEndRoom roomArr (currentRoom st')
        | Won =>
            isEndRoom roomArr (currentRoom st') /\ (0 < k)%nat /\
            exists shown,
              stdout st'
              = shown ++ victory (stepCount st') (visitedRooms st')
        end
  | Fault f => f <> OutOfFuel
  end.
Proof.
  unfold gameStep.
  destruct (if strcmp0 (userInputRoom st) "time" then Ok []
            else showRoom (roomAt roomArr (currentRoom st)))
    as [shown|f] eqn:Eshown; cbn [bind].
  2:{ destruct (strcmp0 (userInputRoom st) "time"); [discriminate|].
      apply (showRoom_fault _ _ Eshown). }
  destruct (readInput (stdin st)) as [[input rest]|f] eqn:Eread;
    cbn [bind]; [|exact (readInput_fault _ _ Eread)].
  apply readInput_consumes in Eread.
  pose proof (matchConnection_steps roomArr
                (firstn 6 (roomConnections (roomAt roomArr (currentRoom st))))
                input (currentRoom st, false, stepCount st, visitedRooms st))
    as Hmatch.
  pose proof (enterRoom_steps roomArr input (currentRoom st) false
                (stepCount st) (visitedRooms st)) as Henter.
  destruct (matchConnection roomArr _ input _)
    as [[[[cur' found'] steps'] visited']|f] eqn:Ematch; cbn [bind].
  2:{ destruct Hmatch as [Hmatch|[[_ Hmatch]|Hmatch]]; [discriminate| |].
      - rewrite <- Hmatch in Henter. exact Henter.
      - inversion Hmatch. discriminate. }
  assert (Hk : exists k,
            steps' = (stepCount st + k)%nat /\
            visited' = visitedRooms st ++ repeat input k /\
            (k = 0%nat -> cur' = currentRoom st /\ found' = false) /\
            ((0 < k)%nat ->
             found' = true /\ (cur' < 7)%nat /\
             roomName (roomAt roomArr cur') = text input /\
             connectsTo roomArr (currentRoom st) input)).
  { destruct Hmatch as [Hmatch|[[Hin Hmatch]|Hmatch]]; [| |discriminate].
    - inversion Hmatch; subst. exists 0%nat. cbn [repeat].
      rewrite app_nil_r, Nat.add_0_r. repeat split; auto; lia.
    - rewrite <- Hmatch in Henter.
      destruct Henter as (k & Hs & Hv & Hzero & Hpos).
      exists k. repeat split; auto; try (apply Hzero; assumption);
        apply Hpos; assumption. }
  clear Hmatch Henter Ematch.
  destruct Hk as (k & -> & -> & Hzero & Hpos).
  destruct found'; cbn [negb andb].
  - assert (Hkpos : (0 < k)%nat).
    { destruct k; [destruct (Hzero eq_refl); discriminate | lia]. }
    destruct (Hpos Hkpos) as (_ & Hcur & Hname & Hconn).
    destruct (roomType (roomAt roomArr cur')) as [type|] eqn:Etype;
      cbn [strcmp0_ptr bind]; [|discriminate].
    pose proof (strcmpBuffer_same "roomType" type "END_ROOM") as Hend.
    assert (Hnot : strcmpBuffer "roomType" type "END_ROOM" = Ok false ->
                   ~ isEndRoom roomArr cur').
    { unfold isEndRoom, text. rewrite Etype. intros Hcmp E.
      inversion E; subst. cbn in Hcmp. discriminate. }
    destruct (strcmpBuffer "roomType" type "END_ROOM") as [[|]|f];
      cbn [bind]; [| |exact Hend];
      cbn [currentRoom stepCount userInputRoom visitedRooms stdin stdout];
      (split; [exact Eread|]); exists k;
      (split; [reflexivity|]); (split; [reflexivity|]);
      (split; [intros ->; lia|]); (split; [auto|]).
    + split; [unfold isEndRoom, text; rewrite Etype, (Hend eq_refl);
              reflexivity|].
      split; [exact Hkpos|]. eexists. reflexivity.
    + intros _. apply Hnot. reflexivity.
  - assert (Hk0 : k = 0%nat).
    { destruct k; [reflexivity|].
      destruct (Hpos ltac:(lia)) as (E & _). discriminate. }
    destruct (Hzero Hk0) as [-> _].
    destruct (strcmp0 input "time");
      cbn [currentRoom stepCount userInputRoom visitedRooms stdin stdout];
      (split; [exact Eread|]); exists k;
      (split; [reflexivity|]); (split; [reflexivity|]);
      (split; [auto|]); (split; [intros; lia|]); intros; lia.
Qed.

Lemma last_repeat {A : Type} (l : list A) (x d : A) (k : nat) :
  (0 < k)%nat -> last (l ++ repeat x k) d = x.
Proof.
  intros Hk. destruct k as [|k]; [lia|].
  cbn [repeat]. rewrite repeat_cons, app_assoc. apply last_last.
Qed.

(** ** The whole session, whatever is typed *)

Lemma gameLoop_general (times : nat -> string) (roomArr : list room) :
  forall (fuel : nat) (st : game),
    ~ isEndRoom roomArr (currentRoom st) ->
    stepCount st = length (visitedRooms st) ->
    Forall (fun name =>
              exists i, (i < 7)%nat /\
                        roomName (roomAt roomArr i) = text name)
           (visitedRooms st) ->
    match gameLoop fuel times roomArr st with
    | Ok final =>
        isEndRoom roomArr (currentRoom final) /\
        (1 <= stepCount final)%nat /\
        stepCount final = length (visitedRooms final) /\
        Forall (fun name =>
                  exists i, (i < 7)%nat /\
                            roomName (roomAt roomArr i) = text name)
               (visitedRooms final) /\
        roomName (roomAt roomArr (currentRoom final))
        = text (last (visitedRooms final) "") /\
        exists shown,
          stdout final
          = shown ++ victory (stepCount final) (visitedRooms final)
    | Fault f => f = OutOfFuel -> (fuel <= String.length (stdin st))%nat
    end.
Proof.
  induction fuel as [|fuel IH]; intros st Hnotend Hsteps Hnamed;
    cbn [gameLoop]; [intros _; lia|].
  destruct (roomType (roomAt roomArr (currentRoom st))) as [type|] eqn:Etype;
    cbn [strcmp0_ptr bind]; [|discriminate].
  pose proof (strcmpBuffer_same "roomType" type "END_ROOM") as Hend.
  destruct (strcmpBuffer "roomType" type "END_ROOM") as [[|]|f]; cbn [bind];
    [exfalso; apply Hnotend; unfold isEndRoom, text;
     rewrite Etype, (Hend eq_refl); reflexivity
    | |intros ->; contradiction].
  clear Hend.
  pose proof (gameStep_general times roomArr st) as Hstep.
  destruct (gameStep times roomArr st) as [[st' outcome]|f]; cbn [bind];
    [|intros ->; contradiction].
  destruct Hstep as (Hshort & k & Hs & Hv & Hzero & Hpos & Hout).
  assert (Hsteps' : stepCount st' = length (visitedRooms st')).
  { rewrite Hs, Hv, length_app, repeat_length. lia. }
  assert (Hnamed' : Forall (fun name =>
                      exists i, (i < 7)%nat /\
                                roomName (roomAt roomArr i) = text name)
                      (visitedRooms st')).
  { rewrite Hv. apply Forall_app. split; [exact Hnamed|].
    apply Forall_forall. intros name Hin.
    destruct k as [|k]; [destruct Hin|].
    apply repeat_spec in Hin. subst name.
    destruct (Hpos ltac:(lia)) as (Hcur & Hname & _). eauto. }
  destruct outcome.
  - specialize (IH st').
    assert (Hnotend' : ~ isEndRoom roomArr (currentRoom st')).
    { destruct k as [|k].
      - destruct (Hzero eq_refl) as [-> _]. exact Hnotend.
      - apply Hout. lia. }
    specialize (IH Hnotend' Hsteps' Hnamed').
    destruct (gameLoop fuel times roomArr st') as [final|f]; [exact IH|].
    intros E. specialize (IH E). lia.
  - destruct Hout as (Hwon & Hk & shown & Hprinted).
    split; [exact Hwon|]. split; [lia|]. split; [exact Hsteps'|].
    split; [exact Hnamed'|]. split; [|eauto].
    rewrite Hv, last_repeat by exact Hk. apply Hpos. exact Hk.
Qed.

(** X14: whatever is typed, when [runGameDriver] returns the current room
    is the END room, at least one step was counted, the step count is the
    number of names on the path, every name on the path is the name of a
    loaded room, the last one that of the END room, and the output ends
    with the congratulation, the count and the path.  The loop takes
    input at every iteration, so a session that does not reach the END
    room ends in undefined behaviour; with nothing on [stdin] that is the
    write to [userInputRoom[-1]]. *)
Theorem runner_returns_only_at_the_end (times : nat -> string)
    (roomArr : list room) (input : string) :
  (forall final,
     runGameDriver times roomArr input = Ok final ->
     isEndRoom roomArr (currentRoom final) /\
     (1 <= stepCount final)%nat /\
     stepCount final = length (visitedRooms final) /\
     Forall (fun name =>
               exists i, (i < 7)%nat /\
                         roomName (roomAt roomArr i) = text name)
            (visitedRooms final) /\
     roomName (roomAt roomArr (currentRoom final))
     = text (last (visitedRooms final) "") /\
     exists shown,
       stdout final
       = shown
         ++ [("YOU HAVE FOUND THE END ROOM. CONGRATULATIONS!" ++ newline)
             %string;
             ("YOU TOOK "
              ++ NilEmpty.string_of_uint (Nat.to_uint (stepCount final))
              ++ " STEPS. YOUR PATH TO VICTORY WAS:" ++ newline)%string]
         ++ map (fun name => (name ++ newline)%string) (visitedRooms final)) /\
  runGameDriver times roomArr input <> Fault OutOfFuel /\
  (roomsLoaded roomArr ->
   (exists start, findStart roomArr = Ok (Some start)) ->
   runGameDriver times roomArr ""
   = Fault (IndexOutOfBounds "userInputRoom" (-1))).
Proof.
  assert (Hloop : forall typed start,
            findStart roomArr = Ok (Some start) ->
            match runGameDriver times roomArr typed with
            | Ok final =>
                isEndRoom roomArr (currentRoom final) /\
                (1 <= stepCount final)%nat /\
                stepCount final = length (visitedRooms final) /\
                Forall (fun name =>
                          exists i, (i < 7)%nat /\
                                    roomName (roomAt roomArr i) = text name)
                       (visitedRooms final) /\
                roomName (roomAt roomArr (currentRoom final))
                = text (last (visitedRooms final) "") /\
                exists shown,
                  stdout final
                  = shown ++ victory (stepCount final) (visitedRooms final)
            | Fault f => f <> OutOfFuel
            end).
  { intros typed start Hstart. unfold runGameDriver. rewrite Hstart.
    cbn [bind].
    apply GameProofs.findStart_start in Hstart as [Hlt Htype].
    pose proof (gameLoop_general times roomArr (S (String.length typed))
                  {| currentRoom := start; stepCount := 0;
                     userInputRoom := ""; visitedRooms := [];
                     stdin := typed; stdout := []; timeCalls := 0 |}) as H.
    cbn [currentRoom stepCount visitedRooms stdin length] in H.
    specialize (H ltac:(unfold isEndRoom; rewrite Htype; discriminate)
                  eq_refl (Forall_nil _)).
    destruct (gameLoop _ times roomArr _) as [final|f]; [exact H|].
    intros ->. specialize (H eq_refl). lia. }
  assert (Hcases : (exists start, findStart roomArr = Ok (Some start)) \/
                   findStart roomArr = Ok None \/
                   exists f, findStart roomArr = Fault f /\ f <> OutOfFuel).
  { destruct (findStart roomArr) as [[start|]|f] eqn:E; eauto.
    right. right. exists f. split; [reflexivity|].
    unfold findStart in E. clear Hloop. revert E.
    generalize (@None nat). generalize (seq 0 7).
    induction l as [|x l IH]; intros cur E; cbn [fold_left bind] in E;
      [discriminate|].
    destruct (roomType (roomAt roomArr x)) as [type|];
      cbn [strcmp0_ptr bind] in E;
      [|rewrite GameProofs.findStart_fault in E; inversion E; discriminate].
    pose proof (strcmpBuffer_same "roomType" type "START_ROOM") as Hsame.
    destruct (strcmpBuffer "roomType" type "START_ROOM") as [same|f'];
      cbn [bind] in E; [exact (IH _ E)|].
    rewrite GameProofs.findStart_fault in E. inversion E; subst.
    exact Hsame. }
  split; [|split].
  - intros final Hfinal.
    destruct Hcases as [[start Hstart]|[Hnone|(f & Hf & _)]].
    + specialize (Hloop input start Hstart). rewrite Hfinal in Hloop.
      destruct Hloop as (Hend & Hone & Hcount & Hnamed & Hlast & shown & Hout).
      repeat (split; [assumption|]). exists shown. rewrite Hout.
      unfold victory. rewrite Hcount at 2. rewrite firstn_all. reflexivity.
    + unfold runGameDriver in Hfinal. rewrite Hnone in Hfinal. discriminate.
    + unfold runGameDriver in Hfinal. rewrite Hf in Hfinal. discriminate.
  - destruct Hcases as [[start Hstart]|[Hnone|(f & Hf & Hne)]].
    + specialize (Hloop input start Hstart).
      destruct (runGameDriver times roomArr input); [discriminate|].
      intros E. inversion E. contradiction.
    + unfold runGameDriver. rewrite Hnone. discriminate.
    + unfold runGameDriver. rewrite Hf. cbn [bind]. intros E.
      inversion E. contradiction.
  - intros Hloaded [start Hstart]. unfold runGameDriver. rewrite Hstart.
    cbn [bind]. change (String.length "") with 0%nat.
    cbn [gameLoop currentRoom].
    apply GameProofs.findStart_start in Hstart as [Hlt Htype].
    rewrite Htype. cbn [text strcmp0_ptr strcmpBuffer bind].
    change (strcmp0 "START_ROOM" "END_ROOM") with false. cbn iota.
    unfold gameStep. cbn [userInputRoom currentRoom stdin].
    change (strcmp0 "" "time") with false. cbn iota.
    destruct (GameProofs.showRoom_loaded roomArr start Hloaded Hlt)
      as [shown Hshown].
    rewrite Hshown. reflexivity.
Qed.

Lemma runner_returns_only_at_the_end_witness :
  exists final,
    runGameDriver sampleTimes sampleRooms
      (typedLines ["attic"; "time"; "Kitchen"; "Dungeon"; "Garden"] "")
    = Ok final /\
    (isEndRoom sampleRooms (currentRoom final) /\
     (1 <= stepCount final)%nat /\
     stepCount final = length (visitedRooms final) /\
     Forall (fun name =>
               exists i, (i < 7)%nat /\
                         roomName (roomAt sampleRooms i) = text name)
            (visitedRooms final) /\
     roomName (roomAt sampleRooms (currentRoom final))
     = text (last (visitedRooms final) "") /\
     exists shown,
       stdout final
       = shown
         ++ [("YOU HAVE FOUND THE END ROOM. CONGRATULATIONS!" ++ newline)
             %string;
             ("YOU TOOK "
              ++ NilEmpty.string_of_uint (Nat.to_uint (stepCount final))
              ++ " STEPS. YOUR PATH TO VICTORY WAS:" ++ newline)%string]
         ++ map (fun name => (name ++ newline)%string) (visitedRooms final)).
Proof.
  eexists. split; [vm_compute; reflexivity|].
  apply (proj1 (runner_returns_only_at_the_end sampleTimes sampleRooms
                  (typedLines ["attic"; "time"; "Kitchen"; "Dungeon"; "Garden"]
                     ""))).
  vm_compute. reflexivity.
Defined.

(** ** The time request *)



(** ** Lines the input buffer can take *)

(** X21: a line of text ended by a newline is compared exactly as typed,
    case and spaces kept, when it has at most 8 characters, and the rest
    of [stdin] is left for the next prompt; with 9 characters or more the
    line, its newline and the terminator do not fit [userInputRoom[10]],
    into which [strcpy] copies them all the same.  A line that holds a NUL
    byte is taken up to that byte only: what is compared is the text
    before it without its last character, the newline plays no part, and
    a line that starts with the NUL byte leads to the write at
    [userInputRoom[-1]]. *)
Theorem typed_line_fits_up_to_eight (line rest : string) :
  hasNewline line = false -> (String.length line <= 254)%nat ->
  (cstring line = line ->
   readInput (line ++ newline ++ rest)%string
   = if (String.length line <=? 8)%nat then Ok (line, rest)
     else Fault (BufferOverflow "userInputRoom")) /\
  (forall before after,
     line = (before ++ String "000" after)%string ->
     cstring before = before ->
     readInput (line ++ newline ++ rest)%string
     = if (10 <=? String.length before)%nat
       then Fault (BufferOverflow "userInputRoom")
       else if (String.length before =? 0)%nat
       then Fault (IndexOutOfBounds "userInputRoom" (-1))
       else Ok (substring 0 (String.length before - 1) before, rest)).
Proof.
  intros Hnl Hlen. split.
  - intros Hnul. apply GameProofs.readInput_line; assumption.
  - intros before after -> Hbefore. unfold readInput, fgets.
    destruct ((before ++ String "000" after) ++ newline ++ rest)%string
      eqn:E; [destruct before; discriminate|].
    rewrite <- E. change (256 - 1)%nat with 255%nat.
    rewrite readChars_line by (auto; lia).
    unfold strlen. rewrite !append_assoc.
    rewrite cstring_append by exact Hbefore.
    cbn [append cstring Ascii.eqb Bool.eqb]. rewrite append_nil_r.
    reflexivity.
Qed.

Lemma typed_line_fits_up_to_eight_witness :
  (readInput ("Barracks" ++ newline ++ "time" ++ newline)%string
   = (if (String.length "Barracks" <=? 8)%nat
      then Ok ("Barracks", ("time" ++ newline)%string)
      else Fault (BufferOverflow "userInputRoom")) /\
   readInput ("Catacombs" ++ newline ++ "time" ++ newline)%string
   = (if (String.length "Catacombs" <=? 8)%nat
      then Ok ("Catacombs", ("time" ++ newline)%string)
      else Fault (BufferOverflow "userInputRoom"))) /\
  readInput (("Gardenx" ++ String "000" "") ++ newline ++ "")%string
  = Ok ("Garden", "").
Proof.
  split; [split|].
  - apply (proj1 (typed_line_fits_up_to_eight "Barracks"
                    ("time" ++ newline)%string eq_refl ltac:(cbn; lia))).
    reflexivity.
  - apply (proj1 (typed_line_fits_up_to_eight "Catacombs"
                    ("time" ++ newline)%string eq_refl ltac:(cbn; lia))).
    reflexivity.
  - apply (proj2 (typed_line_fits_up_to_eight
                    ("Gardenx" ++ String "000" "")%string "" eq_refl
                    ltac:(cbn; lia)) "Gardenx" ""%string eq_refl eq_refl).
Defined.

(** X22: a line of text of at most 8 characters and its newline that names
    no connection of the current room and is not [time] gets the apology:
    the room, the step count and the path stay as they were, and a valid
    move typed next from the same room is accepted. *)
Theorem short_unknown_line_gets_the_apology (times : nat -> string)
    (roomArr : list room) (st : game) (line name rest : string)
    (next : nat) :
  roomsLoaded roomArr -> (currentRoom st < 7)%nat ->
  typedName line -> ~ connectsTo roomArr (currentRoom st) line ->
  line <> "time" ->
  typedName name -> connectsTo roomArr (currentRoom st) name ->
  roomCalled roomArr name next ->
  stdin st = (line ++ newline ++ name ++ newline ++ rest)%string ->
  exists st1 st2 outcome,
    gameStep times roomArr st = Ok (st1, Playing) /\
    currentRoom st1 = currentRoom st /\
    stepCount st1 = stepCount st /\
    visitedRooms st1 = visitedRooms st /\
    last (stdout st1) ""
    = ("HUH? I DON’T UNDERSTAND THAT ROOM. TRY AGAIN." ++ newline ++ newline)
      %string /\
    gameStep times roomArr st1 = Ok (st2, outcome) /\
    currentRoom st2 = next /\
    stepCount st2 = S (stepCount st) /\
    visitedRooms st2 = visitedRooms st ++ [name].
Proof. apply GameProofs.unknown_then_move. Qed.

Lemma short_unknown_line_gets_the_apology_witness :
  let st := {| currentRoom := 0; stepCount := 0; userInputRoom := "";
               visitedRooms := [];
               stdin := ("garden" ++ newline ++ "Garden" ++ newline ++ "")
                        %string;
               stdout := []; timeCalls := 0 |} in
  exists st1 st2 outcome,
    gameStep sampleTimes sampleRooms st = Ok (st1, Playing) /\
    currentRoom st1 = currentRoom st /\
    stepCount st1 = stepCount st /\
    visitedRooms st1 = visitedRooms st /\
    last (stdout st1) ""
    = ("HUH? I DON’T UNDERSTAND THAT ROOM. TRY AGAIN." ++ newline ++ newline)
      %string /\
    gameStep sampleTimes sampleRooms st1 = Ok (st2, outcome) /\
    currentRoom st2 = 2%nat /\
    stepCount st2 = S (stepCount st) /\
    visitedRooms st2 = visitedRooms st ++ ["Garden"].
Proof.
  apply (short_unknown_line_gets_the_apology sampleTimes sampleRooms
           {| currentRoom := 0; stepCount := 0; userInputRoom := "";
              visitedRooms := [];
              stdin := ("garden" ++ newline ++ "Garden" ++ newline ++ "")
                       %string;
              stdout := []; timeCalls := 0 |}
           "garden" "Garden" "" 2).
  - exact GameProofs.sampleRooms_loaded.
  - cbn. lia.
  - split; [cbn; lia | split; reflexivity].
  - cbn. intros [H|[H|[H|[]]]]; discriminate.
  - discriminate.
  - split; [cbn; lia | split; reflexivity].
  - cbn. tauto.
  - apply GameProofs.sampleRooms_called; [lia | reflexivity].
  - reflexivity.
Defined.

(** ** The list of connections *)

Lemma showConnections_names (names : list string) (n : nat) :
  names <> [] ->
  exists shown,
    showConnections (map text names ++ repeat None n) = Ok shown /\
    BuildRooms.flatten shown = (" " ++ commaList names ++ ".")%string.
Proof.
  induction names as [|name names IH]; intros Hne; [contradiction|].
  destruct names as [|next names].
  - cbn [map app showConnections text deref bind commaList].
    destruct n; cbn [repeat showConnections bind];
      (eexists; split; [reflexivity|]);
      cbn [BuildRooms.flatten fold_right];
      rewrite ?append_nil_r; rewrite <- ?append_assoc; reflexivity.
  - destruct (IH ltac:(discriminate)) as (more & Hmore & Hflat).
    change (map text (name :: next :: names) ++ repeat None n)
      with (Some (Text name) :: (map text (next :: names) ++ repeat None n)).
    cbn [showConnections deref bind]. rewrite Hmore. cbn [bind].
    eexists. split; [reflexivity|].
    cbn [map app text]. cbn [BuildRooms.flatten fold_right].
    fold (BuildRooms.flatten more). rewrite Hflat.
    change (commaList (name :: next :: names))
      with (name ++ ", " ++ commaList (next :: names))%string.
    rewrite !append_assoc. reflexivity.
Qed.

(** X17: before the prompt the runner prints the name of the current room
    and its connections on two lines, the connections separated by a comma
    and a space and ended by a full stop, also when the room has all six
    (where the loop does not look at a seventh entry). *)
Theorem room_is_shown_with_its_connections (r : room) (name : string)
    (names : list string) :
  roomName r = Some (Text name) -> names <> [] -> (length names <= 6)%nat ->
  roomConnections r
  = map (fun conn => Some (Text conn)) names
    ++ repeat None (6 - length names) ->
  exists shown,
    showRoom r = Ok shown /\
    BuildRooms.flatten shown
    = ("CURRENT LOCATION: " ++ name ++ newline
       ++ "POSSIBLE CONNECTIONS: " ++ commaList names ++ "." ++ newline)%string.
Proof.
  intros Hname Hne Hlen Hconns. unfold showRoom.
  rewrite Hname, Hconns. cbn [deref bind].
  rewrite firstn_all2
    by (rewrite length_app, length_map, repeat_length; lia).
  destruct (showConnections_names names (6 - length names) Hne)
    as (connections & Hshown & Hflat).
  unfold text in Hshown. rewrite Hshown. cbn [bind].
  eexists. split; [reflexivity|].
  change ([locationLine name; "POSSIBLE CONNECTIONS:"] ++
          connections ++ [newline])
    with (locationLine name :: "POSSIBLE CONNECTIONS:"
          :: (connections ++ [newline])).
  cbn [BuildRooms.flatten fold_right].
  fold (BuildRooms.flatten (connections ++ [newline])).
  rewrite RoomFileProofs.flatten_app, Hflat.
  unfold locationLine. cbn [BuildRooms.flatten fold_right].
  rewrite !append_assoc, ?append_nil_r. reflexivity.
Qed.

Lemma room_is_shown_with_its_connections_witness :
  exists shown,
    showRoom (roomAt sampleRooms 2) = Ok shown /\
    BuildRooms.flatten shown
    = ("CURRENT LOCATION: " ++ "Garden" ++ newline
       ++ "POSSIBLE CONNECTIONS: "
       ++ commaList ["Dungeon"; "Barracks"; "Game"; "Medical"] ++ "."
       ++ newline)%string.
Proof.
  apply (room_is_shown_with_its_connections (roomAt sampleRooms 2) "Garden"
           ["Dungeon"; "Barracks"; "Game"; "Medical"]).
  - reflexivity.
  - discriminate.
  - cbn. lia.
  - reflexivity.
Defined.

End SessionFacts.

(** * More about the time hand-off *)

Module HandoffFacts.
Import Adventure.
Local Open Scope string_scope.
Local Open Scope list_scope.

Lemma timeLines_S (times : nat -> string) (n : nat) :
  timeLines times (S n) = timeLines times n ++ readTimeFile (times n).
Proof.
  unfold timeLines. rewrite seq_S, flat_map_app. cbn [flat_map Nat.add].
  rewrite app_nil_r. reflexivity.
Qed.

Lemma handoffStep_output (times : nat -> string) (s s' : handoff) :
  handoffInvariant times s -> handoffOutput times s ->
  handoffStep times s s' -> handoffOutput times s'.
Proof.
  intros Hinv Hout Hstep. unfold handoffInvariant, handoffOutput in *.
  destruct Hstep;
    repeat match goal with
           | H : mainAt _ = _ |- _ => rewrite H in Hinv, Hout
           end;
    cbn [mainAt workers mutex timeFile clock printed requests spawned].
  - rewrite H. exact Hout.
  - destruct Hout as [Hc Hp]. rewrite Hc. split; [reflexivity | exact Hp].
  - exact Hout.
  - destruct Hinv as (Hw & _). rewrite Hw. exact Hout.
  - destruct Hinv as (_ & w & Hw & _). TimeProofs.worker_cases.
    rewrite Hw in Hout. exact Hout.
  - exact Hout.
  - destruct Hinv as (_ & _ & _ & k & Hk & Hfile).
    destruct Hout as [Hc Hp]. split; [exact Hc|].
    rewrite Hp, Hfile, <- Hc, Hk. cbn [Nat.sub].
    rewrite Nat.sub_0_r. symmetry. apply timeLines_S.
  - destruct (mainAt s);
      try (destruct Hinv as (Hw & _); TimeProofs.worker_cases; fail).
    destruct Hinv as (_ & w & Hw & _). TimeProofs.worker_cases.
    rewrite Hw in Hout. exact Hout.
  - destruct (mainAt s);
      try (destruct Hinv as (Hw & _); TimeProofs.worker_cases; fail).
    destruct Hinv as (_ & w & Hw & _). TimeProofs.worker_cases.
    rewrite Hw in Hout. exact Hout.
  - destruct (mainAt s);
      try (destruct Hinv as (Hw & _); TimeProofs.worker_cases; fail).
    destruct Hinv as (_ & w & Hw & _). TimeProofs.worker_cases.
    rewrite Hw in Hout. cbn [app]. destruct Hout as [Hc Hp].
    split; [exact Hc|]. cbn [Nat.sub]. rewrite Nat.sub_0_r. exact Hp.
  - destruct (mainAt s);
      try (destruct Hinv as (Hw & _); TimeProofs.worker_cases; fail).
    destruct Hinv as (_ & w & Hw & _). TimeProofs.worker_cases.
    rewrite Hw in Hout. exact Hout.
  - destruct (mainAt s);
      try (destruct Hinv as (Hw & _); TimeProofs.worker_cases; fail).
    destruct Hinv as (_ & w & Hw & _). TimeProofs.worker_cases.
    rewrite Hw in Hout. exact Hout.
Qed.

Lemma handoff_output (times : nat -> string) (timeFile : string)
    (s : handoff) :
  handoffReachable times timeFile s -> handoffOutput times s.
Proof.
  induction 1 as [|s s' Hreach IH Hstep].
  - cbn. auto.
  - eapply handoffStep_output; eauto.
    eapply TimeProofs.handoff_invariant; eauto.
Qed.



(** X19: the time file is touched only under the mutex.  In every state
    an execution can reach, a worker that has taken the mutex and not yet
    given it back holds it; the main thread holds it at the prompt and
    when it reads the file, and no worker exists then; and a step that
    changes the content of the file is taken while a worker holds the
    mutex and the main thread waits in [pthread_join]. *)
Theorem time_file_is_used_under_the_mutex (times : nat -> string)
    (timeFile0 : string) (s : handoff) :
  handoffReachable times timeFile0 s ->
  (forall w, In w (workers s) -> w <> WorkerLocking ->
             w <> WorkerReturned -> mutex s = Some WorkerThread) /\
  (mainAt s = AtPrompt \/ mainAt s = Reading ->
   mutex s = Some MainThread /\ workers s = []) /\
  (forall s', handoffStep times s s' -> timeFile s' <> timeFile s ->
              mutex s = Some WorkerThread /\ mainAt s = Joining).
Proof.
  intros Hreach. apply TimeProofs.handoff_invariant in Hreach.
  unfold handoffInvariant in Hreach.
  split; [|split].
  - intros w Hin Hl Hr. destruct (mainAt s);
      try (destruct Hreach as (Hw & _); rewrite Hw in Hin; destruct Hin).
    destruct Hreach as (_ & w' & Hw & Hcase). rewrite Hw in Hin.
    destruct Hin as [<-|[]]. destruct w'; try contradiction;
      try exact Hcase; apply Hcase.
  - intros [Hat|Hat]; rewrite Hat in Hreach;
      destruct Hreach as (Hw & Hm & _); auto.
  - intros s' Hstep Hfile.
    destruct Hstep;
      cbn [mainAt workers mutex timeFile clock printed requests spawned]
        in Hfile;
      try contradiction;
      (destruct (mainAt s);
       try (destruct Hreach as (Hw & _); TimeProofs.worker_cases; fail);
       destruct Hreach as (_ & w & Hw & Hcase); TimeProofs.worker_cases;
       split; [exact Hcase | reflexivity]).
Qed.

Lemma time_file_is_used_under_the_mutex_witness :
  let s := {| mainAt := Joining; workers := [WorkerWriting];
              mutex := Some WorkerThread; timeFile := ""; clock := 0;
              printed := []; requests := 1; spawned := 1 |} in
  (forall w, In w (workers s) -> w <> WorkerLocking ->
             w <> WorkerReturned -> mutex s = Some WorkerThread) /\
  (mainAt s = AtPrompt \/ mainAt s = Reading ->
   mutex s = Some MainThread /\ workers s = []) /\
  (forall s', handoffStep sampleTimes s s' -> timeFile s' <> timeFile s ->
              mutex s = Some WorkerThread /\ mainAt s = Joining).
Proof.
  apply (time_file_is_used_under_the_mutex sampleTimes "").
  pose proof (reach_start sampleTimes "") as H.
  unfold handoffStart in H.
  TimeProofs.next_state H ltac:(apply step_time_request; reflexivity).
  TimeProofs.next_state H ltac:(apply step_main_unlock; reflexivity).
  TimeProofs.next_state H ltac:(apply step_main_create; reflexivity).
  TimeProofs.next_state H
    ltac:(apply (step_worker_lock _ _ [] []); reflexivity).
  TimeProofs.next_state H
    ltac:(apply (step_worker_open _ _ [] []); reflexivity).
  exact H.
Defined.

End HandoffFacts.

(** * More about the room-file reader *)

Module ReaderFacts.
Import Adventure.
Local Open Scope string_scope.
Local Open Scope list_scope.

Lemma hasNewline_append (a b : string) :
  hasNewline (a ++ b)%string = hasNewline a || hasNewline b.
Proof.
  induction a as [|c a IH]; cbn [append hasNewline]; [reflexivity|].
  rewrite IH, orb_assoc. reflexivity.
Qed.

Lemma skipNewlines_line (body : string) :
  hasNewline body = false -> skipNewlines (body ++ newline)%string = body.
Proof.
  induction body as [|c body IH]; cbn [append hasNewline skipNewlines];
    [reflexivity|].
  intros H. apply orb_false_elim in H as [Hc Hbody].
  rewrite Hc, IH by exact Hbody. reflexivity.
Qed.

Lemma substring_skip (a b : string) (n : nat) :
  substring (String.length a) n (a ++ b)%string = substring 0 n b.
Proof. induction a as [|c a IH]; cbn; [reflexivity | exact IH]. Qed.

Lemma substring_all (a : string) : substring 0 (String.length a) a = a.
Proof.
  rewrite <- (append_nil_r a) at 2. apply substring_prefix.
Qed.

Lemma skipNewlines_none (body : string) :
  hasNewline body = false -> skipNewlines body = body.
Proof.
  induction body as [|c body IH]; cbn [hasNewline skipNewlines];
    [reflexivity|].
  intros H. apply orb_false_elim in H as [Hc Hbody].
  rewrite Hc, IH by exact Hbody. reflexivity.
Qed.

Lemma noNul_append (a b : string) : noNul a -> noNul b -> noNul (a ++ b).
Proof.
  intros Ha Hb. unfold noNul. rewrite cstring_append by exact Ha.
  rewrite Hb. reflexivity.
Qed.

(** The payload of a line made of a label, a value and a newline, when the
    copy starts right after the label. *)
Lemma payload_value (label value : string) :
  noNul label -> noNul value -> hasNewline value = false ->
  payload (String.length label) (label ++ value ++ newline)%string = value.
Proof.
  intros Hl Hv H. unfold payload, strlen.
  rewrite cstring_append, cstring_line by assumption.
  rewrite !length_append.
  replace (String.length label
           + (String.length value + String.length newline)
           - String.length label)%nat
    with (String.length (value ++ newline)%string)
    by (rewrite length_append; lia).
  rewrite substring_skip, substring_all. apply skipNewlines_line. exact H.
Qed.

(** The same when a NUL byte and more bytes follow the value: the copy
    stops at the NUL byte. *)
Lemma payload_cut (label value hidden : string) :
  noNul label -> noNul value -> hasNewline value = false ->
  payload (String.length label)
    (label ++ value ++ String "000" hidden ++ newline)%string = value.
Proof.
  intros Hl Hv H. unfold payload, strlen.
  rewrite !cstring_append by assumption.
  cbn [cstring Ascii.eqb Bool.eqb]. rewrite append_nil_r.
  rewrite !length_append.
  replace (String.length label + String.length value - String.length label)%nat
    with (String.length value) by lia.
  rewrite <- (append_nil_r value) at 2.
  rewrite substring_skip, append_nil_r, substring_all.
  apply skipNewlines_none. exact H.
Qed.

(** A file of one line, shorter than the buffer of [fgets]. *)
Lemma one_line_file (body : string) :
  hasNewline body = false -> (String.length body < 254)%nat ->
  linesOf (body ++ newline)%string = [(body ++ newline)%string].
Proof.
  intros Hnl Hlen. unfold linesOf. rewrite length_append.
  cbn [String.length newline BuildRooms.newline].
  replace (String.length body + 1)%nat with (S (String.length body)) by lia.
  cbn [fileLines]. unfold fgets.
  destruct (body ++ newline)%string eqn:E; [destruct body; discriminate|].
  rewrite <- E. rewrite <- (append_nil_r (body ++ newline)%string) at 1.
  rewrite append_assoc.
  change (255 - 1)%nat with 254%nat.
  rewrite readChars_line by assumption.
  destruct (String.length body); reflexivity.
Qed.

Lemma read_one_line (label value : string) :
  hasNewline label = false -> hasNewline value = false ->
  (String.length label + String.length value < 254)%nat ->
  readFile (label ++ value ++ newline)%string
  = (st <- readLine (initializeData, 0%nat)
             (label ++ value ++ newline)%string ;;
     Ok (fst st)).
Proof.
  intros Hl Hv Hlen. unfold readFile.
  rewrite <- append_assoc. rewrite one_line_file.
  - cbn [readLines bind]. destruct (readLine _ _); reflexivity.
  - rewrite hasNewline_append, Hl, Hv. reflexivity.
  - rewrite length_append. exact Hlen.
Qed.

(** What the copy loop leaves in a buffer of [capacity] bytes. *)
Lemma copyPayload_cases (buffer : string) (capacity start : nat)
    (l value : string) :
  payload start l = value -> (0 < capacity)%nat ->
  copyPayload buffer capacity start l
  = if (String.length value <=? capacity - 1)%nat then Ok (Text value)
    else if (String.length value =? capacity)%nat
    then Ok (Unterminated value)
    else Fault (BufferOverflow buffer).
Proof.
  intros Hp Hc. unfold copyPayload. rewrite Hp.
  destruct (Nat.ltb_spec (String.length value) capacity);
    destruct (Nat.leb_spec (String.length value) (capacity - 1)); try lia;
    reflexivity.
Qed.

(** X18: [readFile] copies a room name and a room type into 11 bytes and a
    connection name into 10, with no check.  A file holding a ROOM NAME
    line is read as that name when the name has at most 10 characters;
    with 11 characters every byte of the buffer is written and no
    terminator is left; a longer name is written past the buffer.  The
    same holds for a ROOM TYPE line, and for a CONNECTION line with 9 and
    10 characters.  A name followed by a NUL byte is copied up to that
    byte only. *)
Theorem readFile_buffer_bounds (value hidden : string) :
  hasNewline value = false -> cstring value = value ->
  (String.length value <= 200)%nat ->
  hasNewline hidden = false -> (String.length hidden <= 20)%nat ->
  readFile (BuildRooms.nameLine value)
  = (if (String.length value <=? 10)%nat
     then Ok {| roomName := Some (Text value); roomType := None;
                roomConnections := repeat None 6 |}
     else if (String.length value =? 11)%nat
     then Ok {| roomName := Some (Unterminated value); roomType := None;
                roomConnections := repeat None 6 |}
     else Fault (BufferOverflow "name")) /\
  (classify (BuildRooms.typeLine value) = TypeLine ->
   readFile (BuildRooms.typeLine value)
   = if (String.length value <=? 10)%nat
     then Ok {| roomName := None; roomType := Some (Text value);
                roomConnections := repeat None 6 |}
     else if (String.length value =? 11)%nat
     then Ok {| roomName := None; roomType := Some (Unterminated value);
                roomConnections := repeat None 6 |}
     else Fault (BufferOverflow "type")) /\
  (classify (BuildRooms.connectionLine 1 value) = ConnectionLine ->
   readFile (BuildRooms.connectionLine 1 value)
   = if (String.length value <=? 9)%nat
     then Ok {| roomName := None; roomType := None;
                roomConnections := Some (Text value) :: repeat None 5 |}
     else if (String.length value =? 10)%nat
     then Ok {| roomName := None; roomType := None;
                roomConnections :=
                  Some (Unterminated value) :: repeat None 5 |}
     else Fault (BufferOverflow "roomConn")) /\
  readFile ("ROOM NAME: " ++ value ++ String "000" hidden ++ newline)%string
  = (if (String.length value <=? 10)%nat
     then Ok {| roomName := Some (Text value); roomType := None;
                roomConnections := repeat None 6 |}
     else if (String.length value =? 11)%nat
     then Ok {| roomName := Some (Unterminated value); roomType := None;
                roomConnections := repeat None 6 |}
     else Fault (BufferOverflow "name")).
Proof.
  intros Hnl Hnul Hlen Hnl' Hlen'. split; [|split; [|split]].
  - change (BuildRooms.nameLine value)
      with ("ROOM NAME: " ++ value ++ newline)%string.
    rewrite read_one_line by (auto; cbn [String.length]; lia).
    unfold readLine.
    change (classify ("ROOM NAME: " ++ value ++ newline)%string)
      with NameLine.
    pose proof (payload_value "ROOM NAME: " value eq_refl Hnul Hnl) as Hp.
    cbn [String.length] in Hp.
    rewrite (copyPayload_cases "name" 11 11 _ value Hp) by lia.
    change (11 - 1)%nat with 10%nat.
    destruct (String.length value <=? 10)%nat; [reflexivity|].
    destruct (String.length value =? 11)%nat; reflexivity.
  - intros Hclass.
    change (BuildRooms.typeLine value)
      with ("ROOM TYPE: " ++ value ++ newline)%string in *.
    rewrite read_one_line by (auto; cbn [String.length]; lia).
    unfold readLine. rewrite Hclass.
    pose proof (payload_value "ROOM TYPE: " value eq_refl Hnul Hnl) as Hp.
    cbn [String.length] in Hp.
    rewrite (copyPayload_cases "type" 11 11 _ value Hp) by lia.
    change (11 - 1)%nat with 10%nat.
    destruct (String.length value <=? 10)%nat; [reflexivity|].
    destruct (String.length value =? 11)%nat; reflexivity.
  - intros Hclass.
    change (BuildRooms.connectionLine 1 value)
      with ("CONNECTION 1: " ++ value ++ newline)%string in *.
    rewrite read_one_line by (auto; cbn [String.length]; lia).
    unfold readLine. rewrite Hclass.
    pose proof (payload_value "CONNECTION 1: " value eq_refl Hnul Hnl) as Hp.
    cbn [String.length] in Hp.
    rewrite (copyPayload_cases "roomConn" 10 14 _ value Hp) by lia.
    change (10 - 1)%nat with 9%nat.
    destruct (String.length value <=? 9)%nat; [reflexivity|].
    destruct (String.length value =? 10)%nat; reflexivity.
  - replace ("ROOM NAME: " ++ value ++ String "000" hidden ++ newline)%string
      with ("ROOM NAME: " ++ (value ++ String "000" hidden) ++ newline)%string
      by (rewrite !append_assoc; reflexivity).
    rewrite read_one_line.
    2:{ reflexivity. }
    2:{ rewrite hasNewline_append. cbn [hasNewline Ascii.eqb Bool.eqb orb].
        rewrite Hnl, Hnl'. reflexivity. }
    2:{ rewrite length_append. cbn [String.length]. lia. }
    unfold readLine.
    assert (Hclass : classify ("ROOM NAME: "
                               ++ (value ++ String "000" hidden) ++ newline)
                     = NameLine) by reflexivity.
    rewrite Hclass.
    pose proof (payload_cut "ROOM NAME: " value hidden eq_refl Hnul Hnl)
      as Hp.
    cbn [String.length] in Hp.
    replace ("ROOM NAME: " ++ (value ++ String "000" hidden) ++ newline)%string
      with ("ROOM NAME: " ++ value ++ String "000" hidden ++ newline)%string
      by (rewrite !append_assoc; reflexivity).
    rewrite (copyPayload_cases "name" 11 11 _ value Hp) by lia.
    change (11 - 1)%nat with 10%nat.
    destruct (String.length value <=? 10)%nat; [reflexivity|].
    destruct (String.length value =? 11)%nat; reflexivity.
Qed.

Lemma readFile_buffer_bounds_witness :
  readFile (BuildRooms.nameLine "Laboratory")
  = Ok {| roomName := Some (Text "Laboratory"); roomType := None;
          roomConnections := repeat None 6 |} /\
  readFile (BuildRooms.typeLine "Observatory")
  = Ok {| roomName := None; roomType := Some (Unterminated "Observatory");
          roomConnections := repeat None 6 |} /\
  readFile (BuildRooms.connectionLine 1 "Observatory")
  = Fault (BufferOverflow "roomConn") /\
  readFile ("ROOM NAME: " ++ "Attic" ++ String "000" "Observatory" ++ newline)
  = Ok {| roomName := Some (Text "Attic"); roomType := None;
          roomConnections := repeat None 6 |}.
Proof.
  split; [|split; [|split]].
  - apply (proj1 (readFile_buffer_bounds "Laboratory" "" eq_refl eq_refl
                    ltac:(cbn; lia) eq_refl ltac:(cbn; lia))).
  - apply (proj1 (proj2 (readFile_buffer_bounds "Observatory" "" eq_refl
                           eq_refl ltac:(cbn; lia) eq_refl ltac:(cbn; lia)))).
    reflexivity.
  - apply (proj1 (proj2 (proj2 (readFile_buffer_bounds "Observatory" ""
                                  eq_refl eq_refl ltac:(cbn; lia) eq_refl
                                  ltac:(cbn; lia))))).
    reflexivity.
  - apply (proj2 (proj2 (proj2 (readFile_buffer_bounds "Attic" "Observatory"
                                  eq_refl eq_refl ltac:(cbn; lia) eq_refl
                                  ltac:(cbn; lia))))).
Defined.

End ReaderFacts.
